(** * Shallow embedding of the O2Physics analysis tasks

    - [PWGLF/Tasks/Resonances/higherMassResonances.cxx]
      (struct [HigherMassResonances]): K0s-K0s pairing, invariant mass and
      polarisation observables, rotational background, event mixing, and
      the generated and reconstructed Monte-Carlo spectra.
    - [PWGHF/ALICE3/TableProducer/candidateSelectorD0Alice3Barrel.cxx]
      (struct [HfCandidateSelectorD0Alice3Barrel]): topological D0 selection.

    Numbers of type [float] and [double] are embedded as real numbers [R];
    integer columns and configurables as [Z]; histogram fills as an explicit
    list of fill records returned by the functions that perform them. *)

From Stdlib Require Import Reals Lra Lia ZArith List Bool String.
Import ListNotations.
Open Scope R_scope.

(** ** Comparisons of real-valued quantities, as the booleans of the C++ code *)

Definition Rltb (x y : R) : bool := if Rlt_dec x y then true else false.
Definition Rleb (x y : R) : bool := if Rle_dec x y then true else false.
Definition Rgtb (x y : R) : bool := Rltb y x.
Definition Rgeb (x y : R) : bool := Rleb y x.
Definition Reqb (x y : R) : bool := if Req_dec_T x y then true else false.

(** ** ROOT::Math GenVector: three- and four-vectors

    The task is written against ROOT's [Math/Vector3D.h], [Math/Vector4D.h]
    and [Math/GenVector/Boost.h].  The operations it calls are embedded here
    with the formulas of those headers. *)

Module GenVector.

(** [ROOT::Math::XYZVector] *)
Record XYZVector : Type := mkXYZ { fX : R; fY : R; fZ : R }.

Definition Dot (a b : XYZVector) : R :=
  fX a * fX b + fY a * fY b + fZ a * fZ b.

Definition Cross (a b : XYZVector) : XYZVector :=
  mkXYZ (fY a * fZ b - fZ a * fY b)
        (fZ a * fX b - fX a * fZ b)
        (fX a * fY b - fY a * fX b).

Definition Mag2 (a : XYZVector) : R := Dot a a.

Definition Rmag (a : XYZVector) : R := sqrt (Mag2 a).

Definition scale (k : R) (a : XYZVector) : XYZVector :=
  mkXYZ (k * fX a) (k * fY a) (k * fZ a).

Definition neg (a : XYZVector) : XYZVector := mkXYZ (- fX a) (- fY a) (- fZ a).

(** [Unit()]: a zero vector is returned unchanged. *)
Definition Unit (a : XYZVector) : XYZVector :=
  let tot := Rmag a in
  if Reqb tot 0 then a else mkXYZ (fX a / tot) (fY a / tot) (fZ a / tot).

(** [ROOT::Math::PxPyPzEVector] (coordinates [PxPyPzE4D]) *)
Record PxPyPzEVector : Type := mkPxPyPzE { ePx : R; ePy : R; ePz : R; eE : R }.

Definition eM2 (v : PxPyPzEVector) : R :=
  eE v * eE v - ePx v * ePx v - ePy v * ePy v - ePz v * ePz v.

(** [PxPyPzE4D::M()]: a space-like vector gets the negative root. *)
Definition eM (v : PxPyPzEVector) : R :=
  let mm := eM2 v in
  if Rgeb mm 0 then sqrt mm else - sqrt (- mm).

(** [ROOT::Math::PxPyPzMVector] (coordinates [PxPyPzM4D]) *)
Record PxPyPzMVector : Type := mkPxPyPzMraw { Px : R; Py : R; Pz : R; M : R }.

Definition P2 (v : PxPyPzMVector) : R := Px v * Px v + Py v * Py v + Pz v * Pz v.

Definition P (v : PxPyPzMVector) : R := sqrt (P2 v).

(** The constructor from four scalars calls [RestrictNegMass()]. *)
Definition PxPyPzMVector_of (px py pz m : R) : PxPyPzMVector :=
  let v := mkPxPyPzMraw px py pz m in
  if Rgeb m 0 then v
  else if Rltb (P2 v - m * m) 0 then mkPxPyPzMraw px py pz (- P v)
  else v.

Definition M2 (v : PxPyPzMVector) : R :=
  if Rgeb (M v) 0 then M v * M v else - (M v * M v).

Definition E2 (v : PxPyPzMVector) : R :=
  let e2 := P2 v + M2 v in
  if Rgtb e2 0 then e2 else 0.

Definition E (v : PxPyPzMVector) : R := sqrt (E2 v).

Definition Pt (v : PxPyPzMVector) : R := sqrt (Px v * Px v + Py v * Py v).

Definition Vect (v : PxPyPzMVector) : XYZVector := mkXYZ (Px v) (Py v) (Pz v).

Definition eVect (v : PxPyPzEVector) : XYZVector := mkXYZ (ePx v) (ePy v) (ePz v).

(** Conversions between the two coordinate systems. *)
Definition toPxPyPzE (v : PxPyPzMVector) : PxPyPzEVector :=
  mkPxPyPzE (Px v) (Py v) (Pz v) (E v).

Definition toPxPyPzM (v : PxPyPzEVector) : PxPyPzMVector :=
  mkPxPyPzMraw (ePx v) (ePy v) (ePz v) (eM v).

(** [operator+]: the sum is formed in Cartesian coordinates
    ([SetXYZT (x() + q.x(), ..., t() + q.t())]) and stored back as
    [(px, py, pz, M)]. *)
Definition add (a b : PxPyPzMVector) : PxPyPzMVector :=
  toPxPyPzM (mkPxPyPzE (Px a + Px b) (Py a + Py b) (Pz a + Pz b) (E a + E b)).

(** [Rapidity()] *)
Definition Rapidity (v : PxPyPzMVector) : R :=
  let ee := E v in
  let ppz := Pz v in
  0.5 * ln ((ee + ppz) / (ee - ppz)).

(** [BoostToCM()] *)
Definition BoostToCM (v : PxPyPzMVector) : XYZVector :=
  if Reqb (E v) 0 then
    if Reqb (P v) 0 then mkXYZ 0 0 0 else neg (Vect v)
  else scale (/ E v) (neg (Vect v)).

(** [ROOT::Math::Boost]: the ten independent entries of the symmetric
    matrix, as set by [Boost::SetComponents].  For [|beta| >= 1] ROOT
    reports the error and leaves the matrix as it was; a freshly
    constructed boost is taken to be the identity there. *)
Record Boost : Type := mkBoost {
  kXX : R; kXY : R; kXZ : R; kXT : R;
  kYY : R; kYZ : R; kYT : R;
  kZZ : R; kZT : R;
  kTT : R }.

Definition Boost_identity : Boost := mkBoost 1 0 0 0 1 0 0 1 0 1.

Definition Boost_of (beta : XYZVector) : Boost :=
  let bx := fX beta in
  let by_ := fY beta in
  let bz := fZ beta in
  let bp2 := bx * bx + by_ * by_ + bz * bz in
  if Rgeb bp2 1 then Boost_identity
  else
    let gamma := 1 / sqrt (1 - bp2) in
    let bgamma := gamma * gamma / (1 + gamma) in
    mkBoost (1 + bgamma * bx * bx) (bgamma * bx * by_) (bgamma * bx * bz) (gamma * bx)
            (1 + bgamma * by_ * by_) (bgamma * by_ * bz) (gamma * by_)
            (1 + bgamma * bz * bz) (gamma * bz)
            gamma.

(** [Boost::operator()] on Cartesian coordinates. *)
Definition applyE (b : Boost) (v : PxPyPzEVector) : PxPyPzEVector :=
  let x := ePx v in let y := ePy v in let z := ePz v in let t := eE v in
  mkPxPyPzE (kXX b * x + kXY b * y + kXZ b * z + kXT b * t)
            (kXY b * x + kYY b * y + kYZ b * z + kYT b * t)
            (kXZ b * x + kYZ b * y + kZZ b * z + kZT b * t)
            (kXT b * x + kYT b * y + kZT b * z + kTT b * t).

(** [Boost::operator()] on any other coordinate system goes through
    Cartesian coordinates and back. *)
Definition applyM (b : Boost) (v : PxPyPzMVector) : PxPyPzMVector :=
  toPxPyPzM (applyE b (toPxPyPzE v)).

(** [TMath::ATan2 (y, x)]; [atan2] of the C library written with [atan]. *)
Definition atan2 (y x : R) : R :=
  if Rgtb x 0 then atan (y / x)
  else if Rltb x 0 then
    (if Rgeb y 0 then atan (y / x) + PI else atan (y / x) - PI)
  else if Rgtb y 0 then PI / 2
  else if Rltb y 0 then - (PI / 2)
  else 0.

Definition ATan2 (y x : R) : R :=
  if negb (Reqb x 0) then atan2 y x
  else if Reqb y 0 then 0
  else if Rgtb y 0 then PI / 2
  else - (PI / 2).

(** [TRandom::Uniform (x1, x2)] is [x1 + (x2 - x1) * Rndm()], where
    [Rndm()] is a deviate in the open interval (0, 1).  A generator is
    the stream of the deviates it is going to return. *)
Definition TRandom : Type := nat -> R.

Definition Uniform (x1 x2 : R) (g : TRandom) : R * TRandom :=
  (x1 + (x2 - x1) * g 0%nat, fun n => g (S n)).

End GenVector.

(** ** [struct HigherMassResonances] *)

Module HigherMassResonances.
Import GenVector.

(** The configurables read by the embedded functions, with the names of
    the [config] group (and [requireRCTFlagChecker] of [rctCut]). *)
Record Config : Type := mkConfig {
  requireRCTFlagChecker : bool;
  cDCAv0topv : bool;
  globalTracks : bool;
  hasTPC : bool;
  selectTWOKsOnly : bool;
  timFrameEvsel : bool;
  confV0DCADaughMax : R;
  cMaxV0DCA : R;
  confV0PtMin : R;
  confV0CPAMin : R;
  confV0TranRadV0Min : R;
  confV0TranRadV0Max : R;
  cMaxV0LifeTime : R;
  cSigmaMassKs0 : R;
  cWidthKs0 : R;
  confDaughEta : R;
  confDaughTPCnclsMin : R;
  confDaughPIDCuts : R;
  confKsrapidity : R;
  applyAngSepCut : bool;
  angSepCut : R;
  cfgMultFOTM : bool;
  activateTHnSparseCosThStarHelicity : bool;
  activateTHnSparseCosThStarProduction : bool;
  activateTHnSparseCosThStarBeam : bool;
  activateTHnSparseCosThStarRandom : bool;
  cRotations : Z;
  applyCompetingcut : bool;
  competingcascrejlambda : R;
  tpcCrossedrows : Z;
  tpcCrossedrowsOverfcls : R;
  rotationalCut : Z
}.

(** A row of the collision table: the columns the task reads.
    [rctChecker] is the verdict of [rctCut.rctChecker (collision)]. *)
Record Collision : Type := mkCollision {
  index : Z;
  centFT0M : R;
  centFT0C : R;
  posX : R;
  posY : R;
  posZ : R;
  kNoTimeFrameBorder : bool;
  kNoITSROFrameBorder : bool;
  sel8 : bool;
  rctChecker : bool
}.

(** A row of the daughter-track table.  [sign] is the charge sign of the
    track, a [short] that the framework's column sets to 1 or -1; a
    statement that relies on this says so. *)
Record Track : Type := mkTrack {
  sign : Z;
  trackEta : R;
  tpcNClsFound : Z;
  trackHasTPC : bool;
  tpcNClsCrossedRows : Z;
  tpcCrossedRowsOverFindableCls : R;
  isGlobalTrack : bool;
  tpcNSigmaPi : R
}.

(** A row of the V0 table.  [posTrackId] and [negTrackId] are the index
    columns behind [posTrack_as<>()] and [negTrack_as<>()]; the global
    index of the track they return is that id. *)
Record V0 : Type := mkV0 {
  globalIndex : Z;
  straCollisionId : Z;
  posTrackId : Z;
  negTrackId : Z;
  pt : R;
  v0radius : R;
  dcaV0daughters : R;
  v0cosPA : R;
  dcav0topv : R;
  yK0Short : R;
  mK0Short : R;
  mLambda : R;
  mAntiLambda : R;
  px : R;
  py : R;
  pz : R;
  eta : R;
  phi : R;
  distovertotmom : R -> R -> R -> R
}.

(** The three output THnSparses of the [hglue] registry that carry the
    physics result.  The cut-flow counters and QA histograms
    ([heventscheck], [htrackscheck_v0], [rKzeroShort.*]) never feed back
    into the control flow and are not part of the embedded output. *)
Inductive Histogram : Type :=
| h3glueInvMassDS
| h3glueInvMassME
| h3glueInvMassRot.

(** [hglue.fill (HIST (h), multiplicity, pT, mass, cosThetaStar, phi)] *)
Record Fill : Type := mkFill {
  hist : Histogram;
  fMultiplicity : R;
  fPt : R;
  fMass : R;
  fCosThetaStar : R;
  fPhi : R
}.

(** The data members the process functions write: the four-vectors of
    the current pair and the two random generators ([rn] of the task,
    ROOT's global [gRandom]). *)
Record Members : Type := mkMembers {
  multiplicity : R;
  daughter1 : PxPyPzMVector;
  daughter2 : PxPyPzMVector;
  mother : PxPyPzMVector;
  isMix : bool;
  rn : TRandom;
  gRandom : TRandom
}.

(** Outcome of [init]. *)
Inductive InitResult : Type :=
| Fatal (msg : string)
| Initialised (info : list string).

Definition Histogram_eqb (a b : Histogram) : bool :=
  match a, b with
  | h3glueInvMassDS, h3glueInvMassDS => true
  | h3glueInvMassME, h3glueInvMassME => true
  | h3glueInvMassRot, h3glueInvMassRot => true
  | _, _ => false
  end.

(** The entries of [h3glueInvMassDS] and of [h3glueInvMassRot] among
    recorded fills. *)
Definition isDS (f : Fill) : bool := Histogram_eqb (hist f) h3glueInvMassDS.
Definition isRot (f : Fill) : bool := Histogram_eqb (hist f) h3glueInvMassRot.

Definition b2i (b : bool) : Z := if b then 1%Z else 0%Z.

Section Task.

Variable config : Config.

(** [o2::constants::physics::MassK0Short] and [MassLambda0] come from a
    header of the framework. *)
Variable MassK0Short : R.
Variable MassLambda0 : R.

(** The joined track table, by global index. *)
Variable tracks : Z -> Track.

(** *** [init]: the check on the output THnSparses *)

Definition sparses : list Z :=
  [ b2i (activateTHnSparseCosThStarHelicity config);
    b2i (activateTHnSparseCosThStarProduction config);
    b2i (activateTHnSparseCosThStarBeam config);
    b2i (activateTHnSparseCosThStarRandom config) ].

Definition init : InitResult :=
  if (fold_left Z.add sparses 0 =? 0)%Z then
    Fatal "No output THnSparses enabled"
  else
    Initialised
      ((if activateTHnSparseCosThStarHelicity config
        then ["THnSparse with cosThStar w.r.t. helicity axis active."%string] else [])
       ++ (if activateTHnSparseCosThStarProduction config
           then ["THnSparse with cosThStar w.r.t. production axis active."%string] else [])
       ++ (if activateTHnSparseCosThStarBeam config
           then ["THnSparse with cosThStar w.r.t. beam axis active. (Gottified jackson frame)"%string] else [])
       ++ (if activateTHnSparseCosThStarRandom config
           then ["THnSparse with cosThStar w.r.t. random axis active."%string] else [])).

(** *** [eventselection] *)

Definition eventselection (collision : Collision) : bool :=
  if timFrameEvsel config
     && (negb (kNoTimeFrameBorder collision) || negb (kNoITSROFrameBorder collision))
  then false
  else if negb (sel8 collision) then false
  else true.

(** *** [selectionV0] *)

Definition selectionV0 (collision : Collision) (candidate : V0) : bool :=
  let pT := pt candidate in
  let tranRad := v0radius candidate in
  let dcaDaughv0 := dcaV0daughters candidate in
  let cpav0 := v0cosPA candidate in
  let ctauK0s :=
    distovertotmom candidate (posX collision) (posY collision) (posZ collision)
    * MassK0Short in
  let lowmasscutks0 := 0.497 - cWidthKs0 config * cSigmaMassKs0 config in
  let highmasscutks0 := 0.497 + cWidthKs0 config * cSigmaMassKs0 config in
  if cDCAv0topv config && Rgtb (Rabs (dcav0topv candidate)) (cMaxV0DCA config) then false
  else if Rgeb (Rabs (yK0Short candidate)) (confKsrapidity config) then false
  else if Rltb pT (confV0PtMin config) then false
  else if Rgtb dcaDaughv0 (confV0DCADaughMax config) then false
  else if Rltb cpav0 (confV0CPAMin config) then false
  else if Rltb tranRad (confV0TranRadV0Min config) then false
  else if Rgtb tranRad (confV0TranRadV0Max config) then false
  else if Rgtb (Rabs ctauK0s) (cMaxV0LifeTime config) then false
  else if applyCompetingcut config
          && (Rleb (Rabs (mLambda candidate - MassLambda0)) (competingcascrejlambda config)
              || Rleb (Rabs (mAntiLambda candidate - MassLambda0)) (competingcascrejlambda config))
  then false
  else if Rltb (mK0Short candidate) lowmasscutks0
          || Rgtb (mK0Short candidate) highmasscutks0
  then false
  else true.

(** *** [isSelectedV0Daughter] *)

Definition isSelectedV0Daughter (track : Track) (charge : R) (nsigmaV0Daughter : R) : bool :=
  let eta_ := trackEta track in
  let tpcNClsF := tpcNClsFound track in
  let sign_ := sign track in
  let afterTrackQuality :=
    if Rltb charge 0 && (sign_ >? 0)%Z then false
    else if Rgtb charge 0 && (sign_ <? 0)%Z then false
    else if Rgtb (Rabs eta_) (confDaughEta config) then false
    else if Rgtb (Rabs nsigmaV0Daughter) (confDaughPIDCuts config) then false
    else true in
  if hasTPC config && negb (trackHasTPC track) then false
  else if negb (globalTracks config) then
    if (tpcNClsCrossedRows track <? tpcCrossedrows config)%Z then false
    else if Rltb (tpcCrossedRowsOverFindableCls track) (tpcCrossedrowsOverfcls config) then false
    else if Rltb (IZR tpcNClsF) (confDaughTPCnclsMin config) then false
    else afterTrackQuality
  else
    if negb (isGlobalTrack track) then false
    else afterTrackQuality.

(** *** [applyAngSep] *)

Definition applyAngSep (candidate1 candidate2 : V0) : bool :=
  let eta1 := eta candidate1 in
  let eta2 := eta candidate2 in
  let phi1 := phi candidate1 in
  let phi2 := phi candidate2 in
  let angle := sqrt ((eta1 - eta2) ^ 2 + (phi1 - phi2) ^ 2) in
  if applyAngSepCut config && Rgtb angle (angSepCut config) then false
  else true.

(** *** [fillInvMass] *)

Definition BeamMomentum : R := sqrt (13600 * 13600 / 4 - 0.938 * 0.938).
Definition Beam1 : PxPyPzEVector := mkPxPyPzE 0 0 (- BeamMomentum) (13600 / 2).
Definition Beam2 : PxPyPzEVector := mkPxPyPzE 0 0 BeamMomentum (13600 / 2).

(** [TMath::ATan2 (yaxis_HE.Dot (v1_CM), xaxis_HE.Dot (v1_CM))] *)
Definition rawAnglePhi (mother_ daughter1_ : PxPyPzMVector) : R :=
  let boost := Boost_of (BoostToCM mother_) in
  let Beam1_CM := Unit (eVect (applyE boost Beam1)) in
  let Beam2_CM := Unit (eVect (applyE boost Beam2)) in
  let v1_CM := Unit (Vect (applyM boost daughter1_)) in
  let zaxis_HE := Unit (Vect mother_) in
  let yaxis_HE := Unit (Cross Beam1_CM Beam2_CM) in
  let xaxis_HE := Unit (Cross yaxis_HE zaxis_HE) in
  ATan2 (Dot yaxis_HE v1_CM) (Dot xaxis_HE v1_CM).

(** [if (angle_phi < 0) angle_phi += 2 * TMath::Pi ();] *)
Definition anglePhi (mother_ daughter1_ : PxPyPzMVector) : R :=
  let angle_phi := rawAnglePhi mother_ daughter1_ in
  if Rltb angle_phi 0 then angle_phi + 2 * PI else angle_phi.

(** [a.Dot (b) / (std::sqrt (b.Mag2 ()) * std::sqrt (a.Mag2 ()))] *)
Definition cosBetween (a b : XYZVector) : R :=
  Dot a b / (sqrt (Mag2 b) * sqrt (Mag2 a)).

(** [theta2 = rn->Uniform (PI - PI / rotationalCut, PI + PI / rotationalCut)] *)
Definition drawTheta2 (g : TRandom) : R * TRandom :=
  Uniform (PI - PI / IZR (rotationalCut config))
          (PI + PI / IZR (rotationalCut config)) g.

(** The vector [v] with its transverse momentum turned by [theta2]. *)
Definition rotated (v : PxPyPzMVector) (theta2 : R) : PxPyPzMVector :=
  PxPyPzMVector_of (Px v * cos theta2 - Py v * sin theta2)
                   (Px v * sin theta2 + Py v * cos theta2)
                   (Pz v) (M v).

(** Body of the rotation loop in the helicity branch: the first
    daughter is rotated and the pair is built again. *)
Definition motherRotHelicity (daughter1_ daughter2_ : PxPyPzMVector) (theta2 : R)
  : PxPyPzMVector :=
  add (rotated daughter1_ theta2) daughter2_.

Definition rotationHelicity (mult : R) (daughter1_ daughter2_ : PxPyPzMVector)
           (angle_phi : R) (theta2 : R) : list Fill :=
  let daughterRot := rotated daughter1_ theta2 in
  let motherRot := add daughterRot daughter2_ in
  let boost2 := Boost_of (BoostToCM motherRot) in
  let daughterRotCM := applyM boost2 daughterRot in
  let cosThetaStarHelicityRot := cosBetween (Vect motherRot) (Vect daughterRotCM) in
  if Rltb (Rapidity motherRot) 0.5 then
    [mkFill h3glueInvMassRot mult (Pt motherRot) (M motherRot)
            cosThetaStarHelicityRot angle_phi]
  else [].

(** Body of the rotation loop in the production, beam and random
    branches: the mother itself is rotated. *)
Definition rotationMother (mult : R) (mother_ : PxPyPzMVector)
           (cosThetaStar angle_phi : R) (theta2 : R) : list Fill :=
  let motherRot := rotated mother_ theta2 in
  if Rltb (Rabs (Rapidity motherRot)) 0.5 then
    [mkFill h3glueInvMassRot mult (Pt motherRot) (M motherRot) cosThetaStar angle_phi]
  else [].

(** [for (int i = 0; i < config.cRotations; i++)] with one draw of
    [theta2] per turn. *)
Fixpoint rotationLoop (body : R -> list Fill) (n : nat) (g : TRandom)
  : list Fill * TRandom :=
  match n with
  | O => ([], g)
  | S n' =>
      let '(theta2, g1) := drawTheta2 g in
      let '(rest, g2) := rotationLoop body n' g1 in
      (body theta2 ++ rest, g2)
  end.

(** The angles the rotation loop draws, in the order of the draws. *)
Fixpoint rotationAngles (n : nat) (g : TRandom) : list R :=
  match n with
  | O => []
  | S n' =>
      let '(theta2, g1) := drawTheta2 g in
      theta2 :: rotationAngles n' g1
  end.

Definition set_generators (s : Members) (rn_ gRandom_ : TRandom) : Members :=
  mkMembers (multiplicity s) (daughter1 s) (daughter2 s) (mother s) (isMix s)
            rn_ gRandom_.

(** One branch of [fillInvMass] once [cosThetaStar] is known; only the
    rotation body differs between the helicity branch and the others. *)
Definition fillBranch (s : Members) (gRandom_ : TRandom)
           (mother_ : PxPyPzMVector) (mult : R)
           (cosThetaStar angle_phi : R) (isMix_ : bool)
           (body : R -> list Fill) : list Fill * Members :=
  if negb isMix_ then
    let same :=
      if Rltb (Rabs (Rapidity mother_)) 0.5 then
        [mkFill h3glueInvMassDS mult (Pt mother_) (M mother_) cosThetaStar angle_phi]
      else [] in
    let '(rot, g) := rotationLoop body (Z.to_nat (cRotations config)) (rn s) in
    (same ++ rot, set_generators s g gRandom_)
  else
    ((if Rltb (Rabs (Rapidity mother_)) 0.5 then
        [mkFill h3glueInvMassME mult (Pt mother_) (M mother_) cosThetaStar angle_phi]
      else []),
     set_generators s (rn s) gRandom_).

Definition fillInvMass (s : Members) (mother_ : PxPyPzMVector) (mult : R)
           (daughter1_ daughter2_ : PxPyPzMVector) (isMix_ : bool)
  : list Fill * Members :=
  let boost := Boost_of (BoostToCM mother_) in
  let fourVecDauCM := applyM boost daughter1_ in
  let angle_phi := anglePhi mother_ daughter1_ in
  if activateTHnSparseCosThStarHelicity config then
    let cosThetaStarHelicity := cosBetween (Vect mother_) (Vect fourVecDauCM) in
    fillBranch s (gRandom s) mother_ mult cosThetaStarHelicity angle_phi isMix_
               (rotationHelicity mult daughter1_ daughter2_ angle_phi)
  else if activateTHnSparseCosThStarProduction config then
    let normalVec := mkXYZ (Py mother_) (- Px mother_) 0 in
    let cosThetaStarProduction := cosBetween normalVec (Vect fourVecDauCM) in
    fillBranch s (gRandom s) mother_ mult cosThetaStarProduction angle_phi isMix_
               (rotationMother mult mother_ cosThetaStarProduction angle_phi)
  else if activateTHnSparseCosThStarBeam config then
    let beamVec := mkXYZ 0 0 1 in
    let cosThetaStarBeam := Dot beamVec (Vect fourVecDauCM) / sqrt (Mag2 (Vect fourVecDauCM)) in
    fillBranch s (gRandom s) mother_ mult cosThetaStarBeam angle_phi isMix_
               (rotationMother mult mother_ cosThetaStarBeam angle_phi)
  else if activateTHnSparseCosThStarRandom config then
    let '(phiRandom, g1) := Uniform 0 (2 * PI) (gRandom s) in
    let '(thetaRandom, g2) := Uniform 0 PI g1 in
    let randomVec := mkXYZ (sin thetaRandom * cos phiRandom)
                           (sin thetaRandom * sin phiRandom)
                           (cos thetaRandom) in
    let cosThetaStarRandom := Dot randomVec (Vect fourVecDauCM) / sqrt (Mag2 (Vect fourVecDauCM)) in
    fillBranch s g2 mother_ mult cosThetaStarRandom angle_phi isMix_
               (rotationMother mult mother_ cosThetaStarRandom angle_phi)
  else ([], s).

(** *** The pair loops of [processSE] and [processMEderived] *)

(** Where the body of a pair loop leaves: the [continue] that fires,
    in the order of the source, or the end of the body. *)
Inductive PairGate : Type :=
| EmptyTable
| FirstV0NotSelected
| SecondV0NotSelected
| FirstDaughtersNotSelected
| SecondDaughtersNotSelected
| IndexOrder
| SharedPosTrack
| SharedNegTrack
| AngularSeparation
| PairAccepted.

Definition set_pair (s : Members) (d1 d2 m : PxPyPzMVector) (isMix_ : bool) : Members :=
  mkMembers (multiplicity s) d1 d2 m isMix_ (rn s) (gRandom s).

Definition set_multiplicity (s : Members) (mult : R) : Members :=
  mkMembers mult (daughter1 s) (daughter2 s) (mother s) (isMix s) (rn s) (gRandom s).

(** State of the same-event loop: the locals [v0indexes] and
    [allConditionsMet], the data members, and the fills so far. *)
Record SELoop : Type := mkSELoop {
  v0indexes : list Z;
  allConditionsMet : bool;
  seMembers : Members;
  seFilled : list Fill
}.

(** Gates of the loop body of [processSE] (and of [processSEderived],
    whose body is the same text). *)
Definition seGate (collision : Collision) (V0s : list V0) (v1 v2 : V0) : PairGate :=
  if (List.length V0s =? 0)%nat || (List.length V0s =? 0)%nat then EmptyTable
  else if negb (selectionV0 collision v1) then FirstV0NotSelected
  else if negb (selectionV0 collision v2) then SecondV0NotSelected
  else
    let postrack1 := tracks (posTrackId v1) in
    let negtrack1 := tracks (negTrackId v1) in
    let postrack2 := tracks (posTrackId v2) in
    let negtrack2 := tracks (negTrackId v2) in
    let nTPCSigmaPos1 := tpcNSigmaPi postrack1 in
    let nTPCSigmaNeg1 := tpcNSigmaPi negtrack1 in
    let nTPCSigmaPos2 := tpcNSigmaPi postrack2 in
    let nTPCSigmaNeg2 := tpcNSigmaPi negtrack2 in
    if negb (isSelectedV0Daughter negtrack1 (-1) nTPCSigmaNeg1
             && isSelectedV0Daughter postrack1 1 nTPCSigmaPos1)
    then FirstDaughtersNotSelected
    else if negb (isSelectedV0Daughter postrack2 1 nTPCSigmaPos2
                  && isSelectedV0Daughter negtrack2 (-1) nTPCSigmaNeg2)
    then SecondDaughtersNotSelected
    else if (globalIndex v2 <=? globalIndex v1)%Z then IndexOrder
    else if (posTrackId v1 =? posTrackId v2)%Z then SharedPosTrack
    else if (negTrackId v1 =? negTrackId v2)%Z then SharedNegTrack
    else if negb (applyAngSep v1 v2) then AngularSeparation
    else PairAccepted.

(** [if (std::find (...) == v0indexes.end ()) v0indexes.push_back (...)] *)
Definition pushIndex (l : SELoop) (v1 : V0) : SELoop :=
  if existsb (Z.eqb (globalIndex v1)) (v0indexes l) then l
  else mkSELoop (v0indexes l ++ [globalIndex v1]) (allConditionsMet l)
                (seMembers l) (seFilled l).

Definition kshort (v : V0) : PxPyPzMVector :=
  PxPyPzMVector_of (px v) (py v) (pz v) MassK0Short.

Definition seBody (collision : Collision) (V0s : list V0) (l : SELoop) (pair : V0 * V0)
  : SELoop :=
  let '(v1, v2) := pair in
  match seGate collision V0s v1 v2 with
  | EmptyTable | FirstV0NotSelected | SecondV0NotSelected
  | FirstDaughtersNotSelected | SecondDaughtersNotSelected => l
  | IndexOrder | SharedPosTrack | SharedNegTrack | AngularSeparation => pushIndex l v1
  | PairAccepted =>
      let l1 := pushIndex l v1 in
      let d1 := kshort v1 in
      let d2 := kshort v2 in
      let m := add d1 d2 in
      let s := set_pair (seMembers l1) d1 d2 m false in
      if negb (selectTWOKsOnly config) then
        let '(fills, s') := fillInvMass s m (multiplicity s) d1 d2 false in
        mkSELoop (v0indexes l1) true s' (seFilled l1 ++ fills)
      else
        mkSELoop (v0indexes l1) true s (seFilled l1)
  end.

(** [combinations (CombinationsFullIndexPolicy (A, B))]: every row of
    [A] with every row of [B], the second index running fastest. *)
Definition combinations (A B : list V0) : list (V0 * V0) := list_prod A B.

Definition processSE (s : Members) (collision : Collision) (V0s : list V0)
  : list Fill * Members :=
  let s0 := set_multiplicity s (if cfgMultFOTM config then centFT0M collision
                                else centFT0C collision) in
  if negb (eventselection collision) then ([], s0)
  else if requireRCTFlagChecker config && negb (rctChecker collision) then ([], s0)
  else
    let l := fold_left (seBody collision V0s) (combinations V0s V0s)
                       (mkSELoop [] false s0 []) in
    let sizeofv0indexes := Z.of_nat (List.length (v0indexes l)) in
    if selectTWOKsOnly config && (sizeofv0indexes =? 2)%Z && allConditionsMet l then
      let m := seMembers l in
      let '(fills, s') :=
        fillInvMass m (mother m) (multiplicity m) (daughter1 m) (daughter2 m) false in
      (seFilled l ++ fills, s')
    else (seFilled l, seMembers l).

(** Gates of the inner loop body of [processMEderived] (the two loops
    of [processME] have the same body). *)
Definition meGate (c1 c2 : Collision) (groupV01 groupV02 : list V0) (t1 t2 : V0)
  : PairGate :=
  if (List.length groupV01 =? 0)%nat || (List.length groupV02 =? 0)%nat then EmptyTable
  else if negb (selectionV0 c1 t1) then FirstV0NotSelected
  else if negb (selectionV0 c2 t2) then SecondV0NotSelected
  else
    let postrack1 := tracks (posTrackId t1) in
    let negtrack1 := tracks (negTrackId t1) in
    let postrack2 := tracks (posTrackId t2) in
    let negtrack2 := tracks (negTrackId t2) in
    if (posTrackId t1 =? posTrackId t2)%Z then SharedPosTrack
    else if (negTrackId t1 =? negTrackId t2)%Z then SharedNegTrack
    else
      let nTPCSigmaPos1 := tpcNSigmaPi postrack1 in
      let nTPCSigmaNeg1 := tpcNSigmaPi negtrack1 in
      let nTPCSigmaPos2 := tpcNSigmaPi postrack2 in
      let nTPCSigmaNeg2 := tpcNSigmaPi negtrack2 in
      if negb (isSelectedV0Daughter postrack1 1 nTPCSigmaPos1) then FirstDaughtersNotSelected
      else if negb (isSelectedV0Daughter postrack2 1 nTPCSigmaPos2) then SecondDaughtersNotSelected
      else if negb (isSelectedV0Daughter negtrack1 (-1) nTPCSigmaNeg1) then FirstDaughtersNotSelected
      else if negb (isSelectedV0Daughter negtrack2 (-1) nTPCSigmaNeg2) then SecondDaughtersNotSelected
      else PairAccepted.

Definition meBody (c1 c2 : Collision) (groupV01 groupV02 : list V0)
           (acc : list Fill * Members) (pair : V0 * V0) : list Fill * Members :=
  let '(t1, t2) := pair in
  let '(filled, s) := acc in
  match meGate c1 c2 groupV01 groupV02 t1 t2 with
  | PairAccepted =>
      let d1 := kshort t1 in
      let d2 := kshort t2 in
      let m := add d1 d2 in
      let s1 := set_pair s d1 d2 m true in
      let '(fills, s2) := fillInvMass s1 m (multiplicity s1) d1 d2 true in
      (filled ++ fills, s2)
  | _ => acc
  end.

(** [v0s.sliceBy (tracksPerCollisionV0Mixed, c.index ())] *)
Definition sliceBy (v0s : list V0) (collisionIndex : Z) : list V0 :=
  filter (fun v => (straCollisionId v =? collisionIndex)%Z) v0s.

(** The outer loop of [processMEderived] over the pairs of collisions
    that [selfCombinations] hands out; a failed RCT check returns from
    the whole function. *)
Fixpoint mixedLoop (pairs : list (Collision * Collision)) (v0s : list V0)
         (acc : list Fill * Members) : list Fill * Members :=
  match pairs with
  | [] => acc
  | (c1, c2) :: rest =>
      let '(filled, s) := acc in
      let s1 := set_multiplicity s (centFT0M c1) in
      if negb (eventselection c1) || negb (eventselection c2) then
        mixedLoop rest v0s (filled, s1)
      else if requireRCTFlagChecker config && negb (rctChecker c1) then (filled, s1)
      else if requireRCTFlagChecker config && negb (rctChecker c2) then (filled, s1)
      else
        let groupV01 := sliceBy v0s (index c1) in
        let groupV02 := sliceBy v0s (index c2) in
        mixedLoop rest v0s
          (fold_left (meBody c1 c2 groupV01 groupV02)
                     (combinations groupV01 groupV02) (filled, s1))
  end.

(** [selfCombinations (colBinning, cfgNmixedEvents, -1, collisions,
    collisions)] is the event mixing of the framework; its result is
    taken as given. *)
Variable selfCombinations : list Collision -> list (Collision * Collision).

Definition processMEderived (s : Members) (collisions : list Collision) (v0s : list V0)
  : list Fill * Members :=
  mixedLoop (selfCombinations collisions) v0s ([], s).

(** *** Vocabulary for the statements about the pair loops *)

Definition isAccepted (g : PairGate) : bool :=
  match g with PairAccepted => true | _ => false end.

(** The pairs for which the body of the same-event loop reaches its
    end, in the order of the loop. *)
Definition sePairs (collision : Collision) (V0s : list V0) : list (V0 * V0) :=
  filter (fun pair => isAccepted (seGate collision V0s (fst pair) (snd pair)))
         (combinations V0s V0s).


(** A candidate that passes the single-candidate selection and whose
    two daughters pass the daughter selection. *)
Definition candidateAccepted (collision : Collision) (v : V0) : bool :=
  selectionV0 collision v
  && isSelectedV0Daughter (tracks (negTrackId v)) (-1) (tpcNSigmaPi (tracks (negTrackId v)))
  && isSelectedV0Daughter (tracks (posTrackId v)) 1 (tpcNSigmaPi (tracks (posTrackId v))).


(** The pairs for which the body of the mixed-event loop reaches its
    end, in the order of the loop. *)
Definition mePairs (c1 c2 : Collision) (groupV01 groupV02 : list V0) : list (V0 * V0) :=
  filter (fun pair => isAccepted (meGate c1 c2 groupV01 groupV02 (fst pair) (snd pair)))
         (combinations groupV01 groupV02).

(** What the end of a loop body does with an accepted pair: the three
    member four-vectors are set from the pair, then [fillInvMass] is
    called on them. *)
Definition fillPair (isMix_ : bool) (acc : list Fill * Members) (pair : V0 * V0)
  : list Fill * Members :=
  let '(filled, s) := acc in
  let d1 := kshort (fst pair) in
  let d2 := kshort (snd pair) in
  let m := add d1 d2 in
  let s1 := set_pair s d1 d2 m isMix_ in
  let '(fills, s2) := fillInvMass s1 m (multiplicity s1) d1 d2 isMix_ in
  (filled ++ fills, s2).

(** The member four-vectors after the pair has been set, without a fill. *)
Definition setPair (s : Members) (pair : V0 * V0) : Members :=
  let d1 := kshort (fst pair) in
  let d2 := kshort (snd pair) in
  set_pair s d1 d2 (add d1 d2) false.

(** Two candidates share a constituent daughter track. *)
Definition sharesTrack (v1 v2 : V0) : Prop :=
  posTrackId v1 = posTrackId v2 \/ negTrackId v1 = negTrackId v2
  \/ posTrackId v1 = negTrackId v2 \/ negTrackId v1 = posTrackId v2.

(** *** The workflow: [init] runs once, before the first event *)

Definition runSameEvent (s : Members) (events : list (Collision * list V0))
  : InitResult * list Fill :=
  match init with
  | Fatal msg => (Fatal msg, [])
  | Initialised info =>
      (Initialised info,
       fst (fold_left (fun acc ev =>
                         let '(fills, s') := processSE (snd acc) (fst ev) (snd ev) in
                         (fst acc ++ fills, s'))
                      events ([], s)))
  end.

End Task.

End HigherMassResonances.

(** ** [struct HfCandidateSelectorD0Alice3Barrel] *)

Module HfCandidateSelectorD0Alice3Barrel.

(** A row of [aod::HfCand2Prong]: the columns the selector reads. *)
Record Candidate : Type := mkCandidate {
  hfflag : Z;
  prong0Id : Z;
  prong1Id : Z;
  pt : R;
  p : R;
  impactParameterProduct : R;
  cpa : R;
  cpaXY : R;
  decayLength : R;
  decayLengthXY : R;
  decayLengthNormalised : R;
  decayLengthXYNormalised : R;
  impactParameterNormalised0 : R;
  impactParameterNormalised1 : R
}.

(** A row of [TracksSel], with the linked MC particle and RICH rows. *)
Record Track : Type := mkTrack {
  sign : Z;
  trackPt : R;
  trackP : R;
  dcaXY : R;
  has_mcParticle : bool;
  pdgCode : Z;
  hasTOF : bool;
  tofNSigmaPi : R;
  tofNSigmaKa : R;
  has_rich : bool;
  richNsigmaPi : R;
  richNsigmaKa : R
}.

(** A row of the produced table [aod::HfSelD0Alice3Barrel]. *)
Record HfSelD0Alice3Barrel : Type := mkRow {
  statusHFFlag : Z;
  statusD0NoPid : Z;
  statusD0PerfectPid : Z;
  statusD0TofPid : Z;
  statusD0RICHPID : Z;
  statusD0TofPlusRichPid : Z;
  statusD0barTofPlusRichPid : Z
}.

(** Number of leading edges that are not above [value]: on increasing
    edges, the position [std::upper_bound] returns. *)
Fixpoint upper_bound (edges : list R) (value : R) : nat :=
  match edges with
  | [] => O
  | e :: rest => if Rltb value e then O else S (upper_bound rest value)
  end.

(** Modelled from the spec: [findBin] (PWGHF/Core/SelectorCuts.h) is not
    among the sources.  It is the monotonic bin-edge lookup: the no-bin
    sentinel [-1] when the value falls outside the configured edges
    (below the first or not below the last), the index of the bin
    otherwise. *)
Definition findBin (binsPt : list R) (value : R) : Z :=
  match binsPt with
  | [] => (-1)%Z
  | front :: _ =>
      if Rltb value front then (-1)%Z
      else if Rgeb value (last binsPt front) then (-1)%Z
      else (Z.of_nat (upper_bound binsPt value) - 1)%Z
  end.

Section Selector.

(** Configurables *)
Variable ptCandMin ptCandMax : R.
Variable binsPt : list R.
(** [cuts->get (pTBin, label)] *)
Variable cuts : Z -> string -> R.

(** [HfHelper] and the constants of the framework headers. *)
Variable invMassD0ToPiK invMassD0barToKPi : Candidate -> R.
Variable cosThetaStarD0 cosThetaStarD0bar : Candidate -> R.
Variable MassD0 : R.
Variable D0ToPiK : Z.

(** The track table, by global index. *)
Variable tracks : Z -> Track.

(** *** [selectionTopol] *)

Definition selectionTopol (candidate : Candidate) : bool :=
  let candpT := pt candidate in
  let pTBin := findBin binsPt candpT in
  if (pTBin =? -1)%Z then false
  else if Rltb candpT ptCandMin || Rgeb candpT ptCandMax then false
  else if Rgtb (impactParameterProduct candidate) (cuts pTBin "d0d0") then false
  else if Rltb (cpa candidate) (cuts pTBin "cos pointing angle") then false
  else if Rltb (cpaXY candidate) (cuts pTBin "cos pointing angle xy") then false
  else if Rltb (decayLengthXYNormalised candidate) (cuts pTBin "normalized decay length XY")
  then false
  else if Rltb (Rabs (impactParameterNormalised0 candidate)) 0.5
          || Rltb (Rabs (impactParameterNormalised1 candidate)) 0.5
  then false
  else
    let decayLengthCut := Rmin (p candidate * 0.0066 + 0.01)
                               (cuts pTBin "minimum decay length") in
    if Rltb (decayLength candidate * decayLength candidate)
            (decayLengthCut * decayLengthCut) then false
    else if Rgtb (decayLength candidate) (cuts pTBin "decay length") then false
    else if Rgtb (decayLengthXY candidate) (cuts pTBin "decay length XY") then false
    else (* the cut on decayLengthNormalised is commented out in the source *)
      true.

(** *** [selectionTopolConjugate] *)

Definition selectionTopolConjugate (candidate : Candidate) (trackPion trackKaon : Track)
  : bool :=
  let candpT := pt candidate in
  let pTBin := findBin binsPt candpT in
  if (pTBin =? -1)%Z then false
  else if (if (sign trackPion >? 0)%Z
           then Rgtb (Rabs (invMassD0ToPiK candidate - MassD0)) (cuts pTBin "m")
           else Rgtb (Rabs (invMassD0barToKPi candidate - MassD0)) (cuts pTBin "m"))
  then false
  else if Rltb (trackPt trackPion) (cuts pTBin "pT Pi")
          || Rltb (trackPt trackKaon) (cuts pTBin "pT K")
  then false
  else if Rgtb (Rabs (dcaXY trackPion)) (cuts pTBin "d0pi")
          || Rgtb (Rabs (dcaXY trackKaon)) (cuts pTBin "d0K")
  then false
  else if (if (sign trackPion >? 0)%Z
           then Rgtb (Rabs (cosThetaStarD0 candidate)) (cuts pTBin "cos theta*")
           else Rgtb (Rabs (cosThetaStarD0bar candidate)) (cuts pTBin "cos theta*"))
  then false
  else true.

(** *** [process]: the row written for one candidate *)

Definition processCandidate (candidate : Candidate) : HfSelD0Alice3Barrel :=
  if (Z.land (hfflag candidate) (Z.shiftl 1 D0ToPiK) =? 0)%Z then
    mkRow 0 0 0 0 0 0 0
  else if negb (selectionTopol candidate) then
    mkRow 1 0 0 0 0 0 0
  else
    let trackPos := tracks (prong0Id candidate) in
    let trackNeg := tracks (prong1Id candidate) in
    let momentumPosTrack := trackP trackPos in
    let momentumNegTrack := trackP trackNeg in
    let topolD0 := selectionTopolConjugate candidate trackPos trackNeg in
    let topolD0bar := selectionTopolConjugate candidate trackNeg trackPos in
    if negb topolD0 && negb topolD0bar then
      mkRow 1 0 0 0 0 0 0
    else
      let pdgPositive := if has_mcParticle trackPos then pdgCode trackPos else 0%Z in
      let pdgNegative := if has_mcParticle trackNeg then pdgCode trackNeg else 0%Z in
      let nsigmaTOFPosPion := if hasTOF trackPos then tofNSigmaPi trackPos else -5000 in
      let nsigmaTOFPosKaon := if hasTOF trackPos then tofNSigmaKa trackPos else -5000 in
      let nsigmaTOFNegKaon := if hasTOF trackNeg then tofNSigmaKa trackNeg else -5000 in
      let nsigmaTOFNegPion := if hasTOF trackNeg then tofNSigmaPi trackNeg else -5000 in
      let nsigmaRICHPosPion := if has_rich trackPos then richNsigmaPi trackPos else -5000 in
      let nsigmaRICHPosKaon := if has_rich trackPos then richNsigmaKa trackPos else -5000 in
      let nsigmaRICHNegKaon := if has_rich trackNeg then richNsigmaKa trackNeg else -5000 in
      let nsigmaRICHNegPion := if has_rich trackNeg then richNsigmaPi trackNeg else -5000 in
      let tofPlusRich (momentum threshold : R) (rich : bool) (nsigmaTOF nsigmaRICH : R) :=
        (Rltb momentum threshold && Rltb (Rabs nsigmaTOF) 3.0)
        || (Rgtb momentum threshold && rich
            && Rltb (sqrt (nsigmaRICH * nsigmaRICH + nsigmaTOF * nsigmaTOF)) 3.0) in
      let selectPosPionTOFplusRICH :=
        tofPlusRich momentumPosTrack 0.6 (has_rich trackPos) nsigmaTOFPosPion nsigmaRICHPosPion in
      let selectNegKaonTOFplusRICH :=
        tofPlusRich momentumNegTrack 2.0 (has_rich trackNeg) nsigmaTOFNegKaon nsigmaRICHNegKaon in
      let selectNegPionTOFplusRICH :=
        tofPlusRich momentumNegTrack 0.6 (has_rich trackNeg) nsigmaTOFNegPion nsigmaRICHNegPion in
      let selectPosKaonTOFplusRICH :=
        tofPlusRich momentumPosTrack 2.0 (has_rich trackPos) nsigmaTOFPosKaon nsigmaRICHPosKaon in
      let flag (b : bool) : Z := if b then 1%Z else 0%Z in
      mkRow 1
            (flag topolD0)
            (flag (topolD0 && (pdgPositive =? 211)%Z && (pdgNegative =? -321)%Z))
            (flag (topolD0 && Rltb (Rabs nsigmaTOFPosPion) 3.0
                   && Rltb (Rabs nsigmaTOFNegKaon) 3.0))
            (flag (topolD0 && Rltb (Rabs nsigmaRICHPosPion) 3.0
                   && Rltb (Rabs nsigmaRICHNegKaon) 3.0))
            (flag (topolD0 && selectPosPionTOFplusRICH && selectNegKaonTOFplusRICH))
            (flag (topolD0bar && selectNegPionTOFplusRICH && selectPosKaonTOFplusRICH)).

Definition process (candidates : list Candidate) : list HfSelD0Alice3Barrel :=
  map processCandidate candidates.

End Selector.

End HfCandidateSelectorD0Alice3Barrel.

(** ** Concrete configurations and inputs *)

(** The default values of the configurables of [HigherMassResonances]. *)
Definition defaultConfig : HigherMassResonances.Config :=
  HigherMassResonances.mkConfig
    true      (* requireRCTFlagChecker *)
    false     (* cDCAv0topv *)
    false     (* globalTracks *)
    false     (* hasTPC *)
    true      (* selectTWOKsOnly *)
    true      (* timFrameEvsel *)
    1.0       (* confV0DCADaughMax *)
    1         (* cMaxV0DCA *)
    0         (* confV0PtMin *)
    0.97      (* confV0CPAMin *)
    0.5       (* confV0TranRadV0Min *)
    200       (* confV0TranRadV0Max *)
    15        (* cMaxV0LifeTime *)
    4         (* cSigmaMassKs0 *)
    0.005     (* cWidthKs0 *)
    0.8       (* confDaughEta *)
    70        (* confDaughTPCnclsMin *)
    5         (* confDaughPIDCuts *)
    0.5       (* confKsrapidity *)
    false     (* applyAngSepCut *)
    0.01      (* angSepCut *)
    true      (* cfgMultFOTM *)
    false     (* activateTHnSparseCosThStarHelicity *)
    false     (* activateTHnSparseCosThStarProduction *)
    true      (* activateTHnSparseCosThStarBeam *)
    false     (* activateTHnSparseCosThStarRandom *)
    3%Z       (* cRotations *)
    false     (* applyCompetingcut *)
    0.005     (* competingcascrejlambda *)
    70%Z      (* tpcCrossedrows *)
    0.8       (* tpcCrossedrowsOverfcls *)
    10%Z      (* rotationalCut *).

(** A generator whose deviates are all 1/2. *)
Definition constantHalf : GenVector.TRandom := fun _ => 1 / 2.

(** Two back-to-back daughters: momenta (1, 0, 0) and (-1, 0, 0) GeV under
    the mass hypothesis 0.4976 GeV. *)
Definition backToBackA : GenVector.PxPyPzMVector :=
  GenVector.PxPyPzMVector_of 1 0 0 0.4976.

Definition backToBackB : GenVector.PxPyPzMVector :=
  GenVector.PxPyPzMVector_of (-1) 0 0 0.4976.

(** A daughter flying backwards along the beam: momentum (0, 0, -10) GeV
    under the mass hypothesis 0.5 GeV. *)
Definition backwardDaughter : GenVector.PxPyPzMVector :=
  GenVector.PxPyPzMVector_of 0 0 (-10) 0.5.

(** Data members before the first event. *)
Definition initialMembers : HigherMassResonances.Members :=
  HigherMassResonances.mkMembers
    0 backToBackA backToBackB (GenVector.add backToBackA backToBackB) false
    constantHalf constantHalf.

(** A track table whose even rows are positive and odd rows negative. *)
Definition chargedTracks (i : Z) : HigherMassResonances.Track :=
  HigherMassResonances.mkTrack
    (if Z.even i then 1 else -1)%Z  (* sign *)
    0                               (* eta *)
    100%Z                           (* tpcNClsFound *)
    true                            (* hasTPC *)
    100%Z                           (* tpcNClsCrossedRows *)
    1                               (* tpcCrossedRowsOverFindableCls *)
    true                            (* isGlobalTrack *)
    0                               (* tpcNSigmaPi *).

(** A K0s candidate at mid-rapidity with the given global index and
    daughter tracks. *)
Definition sampleV0 (globalIndex posTrackId negTrackId : Z) : HigherMassResonances.V0 :=
  HigherMassResonances.mkV0
    globalIndex 0%Z posTrackId negTrackId
    1       (* pt *)
    1       (* v0radius *)
    0.1     (* dcaV0daughters *)
    0.99    (* v0cosPA *)
    0       (* dcav0topv *)
    0       (* yK0Short *)
    0.497   (* mK0Short *)
    1.2     (* mLambda *)
    1.2     (* mAntiLambda *)
    1 0 0   (* px, py, pz *)
    0 0     (* eta, phi *)
    (fun _ _ _ => 1).

Definition sampleCollision : HigherMassResonances.Collision :=
  HigherMassResonances.mkCollision 0%Z 10 10 0 0 0 true true true true.

(** A D0 candidate with pT = 0.5 GeV/c, below the first edge of
    [sampleBinsPt]. *)
Definition sampleBinsPt : list R := [1; 2; 4; 8].

Definition lowPtCandidate : HfCandidateSelectorD0Alice3Barrel.Candidate :=
  HfCandidateSelectorD0Alice3Barrel.mkCandidate
    1%Z 0%Z 1%Z
    0.5     (* pt *)
    1       (* p *)
    0 1 1 1 1 2 2 1 1.

Definition sampleHfTrack (i : Z) : HfCandidateSelectorD0Alice3Barrel.Track :=
  HfCandidateSelectorD0Alice3Barrel.mkTrack
    (if Z.even i then 1 else -1)%Z 1 1 0 false 0%Z true 0 0 false 0 0.

(** ** Vocabulary for further statements about [HigherMassResonances] *)

(** A stored mass that the constructor of [PxPyPzMVector] leaves as it
    is: non-negative, or negative and not beyond the momentum. *)
Definition keptMass (v : GenVector.PxPyPzMVector) : Prop :=
  0 <= GenVector.M v \/ GenVector.M v * GenVector.M v <= GenVector.P2 v.

(** The reference-axis branch [fillInvMass] takes: the first enabled flag
    in the order of its [if ... else if ...] chain. *)
Inductive Policy : Type :=
| Helicity
| Production
| Beam
| Random.

Definition activePolicy (config : HigherMassResonances.Config) : option Policy :=
  if HigherMassResonances.activateTHnSparseCosThStarHelicity config then Some Helicity
  else if HigherMassResonances.activateTHnSparseCosThStarProduction config then Some Production
  else if HigherMassResonances.activateTHnSparseCosThStarBeam config then Some Beam
  else if HigherMassResonances.activateTHnSparseCosThStarRandom config then Some Random
  else None.

(** The entry [f] moved to the histogram [h]. *)
Definition inHistogram (h : HigherMassResonances.Histogram) (f : HigherMassResonances.Fill)
  : HigherMassResonances.Fill :=
  HigherMassResonances.mkFill
    h (HigherMassResonances.fMultiplicity f) (HigherMassResonances.fPt f)
    (HigherMassResonances.fMass f) (HigherMassResonances.fCosThetaStar f)
    (HigherMassResonances.fPhi f).

(** The default configuration with the random-axis THnSparse switched on
    beside the beam-axis one. *)
Definition defaultConfigWithRandom : HigherMassResonances.Config :=
  HigherMassResonances.mkConfig
    true false false false true true 1.0 1 0 0.97 0.5 200 15 4 0.005 0.8 70 5 0.5
    false 0.01 true
    false     (* activateTHnSparseCosThStarHelicity *)
    false     (* activateTHnSparseCosThStarProduction *)
    true      (* activateTHnSparseCosThStarBeam *)
    true      (* activateTHnSparseCosThStarRandom *)
    3%Z false 0.005 70%Z 0.8 10%Z.

(** A composite moving along x and a daughter moving along y. *)
Definition movingMother : GenVector.PxPyPzMVector := GenVector.mkPxPyPzMraw 3 0 0 4.

Definition sidewaysDaughter : GenVector.PxPyPzMVector := GenVector.mkPxPyPzMraw 0 1 0 0.5.

(** ** [struct HigherMassResonances]: the remaining parts of the pair loops *)

Module HigherMassResonancesLoops.
Import GenVector HigherMassResonances.

Section Loops.

Variable config : Config.
Variable MassK0Short MassLambda0 : R.
Variable tracks : Z -> Track.

(** [int sizeofv0indexes = v0indexes.size ()], the value that [processSE]
    fills into [NksProduced] once the event has passed the event
    selection and the RCT check. *)
Definition sizeofv0indexes (s : Members) (collision : Collision) (V0s : list V0) : Z :=
  let s0 := set_multiplicity s (if cfgMultFOTM config then centFT0M collision
                                else centFT0C collision) in
  Z.of_nat
    (List.length
       (v0indexes
          (fold_left (seBody config MassK0Short MassLambda0 tracks collision V0s)
                     (combinations V0s V0s) (mkSELoop [] false s0 [])))).

(** The loop of [processME] taken when [cfgMultFOTM] is set: pairs of
    collisions with their V0 tables as [SameKindPair] hands them out
    ([pair2]); a failed RCT check returns from the function. *)
Fixpoint mixedLoopFT0M (pairs : list (Collision * list V0 * (Collision * list V0)))
         (acc : list Fill * Members) : list Fill * Members :=
  match pairs with
  | [] => acc
  | ((c1, tracks1), (c2, tracks2)) :: rest =>
      let '(filled, s) := acc in
      let s1 := set_multiplicity s (centFT0M c1) in
      if negb (eventselection config c1) || negb (eventselection config c2) then
        mixedLoopFT0M rest (filled, s1)
      else if requireRCTFlagChecker config && negb (rctChecker c1) then (filled, s1)
      else if requireRCTFlagChecker config && negb (rctChecker c2) then (filled, s1)
      else
        mixedLoopFT0M rest
          (fold_left (meBody config MassK0Short MassLambda0 tracks c1 c2 tracks1 tracks2)
                     (combinations tracks1 tracks2) (filled, s1))
  end.

(** The loop of [processME] taken otherwise ([pair1]): the multiplicity
    is [centFT0C] and there is no RCT check. *)
Fixpoint mixedLoopFT0C (pairs : list (Collision * list V0 * (Collision * list V0)))
         (acc : list Fill * Members) : list Fill * Members :=
  match pairs with
  | [] => acc
  | ((c1, tracks1), (c2, tracks2)) :: rest =>
      let '(filled, s) := acc in
      let s1 := set_multiplicity s (centFT0C c1) in
      if negb (eventselection config c1) || negb (eventselection config c2) then
        mixedLoopFT0C rest (filled, s1)
      else
        mixedLoopFT0C rest
          (fold_left (meBody config MassK0Short MassLambda0 tracks c1 c2 tracks1 tracks2)
                     (combinations tracks1 tracks2) (filled, s1))
  end.

(** [processME]; [pair1] and [pair2] are the two [SameKindPair] mixers of
    the framework, binned on [centFT0C] and on [centFT0M]. *)
Definition processME (s : Members)
           (pair1 pair2 : list (Collision * list V0 * (Collision * list V0)))
  : list Fill * Members :=
  if cfgMultFOTM config then mixedLoopFT0M pair2 ([], s)
  else mixedLoopFT0C pair1 ([], s).

End Loops.

(** [v0indexes] with the index [i] pushed unless it is there. *)
Definition pushList (i : Z) (idx : list Z) : list Z :=
  if existsb (Z.eqb i) idx then idx else idx ++ [i].

(** The gates that come after the bookkeeping of [v0indexes]. *)
Definition afterIndex (g : PairGate) : bool :=
  match g with
  | EmptyTable | FirstV0NotSelected | SecondV0NotSelected
  | FirstDaughtersNotSelected | SecondDaughtersNotSelected => false
  | _ => true
  end.

End HigherMassResonancesLoops.

(** A collision that passes the event selection and fails the RCT check. *)
Definition rctRejectedCollision : HigherMassResonances.Collision :=
  HigherMassResonances.mkCollision 1%Z 10 10 0 0 0 true true true false.

(** What the event mixing keeps true of the entries recorded so far and
    of the data members, [s] being the data members at its start: all
    entries are mixed-event entries and the generator [rn] is untouched. *)
Definition onlyME (s : HigherMassResonances.Members)
           (acc : list HigherMassResonances.Fill * HigherMassResonances.Members) : Prop :=
  Forall (fun f => HigherMassResonances.hist f = HigherMassResonances.h3glueInvMassME)
         (fst acc)
  /\ HigherMassResonances.rn (snd acc) = HigherMassResonances.rn s.

(** A track table without TOF and RICH information, and one whose tracks
    have the momentum 2.0 GeV/c of the kaon threshold, with TOF and RICH
    responses at 0 sigma. *)
Definition noTofTrack (i : Z) : HfCandidateSelectorD0Alice3Barrel.Track :=
  HfCandidateSelectorD0Alice3Barrel.mkTrack
    (if Z.even i then 1 else -1)%Z 1 1 0 false 0%Z false 0 0 false 0 0.

Definition kaonThresholdTrack (i : Z) : HfCandidateSelectorD0Alice3Barrel.Track :=
  HfCandidateSelectorD0Alice3Barrel.mkTrack
    (if Z.even i then 1 else -1)%Z 1 2.0 0 false 0%Z true 0 0 true 0 0.

(** A D0 candidate with pT 1 GeV/c that passes the topological selection
    when every cut value is 1, and that cut table. *)
Definition selectedCandidate : HfCandidateSelectorD0Alice3Barrel.Candidate :=
  HfCandidateSelectorD0Alice3Barrel.mkCandidate
    1%Z 0%Z 1%Z
    1       (* pt *)
    1       (* p *)
    0 1 1 1 1 2 2 1 1.

Definition unitCuts : Z -> string -> R := fun _ _ => 1.

(** ** [struct HigherMassResonances]: the Monte-Carlo process functions

    [processGen] and [processRec] fill the registry [hMChists].  The
    embedded output is its four THnSparses; the one-dimensional
    histograms ([Genf1710_mass], [GenRapidity], [RecPhi], ...) are filled
    at the same places as the THnSparse of the same block, and the
    cut-flow counters [events_check] and [events_checkrec] never feed
    back into the control flow.  The counter [eventCounter], which
    [processRec] increments and nothing reads, is not part of the state. *)

Module HigherMassResonancesMC.
Import GenVector.

(** The configurables of the [config] group that only the Monte-Carlo
    functions read. *)
Record ConfigMC : Type := mkConfigMC {
  isMC : bool;
  cutzvertex : R;
  allGenCollisions : bool;
  cTVXEvsel : bool;
  selectMCparticles : Z;
  apply_rapidityMC : bool;
  applyPairRapidityRec : bool;
  applyPairRapidityGen : bool
}.

(** [std::vector<int> pdgCodes] of the [config] group. *)
Definition pdgCodes : list Z := [10331; 335; 115; 10221; 9030221]%Z.

(** A row of [aod::McParticles]: the columns the task reads. *)
Record McParticle : Type := mkMcParticle {
  globalIndex : Z;
  pdgCode : Z;
  px : R;
  py : R;
  pz : R;
  e : R;
  pt : R;
  eta : R;
  phi : R;
  y : R;
  isPhysicalPrimary : bool;
  producedByGenerator : bool
}.

(** A generated particle with the rows [daughters_as<aod::McParticles>()]
    returns, in their order. *)
Record GenParticle : Type := mkGenParticle {
  particle : McParticle;
  daughters : list McParticle
}.

(** A row of [aod::McCollisions]. *)
Record McCollision : Type := mkMcCollision {
  mcGlobalIndex : Z;
  mcPosZ : R
}.

(** A row of [EventCandidatesMC]: the collision columns, the label
    [has_mcCollision] with the row [mcCollision()] returns, and the
    selection bit [kIsTriggerTVX]. *)
Record CollisionMC : Type := mkCollisionMC {
  collisionRow : HigherMassResonances.Collision;
  has_mcCollision : bool;
  mcCollision : McCollision;
  kIsTriggerTVX : bool
}.

(** A row of [V0TrackCandidatesMC]: the V0 columns, its [index()], the
    label [has_mcParticle] with the row [mcParticle()] returns, and the
    rows [mothers_as<aod::McParticles>()] of that particle returns, in
    their order. *)
Record V0MC : Type := mkV0MC {
  v0Row : HigherMassResonances.V0;
  index : Z;
  has_mcParticle : bool;
  mcParticle : McParticle;
  mothers : list McParticle
}.

(** An entry of one of the four THnSparses of [hMChists]. *)
Inductive FillMC : Type :=
| Genf1710 (multiplicityGen pT helicity_gen : R)
| Genf17102 (multiplicityGen pT helicity_gen1 : R)
| Recf1710_pt1 (multiplicity pT mass helicity_rec2 : R)
| Recf1710_pt2 (multiplicity pT mass helicity_rec : R).

Definition isGenf1710 (f : FillMC) : bool :=
  match f with Genf1710 _ _ _ => true | _ => false end.
Definition isGenf17102 (f : FillMC) : bool :=
  match f with Genf17102 _ _ _ => true | _ => false end.
Definition isRecf1710_pt1 (f : FillMC) : bool :=
  match f with Recf1710_pt1 _ _ _ _ => true | _ => false end.
Definition isRecf1710_pt2 (f : FillMC) : bool :=
  match f with Recf1710_pt2 _ _ _ _ => true | _ => false end.

(** The data members the two functions read back after writing them in
    an earlier turn of a loop or an earlier call: the daughter
    four-vectors, [passKs], [multiplicityGen], [gindex1] and [gindex2].
    The other members they write ([mother], [mother1], [lResonance_gen],
    [lResonance_gen1], [fourVecDauCM], [fourVecDauCM1]) are written
    before every read. *)
Record MembersMC : Type := mkMembersMC {
  daughter1 : PxPyPzMVector;
  daughter2 : PxPyPzMVector;
  passKs : list bool;
  multiplicityGen : R;
  gindex1 : list Z;
  gindex2 : list Z
}.

Definition set_daughter1 (s : MembersMC) (d : PxPyPzMVector) : MembersMC :=
  mkMembersMC d (daughter2 s) (passKs s) (multiplicityGen s) (gindex1 s) (gindex2 s).
Definition set_daughter2 (s : MembersMC) (d : PxPyPzMVector) : MembersMC :=
  mkMembersMC (daughter1 s) d (passKs s) (multiplicityGen s) (gindex1 s) (gindex2 s).
Definition set_passKs (s : MembersMC) (l : list bool) : MembersMC :=
  mkMembersMC (daughter1 s) (daughter2 s) l (multiplicityGen s) (gindex1 s) (gindex2 s).
Definition set_multiplicityGen (s : MembersMC) (m : R) : MembersMC :=
  mkMembersMC (daughter1 s) (daughter2 s) (passKs s) m (gindex1 s) (gindex2 s).
Definition set_gindex1 (s : MembersMC) (l : list Z) : MembersMC :=
  mkMembersMC (daughter1 s) (daughter2 s) (passKs s) (multiplicityGen s) l (gindex2 s).
Definition set_gindex2 (s : MembersMC) (l : list Z) : MembersMC :=
  mkMembersMC (daughter1 s) (daughter2 s) (passKs s) (multiplicityGen s) (gindex1 s) l.

(** [PxPyPzE4D::Pt()] *)
Definition ePt (v : PxPyPzEVector) : R := sqrt (ePx v * ePx v + ePy v * ePy v).

(** [PxPyPzE4D::P()] *)
Definition eP (v : PxPyPzEVector) : R :=
  sqrt (ePx v * ePx v + ePy v * ePy v + ePz v * ePz v).

(** [BoostToCM()] of a [PxPyPzEVector]. *)
Definition eBoostToCM (v : PxPyPzEVector) : XYZVector :=
  if Reqb (eE v) 0 then
    if Reqb (eP v) 0 then mkXYZ 0 0 0 else neg (eVect v)
  else scale (/ eE v) (neg (eVect v)).

(** A computation that is undefined ([None]) once it reads [pdgCodes]
    beyond its end. *)
Definition bind {A B : Type} (m : option A) (f : A -> option B) : option B :=
  match m with
  | None => None
  | Some a => f a
  end.

Section TaskMC.

Variable config : HigherMassResonances.Config.
Variable configMC : ConfigMC.
Variable MassK0Short : R.
Variable MassLambda0 : R.

(** The joined track table, by global index, and its label column
    [has_mcParticle] of [aod::McTrackLabels]. *)
Variable tracks : Z -> HigherMassResonances.Track.
Variable trackHasMcParticle : Z -> bool.

(** [config.pdgCodes[config.selectMCparticles]]: the subscript of a
    [std::vector] is not checked, and a read outside the five entries is
    undefined. *)
Definition selectedPdg : option Z :=
  if (selectMCparticles configMC <? 0)%Z then None
  else nth_error pdgCodes (Z.to_nat (selectMCparticles configMC)).

(** *** [processGen] *)

(** Body of the loop over the reconstructed collisions: [true] when the
    collision is entered into [selectedEvents]. *)
Definition genCollisionSelected (collision : CollisionMC) : bool :=
  if Rgtb (Rabs (mcPosZ (mcCollision collision))) (cutzvertex configMC) then false
  else if HigherMassResonances.timFrameEvsel config
          && negb (HigherMassResonances.kNoTimeFrameBorder (collisionRow collision))
  then false
  else if cTVXEvsel configMC && negb (kIsTriggerTVX collision) then false
  else true.

(** The loop over the reconstructed collisions: [multiplicityGen] and
    [selectedEvents] after it. *)
Definition genCollisionLoop (collisions : list CollisionMC) : R * list Z :=
  fold_left (fun acc collision =>
               if genCollisionSelected collision then
                 (HigherMassResonances.centFT0M (collisionRow collision),
                  snd acc ++ [mcGlobalIndex (mcCollision collision)])
               else acc)
            collisions (0, []).

(** Body of the loop over the two daughters. *)
Definition genDaughter (s : MembersMC) (kCurrentDaughter : McParticle) : MembersMC :=
  if negb (isPhysicalPrimary kCurrentDaughter) then s
  else if (Z.abs (pdgCode kCurrentDaughter) =? 310)%Z then
    let s1 := set_passKs s (passKs s ++ [true]) in
    let k := PxPyPzMVector_of (px kCurrentDaughter) (py kCurrentDaughter)
                              (pz kCurrentDaughter) MassK0Short in
    if (List.length (passKs s1) =? 1)%nat then set_daughter1 s1 k
    else if (List.length (passKs s1) =? 2)%nat then set_daughter2 s1 k
    else s1
  else s.

(** Body of the loop over the generated particles.  The cut switched on
    by [applyPairRapidityGen] tests [lResonance_gen1.Y ()], which on a
    [LorentzVector] is the y component of the momentum ([Rapidity ()] is
    the rapidity); its [continue] leaves the body before
    [passKs.clear ()]. *)
Definition genBody (s : MembersMC) (p : GenParticle)
  : option (list FillMC * MembersMC) :=
  let mcParticle_ := particle p in
  bind selectedPdg (fun code =>
    if negb (Z.abs (pdgCode mcParticle_) =? code)%Z then Some ([], s)
    else if apply_rapidityMC configMC && Rgeb (Rabs (y mcParticle_)) 0.5 then Some ([], s)
    else if negb (List.length (daughters p) =? 2)%nat then Some ([], s)
    else
      let s1 := fold_left genDaughter (daughters p) s in
      if (List.length (passKs s1) =? 2)%nat then
        let lResonance_gen :=
          mkPxPyPzE (pt mcParticle_) (eta mcParticle_) (phi mcParticle_) (e mcParticle_) in
        let lResonance_gen1 := add (daughter1 s1) (daughter2 s1) in
        let boost := Boost_of (eBoostToCM lResonance_gen) in
        let boost1 := Boost_of (BoostToCM lResonance_gen1) in
        let fourVecDauCM := applyM boost (daughter1 s1) in
        let fourVecDauCM1 := applyM boost1 (daughter1 s1) in
        let helicity_gen :=
          HigherMassResonances.cosBetween (eVect lResonance_gen) (Vect fourVecDauCM) in
        let helicity_gen1 :=
          HigherMassResonances.cosBetween (Vect lResonance_gen1) (Vect fourVecDauCM1) in
        let first := Genf1710 (multiplicityGen s1) (ePt lResonance_gen) helicity_gen in
        if applyPairRapidityGen configMC && Rgeb (Rabs (Py lResonance_gen1)) 0.5
        then Some ([first], s1)
        else Some ([first; Genf17102 (multiplicityGen s1) (Pt lResonance_gen1) helicity_gen1],
                   set_passKs s1 [])
      else Some ([], set_passKs s1 [])).

Definition genLoop (s : MembersMC) (mcParticles : list GenParticle)
  : option (list FillMC * MembersMC) :=
  fold_left (fun acc p =>
               bind acc (fun '(filled, s1) =>
               bind (genBody s1 p) (fun '(fills, s2) => Some (filled ++ fills, s2))))
            mcParticles (Some ([], s)).

Definition processGen (s : MembersMC) (mcCollision_ : McCollision)
           (mcParticles : list GenParticle) (collisions : list CollisionMC)
  : option (list FillMC * MembersMC) :=
  if negb (isMC configMC) then Some ([], s)
  else
    let '(multiplicityGen_, selectedEvents) := genCollisionLoop collisions in
    let s0 := set_multiplicityGen s multiplicityGen_ in
    let evtReconstructedAndSelected :=
      existsb (Z.eqb (mcGlobalIndex mcCollision_)) selectedEvents in
    if negb (allGenCollisions configMC) && negb evtReconstructedAndSelected then Some ([], s0)
    else genLoop s0 mcParticles.

(** *** [processRec] *)

(** The [continue]s of the pair loop before the loops over the mothers:
    [true] when none of them fires. *)
Definition recGate (collision : CollisionMC) (v01 v02 : V0MC) : bool :=
  if (index v02 <=? index v01)%Z then false
  else if negb (has_mcParticle v01) || negb (has_mcParticle v02) then false
  else
    let postrack1 := HigherMassResonances.posTrackId (v0Row v01) in
    let negtrack1 := HigherMassResonances.negTrackId (v0Row v01) in
    let postrack2 := HigherMassResonances.posTrackId (v0Row v02) in
    let negtrack2 := HigherMassResonances.negTrackId (v0Row v02) in
    if negb (trackHasMcParticle postrack1) || negb (trackHasMcParticle postrack2) then false
    else if negb (trackHasMcParticle negtrack1) || negb (trackHasMcParticle negtrack2)
    then false
    else
      let nTPCSigmaPos1 := HigherMassResonances.tpcNSigmaPi (tracks postrack1) in
      let nTPCSigmaNeg1 := HigherMassResonances.tpcNSigmaPi (tracks negtrack1) in
      let nTPCSigmaPos2 := HigherMassResonances.tpcNSigmaPi (tracks postrack2) in
      let nTPCSigmaNeg2 := HigherMassResonances.tpcNSigmaPi (tracks negtrack2) in
      if negb (HigherMassResonances.isSelectedV0Daughter config (tracks postrack1) 1
                                                         nTPCSigmaPos1)
         || negb (HigherMassResonances.isSelectedV0Daughter config (tracks postrack2) 1
                                                            nTPCSigmaPos2)
      then false
      else if negb (HigherMassResonances.isSelectedV0Daughter config (tracks negtrack1) (-1)
                                                              nTPCSigmaNeg1)
              || negb (HigherMassResonances.isSelectedV0Daughter config (tracks negtrack2)
                                                                 (-1) nTPCSigmaNeg2)
      then false
      else if negb (HigherMassResonances.selectionV0 config MassK0Short MassLambda0
                                                     (collisionRow collision) (v0Row v01))
              || negb (HigherMassResonances.selectionV0 config MassK0Short MassLambda0
                                                        (collisionRow collision) (v0Row v02))
      then false
      else
        let trackv0PDG1 := Z.abs (pdgCode (mcParticle v01)) in
        let trackv0PDG2 := Z.abs (pdgCode (mcParticle v02)) in
        if negb (Z.abs trackv0PDG1 =? 310)%Z || negb (Z.abs trackv0PDG2 =? 310)%Z then false
        else true.

(** [g.push_back (i); if (g.size () > 1) { if (std::find (g.begin (),
    g.end (), i) != g.end ()) continue; }]: the vector after the
    [push_back], and whether the [continue] fires. *)
Definition pushAndFind (g : list Z) (i : Z) : list Z * bool :=
  let g1 := g ++ [i] in
  (g1, (1 <? List.length g1)%nat && existsb (Z.eqb i) g1).

(** The four-vectors and the entries of the innermost block.  The cut
    switched on by [applyPairRapidityRec] tests [mother.Y ()], the y
    component of the momentum of the pair. *)
Definition recEntries (multiplicity_ : R) (v01 v02 : V0MC) (mothertrack1 : McParticle)
  : PxPyPzMVector * PxPyPzMVector * list FillMC :=
  let daughter1_ := HigherMassResonances.kshort MassK0Short (v0Row v01) in
  let daughter2_ := HigherMassResonances.kshort MassK0Short (v0Row v02) in
  let mother := add daughter1_ daughter2_ in
  let mother1 := mkPxPyPzE (px mothertrack1) (py mothertrack1) (pz mothertrack1)
                           (e mothertrack1) in
  let boost := Boost_of (BoostToCM mother) in
  let boost1 := Boost_of (eBoostToCM mother1) in
  let fourVecDauCM := applyM boost daughter1_ in
  let fourVecDauCM1 := applyM boost1 daughter1_ in
  let helicity_rec := HigherMassResonances.cosBetween (Vect mother) (Vect fourVecDauCM) in
  let helicity_rec2 := HigherMassResonances.cosBetween (eVect mother1) (Vect fourVecDauCM1) in
  let first := Recf1710_pt1 multiplicity_ (pt mothertrack1) (eM mother1) helicity_rec2 in
  (daughter1_, daughter2_,
   if applyPairRapidityRec configMC && Rgeb (Rabs (Py mother)) 0.5 then [first]
   else [first; Recf1710_pt2 multiplicity_ (Pt mother) (M mother) helicity_rec]).

(** Body of the loop over the mothers of the second V0. *)
Definition recMother2 (multiplicity_ : R) (v01 v02 : V0MC) (mothertrack1 : McParticle)
           (acc : list FillMC * MembersMC) (mothertrack2 : McParticle)
  : option (list FillMC * MembersMC) :=
  let '(filled, s) := acc in
  bind selectedPdg (fun code =>
    if negb (pdgCode mothertrack1 =? code)%Z then Some (filled, s)
    else if negb (pdgCode mothertrack1 =? pdgCode mothertrack2)%Z then Some (filled, s)
    else
      let '(g2, found) := pushAndFind (gindex2 s) (globalIndex mothertrack2) in
      let s1 := set_gindex2 s g2 in
      if found then Some (filled, s1)
      else if negb (globalIndex mothertrack1 =? globalIndex mothertrack2)%Z
      then Some (filled, s1)
      else if negb (producedByGenerator mothertrack1) then Some (filled, s1)
      else if apply_rapidityMC configMC && Rgeb (Rabs (y mothertrack1)) 0.5
      then Some (filled, s1)
      else
        let '(daughter1_, daughter2_, fills) :=
          recEntries multiplicity_ v01 v02 mothertrack1 in
        Some (filled ++ fills, set_daughter2 (set_daughter1 s1 daughter1_) daughter2_)).

(** The loop over the mothers [ms] of the second V0. *)
Definition recMother2Loop (multiplicity_ : R) (v01 v02 : V0MC) (mothertrack1 : McParticle)
           (ms : list McParticle) (a : option (list FillMC * MembersMC))
  : option (list FillMC * MembersMC) :=
  fold_left (fun a mothertrack2 =>
               bind a (fun a' =>
                         recMother2 multiplicity_ v01 v02 mothertrack1 a' mothertrack2))
            ms a.

(** Body of the loop over the mothers of the first V0; [gindex2.clear ()]
    is its last statement. *)
Definition recMother1 (multiplicity_ : R) (v01 v02 : V0MC)
           (acc : list FillMC * MembersMC) (mothertrack1 : McParticle)
  : option (list FillMC * MembersMC) :=
  let '(filled, s) := acc in
  let '(g1, found) := pushAndFind (gindex1 s) (globalIndex mothertrack1) in
  let s1 := set_gindex1 s g1 in
  if found then Some (filled, s1)
  else
    bind (recMother2Loop multiplicity_ v01 v02 mothertrack1 (mothers v02)
                         (Some (filled, s1)))
         (fun '(filled', s2) => Some (filled', set_gindex2 s2 [])).

(** The loop over the mothers [ms] of the first V0. *)
Definition recMother1Loop (multiplicity_ : R) (v01 v02 : V0MC)
           (ms : list McParticle) (a : option (list FillMC * MembersMC))
  : option (list FillMC * MembersMC) :=
  fold_left (fun a mothertrack1 =>
               bind a (fun a' => recMother1 multiplicity_ v01 v02 a' mothertrack1))
            ms a.

(** Body of the pair loop; [gindex1.clear ()] is its last statement. *)
Definition recPair (collision : CollisionMC) (acc : list FillMC * MembersMC)
           (v01 v02 : V0MC) : option (list FillMC * MembersMC) :=
  if recGate collision v01 v02 then
    bind (recMother1Loop (HigherMassResonances.centFT0M (collisionRow collision))
                         v01 v02 (mothers v01) (Some acc))
         (fun '(filled', s') => Some (filled', set_gindex1 s' []))
  else Some acc.

Definition processRec (s : MembersMC) (collision : CollisionMC) (V0s : list V0MC)
  : option (list FillMC * MembersMC) :=
  if negb (isMC configMC) then Some ([], s)
  else if negb (has_mcCollision collision) then Some ([], s)
  else if Rgtb (Rabs (mcPosZ (mcCollision collision))) (cutzvertex configMC) then Some ([], s)
  else if negb (HigherMassResonances.sel8 (collisionRow collision)) then Some ([], s)
  else
    fold_left (fun a v01 =>
                 fold_left (fun a' v02 =>
                              bind a' (fun acc => recPair collision acc v01 v02))
                           V0s a)
              V0s (Some ([], s)).

(** *** Vocabulary for statements about the two functions *)

(** The event cuts of [processRec]. *)
Definition recEventSelected (collision : CollisionMC) : bool :=
  isMC configMC && has_mcCollision collision
  && negb (Rgtb (Rabs (mcPosZ (mcCollision collision))) (cutzvertex configMC))
  && HigherMassResonances.sel8 (collisionRow collision).

(** The cuts of the innermost loop body of [processRec] that follow the
    bookkeeping of [gindex2]. *)
Definition recMotherAccepted (mothertrack1 mothertrack2 : McParticle) : bool :=
  (globalIndex mothertrack1 =? globalIndex mothertrack2)%Z
  && producedByGenerator mothertrack1
  && negb (apply_rapidityMC configMC && Rgeb (Rabs (y mothertrack1)) 0.5).

(** What the loop over the mothers [ms] of the second V0 records when it
    starts with an empty [gindex2]: nothing unless [mothertrack1] has
    the code [code]; then the first of [ms] with the same code decides,
    and the entries are recorded when it passes [recMotherAccepted]. *)
Definition recMotherEntries (code : Z) (multiplicity_ : R) (v01 v02 : V0MC)
           (mothertrack1 : McParticle) (ms : list McParticle) : list FillMC :=
  if negb (pdgCode mothertrack1 =? code)%Z then []
  else
    match find (fun mothertrack2 => (pdgCode mothertrack1 =? pdgCode mothertrack2)%Z) ms with
    | None => []
    | Some mothertrack2 =>
        if recMotherAccepted mothertrack1 mothertrack2
        then snd (recEntries multiplicity_ v01 v02 mothertrack1)
        else []
    end.

(** What a pair of V0s records: the entries of the first mother of the
    first V0, when the pair passes [recGate]. *)
Definition recPairEntries (code : Z) (collision : CollisionMC) (v01 v02 : V0MC)
  : list FillMC :=
  if recGate collision v01 v02 then
    match mothers v01 with
    | [] => []
    | mothertrack1 :: _ =>
        recMotherEntries code (HigherMassResonances.centFT0M (collisionRow collision))
                         v01 v02 mothertrack1 (mothers v02)
    end
  else [].

(** The V0 [v] with only the first of its mothers. *)
Definition firstMotherOnly (v : V0MC) : V0MC :=
  mkV0MC (v0Row v) (index v) (has_mcParticle v) (mcParticle v) (firstn 1 (mothers v)).

(** A daughter that [processGen] enters in [passKs]: a physical primary
    K0s. *)
Definition primaryKs (d : McParticle) : bool :=
  isPhysicalPrimary d && (Z.abs (pdgCode d) =? 310)%Z.

(** A generated particle that passes the cuts of [processGen]: the code
    [code], the rapidity cut, and two daughters that are both physical
    primary K0s. *)
Definition genSelected (code : Z) (p : GenParticle) : bool :=
  (Z.abs (pdgCode (particle p)) =? code)%Z
  && negb (apply_rapidityMC configMC && Rgeb (Rabs (y (particle p))) 0.5)
  && (List.length (daughters p) =? 2)%nat
  && forallb primaryKs (daughters p).

(** The generated collision is processed: the task runs on Monte Carlo,
    and all generated collisions are asked for or a reconstructed
    collision of this generated collision is selected. *)
Definition genEventAccepted (mcCollision_ : McCollision) (collisions : list CollisionMC)
  : bool :=
  isMC configMC
  && (allGenCollisions configMC
      || existsb (fun collision =>
                    genCollisionSelected collision
                    && (mcGlobalIndex mcCollision_
                        =? mcGlobalIndex (mcCollision collision))%Z)
                 collisions).

(** The multiplicity of a recorded entry. *)
Definition fillMultiplicity (f : FillMC) : R :=
  match f with
  | Genf1710 m _ _ | Genf17102 m _ _ | Recf1710_pt1 m _ _ _ | Recf1710_pt2 m _ _ _ => m
  end.

End TaskMC.

End HigherMassResonancesMC.

(** Inputs for the Monte-Carlo functions: the default configurables with
    [isMC] on (f2(1525) selected), the same with the cut on the pair
    rapidity of the generated K0s, and empty data members. *)
Definition sampleConfigMC : HigherMassResonancesMC.ConfigMC :=
  HigherMassResonancesMC.mkConfigMC
    true      (* isMC *)
    10        (* cutzvertex *)
    true      (* allGenCollisions *)
    true      (* cTVXEvsel *)
    1%Z       (* selectMCparticles *)
    true      (* apply_rapidityMC *)
    false     (* applyPairRapidityRec *)
    false     (* applyPairRapidityGen *).

Definition pairCutConfigMC : HigherMassResonancesMC.ConfigMC :=
  HigherMassResonancesMC.mkConfigMC true 10 true true 1%Z true false true.

Definition initialMembersMC : HigherMassResonancesMC.MembersMC :=
  HigherMassResonancesMC.mkMembersMC backToBackA backToBackB [] 0 [] [].

Definition sampleCollisionMC : HigherMassResonancesMC.CollisionMC :=
  HigherMassResonancesMC.mkCollisionMC
    sampleCollision true (HigherMassResonancesMC.mkMcCollision 0%Z 0) true.

(** A generated f2(1525) at rest with two primary K0s of momentum
    (0, 0, 4) GeV/c each. *)
Definition forwardKs : HigherMassResonancesMC.McParticle :=
  HigherMassResonancesMC.mkMcParticle
    1%Z 310%Z
    0 0 4 5   (* px, py, pz, e *)
    0 0 0 0   (* pt, eta, phi, y *)
    true true.

Definition sampleResonance : HigherMassResonancesMC.GenParticle :=
  HigherMassResonancesMC.mkGenParticle
    (HigherMassResonancesMC.mkMcParticle 0%Z 335%Z 0 0 0 1.525 0 0 0 0 false true)
    [forwardKs; forwardKs].

(** A generated f2(1525) of momentum (0, 2, 0) GeV/c with two primary
    K0s of momentum (0, 1, 0) GeV/c each. *)
Definition sidewaysKs : HigherMassResonancesMC.McParticle :=
  HigherMassResonancesMC.mkMcParticle
    3%Z 310%Z
    0 1 0 1.117   (* px, py, pz, e *)
    1 0 (PI / 2) 0   (* pt, eta, phi, y *)
    true true.

Definition sidewaysResonance : HigherMassResonancesMC.GenParticle :=
  HigherMassResonancesMC.mkGenParticle
    (HigherMassResonancesMC.mkMcParticle 2%Z 335%Z 0 2 0 2.515 2 0 (PI / 2) 0 false true)
    [sidewaysKs; sidewaysKs].

(** A reconstructed V0 matched to a K0s with two mothers. *)
Definition sampleV0MC (i : Z) : HigherMassResonancesMC.V0MC :=
  HigherMassResonancesMC.mkV0MC
    (sampleV0 i (2 * i + 2) (2 * i + 3)) i true forwardKs
    [HigherMassResonancesMC.particle sampleResonance; forwardKs].

(** ** Vocabulary for the statement on recorded same-event pairs *)

(** The composite of a pair of candidates under the mass hypothesis. *)
Definition pairMother (MassK0Short : R) (pair : HigherMassResonances.V0 * HigherMassResonances.V0)
  : GenVector.PxPyPzMVector :=
  GenVector.add (HigherMassResonances.kshort MassK0Short (fst pair))
                (HigherMassResonances.kshort MassK0Short (snd pair)).

(** The absolute rapidity of the composite of the pair is below 0.5. *)
Definition centralPair (MassK0Short : R)
           (pair : HigherMassResonances.V0 * HigherMassResonances.V0) : bool :=
  Rltb (Rabs (GenVector.Rapidity (pairMother MassK0Short pair))) 0.5.

(** [f] is the entry of [h3glueInvMassDS] for the pair: the multiplicity
    of the event, pT and mass of the composite, some cosThetaStar, and
    the azimuthal angle of the first daughter. *)
Definition primaryEntryOf (MassK0Short multiplicity : R) (f : HigherMassResonances.Fill)
           (pair : HigherMassResonances.V0 * HigherMassResonances.V0) : Prop :=
  exists cosThetaStar,
    f = HigherMassResonances.mkFill
          HigherMassResonances.h3glueInvMassDS multiplicity
          (GenVector.Pt (pairMother MassK0Short pair))
          (GenVector.M (pairMother MassK0Short pair))
          cosThetaStar
          (HigherMassResonances.anglePhi
             (pairMother MassK0Short pair)
             (HigherMassResonances.kshort MassK0Short (fst pair))).

(** An event with three accepted K0s candidates. *)
Definition threeKsEvent : list HigherMassResonances.V0 :=
  [sampleV0 0 2 3; sampleV0 1 4 5; sampleV0 2 6 7].

(** * Properties *)

(** ** Reflection of the real-number comparisons *)

Lemma Rltb_true (x y : R) : Rltb x y = true <-> x < y.
Proof. unfold Rltb. destruct (Rlt_dec x y); split; intros; try easy; discriminate. Qed.

Lemma Rltb_false (x y : R) : Rltb x y = false <-> y <= x.
Proof.
  unfold Rltb. destruct (Rlt_dec x y); split; intros; try easy; try lra; discriminate.
Qed.

Lemma Rleb_true (x y : R) : Rleb x y = true <-> x <= y.
Proof. unfold Rleb. destruct (Rle_dec x y); split; intros; try easy; discriminate. Qed.

Lemma Rleb_false (x y : R) : Rleb x y = false <-> y < x.
Proof.
  unfold Rleb. destruct (Rle_dec x y); split; intros; try easy; try lra; discriminate.
Qed.

Lemma Reqb_true (x y : R) : Reqb x y = true <-> x = y.
Proof. unfold Reqb. destruct (Req_dec_T x y); split; intros; try easy; discriminate. Qed.

Lemma Rltb_lt (x y : R) : x < y -> Rltb x y = true.
Proof. apply Rltb_true. Qed.

Lemma Rltb_ge (x y : R) : y <= x -> Rltb x y = false.
Proof. apply Rltb_false. Qed.

Lemma Rleb_le (x y : R) : x <= y -> Rleb x y = true.
Proof. apply Rleb_true. Qed.

Lemma Rleb_gt (x y : R) : y < x -> Rleb x y = false.
Proof. apply Rleb_false. Qed.

(** Deciding the comparisons of concrete real numbers. *)
Ltac solve_R :=
  cbn; repeat match goal with
       | |- context [Rabs ?x] => unfold Rabs; destruct (Rcase_abs x)
       end; lra.

Ltac decide_R :=
  repeat match goal with
    | |- context [Rltb ?a ?b] =>
        first [rewrite (Rltb_lt a b) by solve_R | rewrite (Rltb_ge a b) by solve_R]
    | |- context [Rleb ?a ?b] =>
        first [rewrite (Rleb_le a b) by solve_R | rewrite (Rleb_gt a b) by solve_R]
    end.

(** ** Four-vector arithmetic *)

Section FourVectors.
Import GenVector.

(** Energy of a vector built from a momentum and a non-negative mass. *)
Lemma E_of_mass (px py pz m : R) :
  0 < m ->
  E (PxPyPzMVector_of px py pz m) = sqrt (px * px + py * py + pz * pz + m * m).
Proof.
  intros Hm. unfold PxPyPzMVector_of, Rgeb.
  rewrite Rleb_le by lra.
  unfold E, E2, M2, P2, Rgeb, Rgtb; cbn [Px Py Pz M].
  rewrite Rleb_le by lra.
  rewrite Rltb_lt by nra.
  reflexivity.
Qed.

Lemma add_comm (a b : PxPyPzMVector) : add a b = add b a.
Proof.
  unfold add.
  rewrite (Rplus_comm (Px a)), (Rplus_comm (Py a)), (Rplus_comm (Pz a)),
    (Rplus_comm (E a)).
  reflexivity.
Qed.

End FourVectors.

(** C6: swapping the two daughters leaves the invariant mass and the
    transverse momentum of the composite unchanged, for every pair of V0
    candidates and every mass hypothesis. *)
Theorem composite_mass_pt_symmetric :
  forall (massHypothesis : R) (v1 v2 : HigherMassResonances.V0),
    let d1 := HigherMassResonances.kshort massHypothesis v1 in
    let d2 := HigherMassResonances.kshort massHypothesis v2 in
    GenVector.M (GenVector.add d1 d2) = GenVector.M (GenVector.add d2 d1)
    /\ GenVector.Pt (GenVector.add d1 d2) = GenVector.Pt (GenVector.add d2 d1).
Proof.
  intros m v1 v2 d1 d2. rewrite (add_comm d1 d2). split; reflexivity.
Qed.

Lemma backToBack_energy :
  GenVector.E backToBackA = sqrt (1 + 0.4976 * 0.4976)
  /\ GenVector.E backToBackB = sqrt (1 + 0.4976 * 0.4976).
Proof.
  unfold backToBackA, backToBackB.
  rewrite !E_of_mass by lra. split; f_equal; lra.
Qed.

Lemma backToBack_sum :
  GenVector.Pt (GenVector.add backToBackA backToBackB) = 0
  /\ GenVector.M (GenVector.add backToBackA backToBackB) = 2 * sqrt (1 + 0.4976 * 0.4976).
Proof.
  destruct backToBack_energy as [Ea Eb].
  unfold GenVector.add. rewrite Ea, Eb.
  unfold backToBackA, backToBackB, GenVector.PxPyPzMVector_of, Rgeb.
  rewrite !Rleb_le by lra. cbn.
  assert (Hs : 0 < sqrt (1 + 0.4976 * 0.4976)) by (apply sqrt_lt_R0; lra).
  split.
  - unfold GenVector.Pt; cbn.
    replace ((1 + -1) * (1 + -1) + (0 + 0) * (0 + 0)) with 0 by lra.
    apply sqrt_0.
  - unfold GenVector.eM, GenVector.eM2, Rgeb; cbn.
    set (s := sqrt (1 + 0.4976 * 0.4976)) in *.
    rewrite Rleb_le by nra.
    replace ((s + s) * (s + s) - (1 + -1) * (1 + -1) - (0 + 0) * (0 + 0) - (0 + 0) * (0 + 0))
      with ((2 * s) * (2 * s)) by lra.
    apply sqrt_square. lra.
Qed.

(** C4, as the code computes it: the composite of the two back-to-back
    daughters has transverse momentum 0 and invariant mass
    2 * sqrt (1 + 0.4976^2), the sum of the two daughter energies. *)
Theorem backToBack_composite :
  GenVector.Pt (GenVector.add backToBackA backToBackB) = 0
  /\ GenVector.M (GenVector.add backToBackA backToBackB) = 2 * sqrt (1 ^ 2 + 0.4976 ^ 2).
Proof.
  destruct backToBack_sum as [Hpt Hm]. split; [exact Hpt|].
  rewrite Hm. do 2 f_equal. lra.
Qed.

(** C4, as stated, fails: the invariant mass of the composite is not
    2 * 0.4976. *)
Lemma backToBack_mass_not_twice_hypothesis :
  ~ (GenVector.Pt (GenVector.add backToBackA backToBackB) = 0
     /\ GenVector.M (GenVector.add backToBackA backToBackB) = 2 * 0.4976).
Proof.
  intros [_ Hm]. destruct backToBack_sum as [_ Hm']. rewrite Hm' in Hm.
  assert (Hlt : 0.4976 < sqrt (1 + 0.4976 * 0.4976)).
  { rewrite <- (sqrt_square 0.4976) at 1 by lra. apply sqrt_lt_1; lra. }
  lra.
Qed.

(** ** The rotation angle of the rotational background *)

Lemma Uniform_in_window (x1 x2 : R) (g : GenVector.TRandom) :
  x1 < x2 -> 0 < g 0%nat < 1 ->
  x1 < fst (GenVector.Uniform x1 x2 g) < x2.
Proof.
  intros Hx [H0 H1]. unfold GenVector.Uniform; cbn [fst]. nra.
Qed.

(** C3, as the code computes it: with [rotationalCut] set to 10 every
    draw of the rotation angle lies inside the window
    (PI - PI/10, PI + PI/10); the window is where the angle is sampled,
    not a band that is left out. *)
Theorem rotation_angle_within_window :
  forall (config : HigherMassResonances.Config) (g : GenVector.TRandom),
    HigherMassResonances.rotationalCut config = 10%Z ->
    0 < g 0%nat < 1 ->
    PI - PI / 10 < fst (HigherMassResonances.drawTheta2 config g) < PI + PI / 10.
Proof.
  intros config g Hcut Hg. unfold HigherMassResonances.drawTheta2.
  rewrite Hcut. apply Uniform_in_window; [|exact Hg].
  pose proof PI_RGT_0. lra.
Qed.

Lemma rotation_angle_within_window_witness :
  HigherMassResonances.rotationalCut defaultConfig = 10%Z
  /\ 0 < constantHalf 0%nat < 1
  /\ PI - PI / 10 < fst (HigherMassResonances.drawTheta2 defaultConfig constantHalf)
     < PI + PI / 10.
Proof.
  split; [reflexivity|]. split; [unfold constantHalf; lra|].
  apply (rotation_angle_within_window defaultConfig constantHalf).
  - reflexivity.
  - unfold constantHalf; lra.
Defined.

(** C3, as stated, fails: with [rotationalCut] at 10 it is not the case
    that every draw stays out of the band PI - PI/10 .. PI + PI/10; the
    generator returning 1/2 gives the angle PI. *)
Lemma rotation_angle_not_excluded_from_band :
  ~ (forall g : GenVector.TRandom,
        (forall n, 0 < g n < 1) ->
        ~ (PI - PI / 10 <= fst (HigherMassResonances.drawTheta2 defaultConfig g)
           <= PI + PI / 10)).
Proof.
  intros H. apply (H constantHalf).
  - intros n. unfold constantHalf. lra.
  - unfold HigherMassResonances.drawTheta2, GenVector.Uniform, constantHalf; cbn.
    pose proof PI_RGT_0. lra.
Qed.

(** ** [init] *)

Lemma sparses_sum_zero (config : HigherMassResonances.Config) :
  (fold_left Z.add (HigherMassResonances.sparses config) 0 =? 0)%Z = true
  <-> (HigherMassResonances.activateTHnSparseCosThStarHelicity config = false
       /\ HigherMassResonances.activateTHnSparseCosThStarProduction config = false
       /\ HigherMassResonances.activateTHnSparseCosThStarBeam config = false
       /\ HigherMassResonances.activateTHnSparseCosThStarRandom config = false).
Proof.
  unfold HigherMassResonances.sparses.
  destruct (HigherMassResonances.activateTHnSparseCosThStarHelicity config),
    (HigherMassResonances.activateTHnSparseCosThStarProduction config),
    (HigherMassResonances.activateTHnSparseCosThStarBeam config),
    (HigherMassResonances.activateTHnSparseCosThStarRandom config);
    cbn; split; intros H; try discriminate; try tauto;
    repeat match goal with H : _ /\ _ |- _ => destruct H end; discriminate.
Qed.

(** C8: [init] ends in the fatal error exactly when none of the four
    reference-axis THnSparses is enabled, and then no event is processed
    (no fill is made); with at least one enabled, [init] passes the check. *)
Theorem init_fatal_iff_no_policy :
  forall (config : HigherMassResonances.Config),
    let noPolicy :=
      HigherMassResonances.activateTHnSparseCosThStarHelicity config = false
      /\ HigherMassResonances.activateTHnSparseCosThStarProduction config = false
      /\ HigherMassResonances.activateTHnSparseCosThStarBeam config = false
      /\ HigherMassResonances.activateTHnSparseCosThStarRandom config = false in
    (noPolicy <->
       HigherMassResonances.init config
       = HigherMassResonances.Fatal "No output THnSparses enabled")
    /\ (~ noPolicy <->
        exists info, HigherMassResonances.init config = HigherMassResonances.Initialised info)
    /\ (noPolicy ->
        forall MassK0Short MassLambda0 tracks s events,
          HigherMassResonances.runSameEvent config MassK0Short MassLambda0 tracks s events
          = (HigherMassResonances.Fatal "No output THnSparses enabled", [])).
Proof.
  intros config noPolicy.
  pose proof (sparses_sum_zero config) as Hz. fold noPolicy in Hz.
  unfold HigherMassResonances.runSameEvent, HigherMassResonances.init.
  destruct (fold_left Z.add (HigherMassResonances.sparses config) 0 =? 0)%Z.
  - assert (Hn : noPolicy) by (apply Hz; reflexivity).
    split; [|split].
    + split; intros _; [reflexivity | exact Hn].
    + split; [intros Hc; contradiction | intros [info H]; discriminate].
    + reflexivity.
  - assert (Hn : ~ noPolicy) by (intros H; apply Hz in H; discriminate).
    split; [|split].
    + split; [intros Hc; contradiction | intros H; discriminate].
    + split; [intros _; eexists; reflexivity | intros _; exact Hn].
    + intros Hc; contradiction.
Qed.

(** ** [fillInvMass] *)

Section FillInvMass.
Import GenVector HigherMassResonances.

Variable config : Config.

Lemma atan2_bound (y x : R) : - PI <= atan2 y x <= PI.
Proof.
  pose proof PI_RGT_0 as Hpi.
  pose proof (atan_bound (y / x)) as Hb.
  unfold atan2, Rgtb, Rgeb.
  destruct (Rlt_dec 0 x) as [Hx|Hx].
  - rewrite Rltb_lt by exact Hx. lra.
  - rewrite Rltb_ge by lra.
    destruct (Rlt_dec x 0) as [Hx'|Hx'].
    + rewrite Rltb_lt by exact Hx'.
      destruct (Rle_dec 0 y) as [Hy|Hy].
      * rewrite Rleb_le by exact Hy.
        assert (Hq : y / x <= 0).
        { unfold Rdiv. assert (/ x < 0) by (apply Rinv_lt_0_compat; exact Hx'). nra. }
        assert (Ha : atan (y / x) <= 0).
        { destruct Hq as [Hq|Hq].
          - left. rewrite <- atan_0. apply atan_increasing; exact Hq.
          - rewrite Hq, atan_0. lra. }
        lra.
      * rewrite Rleb_gt by lra.
        assert (Hq : 0 < y / x).
        { unfold Rdiv. assert (/ x < 0) by (apply Rinv_lt_0_compat; exact Hx'). nra. }
        assert (Ha : 0 < atan (y / x)).
        { rewrite <- atan_0. apply atan_increasing; exact Hq. }
        lra.
    + rewrite Rltb_ge by lra.
      destruct (Rlt_dec 0 y) as [Hy|Hy].
      * rewrite Rltb_lt by exact Hy. lra.
      * rewrite Rltb_ge by lra.
        destruct (Rlt_dec y 0) as [Hy'|Hy'].
        -- rewrite Rltb_lt by exact Hy'. lra.
        -- rewrite Rltb_ge by lra. lra.
Qed.

Lemma ATan2_bound (y x : R) : - PI <= ATan2 y x <= PI.
Proof.
  pose proof PI_RGT_0 as Hpi. unfold ATan2.
  destruct (Reqb x 0); cbn [negb].
  - destruct (Reqb y 0); [lra|]. destruct (Rgtb y 0); lra.
  - apply atan2_bound.
Qed.

Lemma anglePhi_negative (mother_ daughter1_ : PxPyPzMVector) :
  rawAnglePhi mother_ daughter1_ < 0 ->
  anglePhi mother_ daughter1_ = rawAnglePhi mother_ daughter1_ + 2 * PI.
Proof. intros H. unfold anglePhi. rewrite Rltb_lt by exact H. reflexivity. Qed.

Lemma anglePhi_nonnegative (mother_ daughter1_ : PxPyPzMVector) :
  0 <= rawAnglePhi mother_ daughter1_ ->
  anglePhi mother_ daughter1_ = rawAnglePhi mother_ daughter1_.
Proof. intros H. unfold anglePhi. rewrite Rltb_ge by exact H. reflexivity. Qed.

Lemma anglePhi_range (mother_ daughter1_ : PxPyPzMVector) :
  0 <= anglePhi mother_ daughter1_ < 2 * PI.
Proof.
  pose proof PI_RGT_0 as Hpi.
  assert (Hb : - PI <= rawAnglePhi mother_ daughter1_ <= PI)
    by (unfold rawAnglePhi; apply ATan2_bound).
  destruct (Rlt_dec (rawAnglePhi mother_ daughter1_) 0) as [Hn|Hn].
  - rewrite anglePhi_negative by exact Hn. lra.
  - rewrite anglePhi_nonnegative by lra. lra.
Qed.

(** The rotation loop concatenates the entries of its body over the
    angles it draws. *)
Lemma rotationLoop_flat_map (body : R -> list Fill) (n : nat) (g : TRandom) :
  fst (rotationLoop config body n g) = flat_map body (rotationAngles config n g).
Proof.
  revert g. induction n as [|n IH]; intros g.
  - reflexivity.
  - cbn [rotationLoop rotationAngles].
    destruct (drawTheta2 config g) as [theta2 g1].
    specialize (IH g1). destruct (rotationLoop config body n g1) as [rest g2].
    cbn [fst flat_map] in *. rewrite IH. reflexivity.
Qed.

Lemma rotationLoop_Forall (P : Fill -> Prop) (body : R -> list Fill) (n : nat) (g : TRandom) :
  (forall theta2, Forall P (body theta2)) ->
  Forall P (fst (rotationLoop config body n g)).
Proof.
  intros Hbody. rewrite rotationLoop_flat_map.
  apply Forall_flat_map. apply Forall_forall. intros theta2 _. apply Hbody.
Qed.

Lemma rotationHelicity_Forall (P : Fill -> Prop) mult d1 d2 angle_phi theta2 :
  (forall pT mass c, P (mkFill h3glueInvMassRot mult pT mass c angle_phi)) ->
  Forall P (rotationHelicity mult d1 d2 angle_phi theta2).
Proof.
  intros HP. unfold rotationHelicity.
  destruct (Rltb _ 0.5); constructor; [apply HP | constructor].
Qed.

Lemma rotationMother_Forall (P : Fill -> Prop) mult m c angle_phi theta2 :
  (forall pT mass c, P (mkFill h3glueInvMassRot mult pT mass c angle_phi)) ->
  Forall P (rotationMother mult m c angle_phi theta2).
Proof.
  intros HP. unfold rotationMother.
  destruct (Rltb _ 0.5); constructor; [apply HP | constructor].
Qed.

(** The shape of the output of one branch of [fillInvMass]. *)
Lemma fillBranch_fills s gR m mult c angle_phi isMix_ body :
  fst (fillBranch config s gR m mult c angle_phi isMix_ body)
  = if isMix_ then
      (if Rltb (Rabs (Rapidity m)) 0.5
       then [mkFill h3glueInvMassME mult (Pt m) (M m) c angle_phi] else [])
    else
      (if Rltb (Rabs (Rapidity m)) 0.5
       then [mkFill h3glueInvMassDS mult (Pt m) (M m) c angle_phi] else [])
      ++ flat_map body (rotationAngles config (Z.to_nat (cRotations config)) (rn s)).
Proof.
  unfold fillBranch. destruct isMix_; cbn [negb].
  - reflexivity.
  - rewrite <- rotationLoop_flat_map.
    destruct (rotationLoop config body (Z.to_nat (cRotations config)) (rn s)); reflexivity.
Qed.

Lemma fillBranch_Forall (P : Fill -> Prop) s gR m mult c angle_phi isMix_ body :
  (forall h pT mass c', P (mkFill h mult pT mass c' angle_phi)) ->
  (forall theta2, Forall P (body theta2)) ->
  Forall P (fst (fillBranch config s gR m mult c angle_phi isMix_ body)).
Proof.
  intros HP Hbody. rewrite fillBranch_fills.
  destruct isMix_.
  - destruct (Rltb _ 0.5); constructor; [apply HP | constructor].
  - apply Forall_app. split.
    + destruct (Rltb _ 0.5); constructor; [apply HP | constructor].
    + apply Forall_flat_map. apply Forall_forall. intros theta2 _. apply Hbody.
Qed.

(** Every entry [fillInvMass] records carries the multiplicity it was
    given and the normalised azimuthal angle. *)
Lemma fillInvMass_Forall (P : Fill -> Prop) s m mult d1 d2 isMix_ :
  (forall h pT mass c, P (mkFill h mult pT mass c (anglePhi m d1))) ->
  Forall P (fst (fillInvMass config s m mult d1 d2 isMix_)).
Proof.
  intros HP. unfold fillInvMass.
  destruct (activateTHnSparseCosThStarHelicity config).
  { apply fillBranch_Forall; [exact HP|].
    intros; apply rotationHelicity_Forall; intros; apply HP. }
  destruct (activateTHnSparseCosThStarProduction config).
  { apply fillBranch_Forall; [exact HP|].
    intros; apply rotationMother_Forall; intros; apply HP. }
  destruct (activateTHnSparseCosThStarBeam config).
  { apply fillBranch_Forall; [exact HP|].
    intros; apply rotationMother_Forall; intros; apply HP. }
  destruct (activateTHnSparseCosThStarRandom config).
  { destruct (Uniform 0 (2 * PI) (gRandom s)) as [phiRandom g1].
    destruct (Uniform 0 PI g1) as [thetaRandom g2].
    apply fillBranch_Forall; [exact HP|].
    intros; apply rotationMother_Forall; intros; apply HP. }
  constructor.
Qed.

End FillInvMass.

(** C10: the azimuthal angle is brought into [0, 2 PI) before anything is
    recorded: a negative [ATan2] value gets 2 PI added once, any other
    value is kept, the result lies in [0, 2 PI), and every entry that
    [fillInvMass] records carries that result. *)
Theorem azimuthal_angle_normalised :
  forall (config : HigherMassResonances.Config) (s : HigherMassResonances.Members)
         (mother daughter1 daughter2 : GenVector.PxPyPzMVector)
         (multiplicity : R) (isMix : bool),
    let raw := HigherMassResonances.rawAnglePhi mother daughter1 in
    let angle_phi := HigherMassResonances.anglePhi mother daughter1 in
    (raw < 0 -> angle_phi = raw + 2 * PI)
    /\ (0 <= raw -> angle_phi = raw)
    /\ 0 <= angle_phi < 2 * PI
    /\ Forall (fun f => HigherMassResonances.fPhi f = angle_phi)
              (fst (HigherMassResonances.fillInvMass
                      config s mother multiplicity daughter1 daughter2 isMix)).
Proof.
  intros config s m d1 d2 mult isMix_ raw angle_phi.
  split; [apply anglePhi_negative|].
  split; [apply anglePhi_nonnegative|].
  split; [apply anglePhi_range|].
  apply fillInvMass_Forall. intros; reflexivity.
Qed.

Section RapidityGates.
Import GenVector HigherMassResonances.

Lemma filter_isDS_Rot (l : list Fill) :
  Forall (fun f => hist f = h3glueInvMassRot) l -> filter isDS l = [].
Proof.
  induction 1 as [|f l Hf _ IH]; [reflexivity|].
  cbn. unfold isDS at 1. rewrite Hf. exact IH.
Qed.

Lemma filter_isRot_Rot (l : list Fill) :
  Forall (fun f => hist f = h3glueInvMassRot) l -> filter isRot l = l.
Proof.
  induction 1 as [|f l Hf _ IH]; [reflexivity|].
  cbn. unfold isRot at 1. rewrite Hf. cbn. rewrite IH. reflexivity.
Qed.

Lemma flat_map_Rot (body : R -> list Fill) (thetas : list R) :
  (forall theta2, Forall (fun f => hist f = h3glueInvMassRot) (body theta2)) ->
  Forall (fun f => hist f = h3glueInvMassRot) (flat_map body thetas).
Proof.
  intros H. apply Forall_flat_map. apply Forall_forall. intros t _. apply H.
Qed.

Lemma rotationHelicity_Rot mult d1 d2 angle_phi theta2 :
  Forall (fun f => hist f = h3glueInvMassRot) (rotationHelicity mult d1 d2 angle_phi theta2).
Proof. apply rotationHelicity_Forall. reflexivity. Qed.

Lemma rotationMother_Rot mult m c angle_phi theta2 :
  Forall (fun f => hist f = h3glueInvMassRot) (rotationMother mult m c angle_phi theta2).
Proof. apply rotationMother_Forall. reflexivity. Qed.

Variable config : Config.

(** The same-event entries of one branch. *)
Lemma fillBranch_DS s gR m mult c angle_phi body :
  (forall theta2, Forall (fun f => hist f = h3glueInvMassRot) (body theta2)) ->
  filter isDS (fst (fillBranch config s gR m mult c angle_phi false body))
  = if Rltb (Rabs (Rapidity m)) 0.5
    then [mkFill h3glueInvMassDS mult (Pt m) (M m) c angle_phi] else [].
Proof.
  intros Hbody. rewrite fillBranch_fills, filter_app.
  rewrite (filter_isDS_Rot (flat_map _ _)) by (apply flat_map_Rot; exact Hbody).
  destruct (Rltb _ 0.5); reflexivity.
Qed.

(** The rotational-background entries of one branch. *)
Lemma fillBranch_Rot s gR m mult c angle_phi body :
  (forall theta2, Forall (fun f => hist f = h3glueInvMassRot) (body theta2)) ->
  filter isRot (fst (fillBranch config s gR m mult c angle_phi false body))
  = flat_map body (rotationAngles config (Z.to_nat (cRotations config)) (rn s)).
Proof.
  intros Hbody. rewrite fillBranch_fills, filter_app.
  rewrite (filter_isRot_Rot (flat_map _ _)) by (apply flat_map_Rot; exact Hbody).
  destruct (Rltb _ 0.5); reflexivity.
Qed.

Lemma fillInvMass_DS s m mult d1 d2 :
  activateTHnSparseCosThStarHelicity config
  || activateTHnSparseCosThStarProduction config
  || activateTHnSparseCosThStarBeam config
  || activateTHnSparseCosThStarRandom config = true ->
  exists c,
    filter isDS (fst (fillInvMass config s m mult d1 d2 false))
    = if Rltb (Rabs (Rapidity m)) 0.5
      then [mkFill h3glueInvMassDS mult (Pt m) (M m) c (anglePhi m d1)] else [].
Proof.
  intros Hany. unfold fillInvMass.
  destruct (activateTHnSparseCosThStarHelicity config).
  { eexists. apply fillBranch_DS. intros; apply rotationHelicity_Rot. }
  destruct (activateTHnSparseCosThStarProduction config).
  { eexists. apply fillBranch_DS. intros; apply rotationMother_Rot. }
  destruct (activateTHnSparseCosThStarBeam config).
  { eexists. apply fillBranch_DS. intros; apply rotationMother_Rot. }
  destruct (activateTHnSparseCosThStarRandom config); [|discriminate].
  destruct (Uniform 0 (2 * PI) (gRandom s)) as [phiRandom g1].
  destruct (Uniform 0 PI g1) as [thetaRandom g2].
  eexists. apply fillBranch_DS. intros; apply rotationMother_Rot.
Qed.

Lemma fillInvMass_Rot_helicity s m mult d1 d2 :
  activateTHnSparseCosThStarHelicity config = true ->
  filter isRot (fst (fillInvMass config s m mult d1 d2 false))
  = flat_map (rotationHelicity mult d1 d2 (anglePhi m d1))
             (rotationAngles config (Z.to_nat (cRotations config)) (rn s)).
Proof.
  intros Hh. unfold fillInvMass. rewrite Hh.
  apply fillBranch_Rot. intros; apply rotationHelicity_Rot.
Qed.

Lemma fillInvMass_Rot_other s m mult d1 d2 :
  activateTHnSparseCosThStarHelicity config = false ->
  activateTHnSparseCosThStarProduction config
  || activateTHnSparseCosThStarBeam config
  || activateTHnSparseCosThStarRandom config = true ->
  exists c,
    filter isRot (fst (fillInvMass config s m mult d1 d2 false))
    = flat_map (rotationMother mult m c (anglePhi m d1))
               (rotationAngles config (Z.to_nat (cRotations config)) (rn s)).
Proof.
  intros Hh Hany. unfold fillInvMass. rewrite Hh.
  destruct (activateTHnSparseCosThStarProduction config).
  { eexists. apply fillBranch_Rot. intros; apply rotationMother_Rot. }
  destruct (activateTHnSparseCosThStarBeam config).
  { eexists. apply fillBranch_Rot. intros; apply rotationMother_Rot. }
  destruct (activateTHnSparseCosThStarRandom config); [|discriminate].
  destruct (Uniform 0 (2 * PI) (gRandom s)) as [phiRandom g1].
  destruct (Uniform 0 PI g1) as [thetaRandom g2].
  eexists. apply fillBranch_Rot. intros; apply rotationMother_Rot.
Qed.

Lemma rotationHelicity_recorded mult d1 d2 angle_phi theta2 :
  rotationHelicity mult d1 d2 angle_phi theta2 <> []
  <-> Rapidity (motherRotHelicity d1 d2 theta2) < 0.5.
Proof.
  unfold rotationHelicity, motherRotHelicity.
  destruct (Rlt_dec (Rapidity (add (rotated d1 theta2) d2)) 0.5) as [Hy|Hy].
  - rewrite Rltb_lt by exact Hy. split; [intros _; exact Hy | discriminate].
  - rewrite Rltb_ge by lra. split; [intros H; contradiction H; reflexivity | intros H; lra].
Qed.

Lemma rotationMother_recorded mult m c angle_phi theta2 :
  rotationMother mult m c angle_phi theta2 <> []
  <-> Rabs (Rapidity (rotated m theta2)) < 0.5.
Proof.
  unfold rotationMother.
  destruct (Rlt_dec (Rabs (Rapidity (rotated m theta2))) 0.5) as [Hy|Hy].
  - rewrite Rltb_lt by exact Hy. split; [intros _; exact Hy | discriminate].
  - rewrite Rltb_ge by lra. split; [intros H; contradiction H; reflexivity | intros H; lra].
Qed.

End RapidityGates.

(** One call of [fillInvMass] on a same-event pair ([isMix = false])
    with a reference-axis policy active: the entry (multiplicity, pT,
    mass, cosThetaStar, phi) of the composite is recorded in
    [h3glueInvMassDS] if and only if the absolute rapidity of the
    composite is below 0.5.  Which accepted pairs reach such a call is
    the matter of [processSE]. *)
Lemma fillInvMass_primary_iff_rapidity :
  forall (config : HigherMassResonances.Config) (s : HigherMassResonances.Members)
         (mother daughter1 daughter2 : GenVector.PxPyPzMVector) (multiplicity : R),
    HigherMassResonances.activateTHnSparseCosThStarHelicity config
    || HigherMassResonances.activateTHnSparseCosThStarProduction config
    || HigherMassResonances.activateTHnSparseCosThStarBeam config
    || HigherMassResonances.activateTHnSparseCosThStarRandom config = true ->
    let recorded :=
      filter HigherMassResonances.isDS (fst (HigherMassResonances.fillInvMass
                          config s mother multiplicity daughter1 daughter2 false)) in
    (recorded <> [] <-> Rabs (GenVector.Rapidity mother) < 0.5)
    /\ exists cosThetaStar,
        (Rabs (GenVector.Rapidity mother) < 0.5 ->
         recorded = [HigherMassResonances.mkFill
                       HigherMassResonances.h3glueInvMassDS multiplicity
                       (GenVector.Pt mother) (GenVector.M mother) cosThetaStar
                       (HigherMassResonances.anglePhi mother daughter1)]).
Proof.
  intros config s m d1 d2 mult Hany recorded.
  destruct (fillInvMass_DS config s m mult d1 d2 Hany) as [c Hc].
  fold recorded in Hc.
  destruct (Rlt_dec (Rabs (GenVector.Rapidity m)) 0.5) as [Hy|Hy].
  - rewrite Rltb_lt in Hc by exact Hy. split.
    + split; [intros _; exact Hy | intros _; rewrite Hc; discriminate].
    + exists c. intros _. exact Hc.
  - rewrite Rltb_ge in Hc by lra. split.
    + split; [intros H; contradiction | intros H; contradiction].
    + exists c. intros H; contradiction.
Qed.

(** C9: in the helicity policy the rotational-background entries of
    [fillInvMass] are, draw by draw, recorded when the signed rapidity of
    the rotated composite is below 0.5, so also for any rapidity at or
    below -0.5; in the production, beam and random policies they are
    recorded when the absolute rapidity of the rotated composite is below
    0.5. *)
Theorem rotational_background_rapidity_gate :
  forall (config : HigherMassResonances.Config) (s : HigherMassResonances.Members)
         (mother daughter1 daughter2 : GenVector.PxPyPzMVector) (multiplicity : R),
    let rot :=
      filter HigherMassResonances.isRot (fst (HigherMassResonances.fillInvMass
                           config s mother multiplicity daughter1 daughter2 false)) in
    let thetas :=
      HigherMassResonances.rotationAngles
        config (Z.to_nat (HigherMassResonances.cRotations config))
        (HigherMassResonances.rn s) in
    let angle_phi := HigherMassResonances.anglePhi mother daughter1 in
    (HigherMassResonances.activateTHnSparseCosThStarHelicity config = true ->
     rot = flat_map (HigherMassResonances.rotationHelicity
                       multiplicity daughter1 daughter2 angle_phi) thetas)
    /\ (forall theta2,
           HigherMassResonances.rotationHelicity
             multiplicity daughter1 daughter2 angle_phi theta2 <> []
           <-> GenVector.Rapidity
                 (HigherMassResonances.motherRotHelicity daughter1 daughter2 theta2) < 0.5)
    /\ (forall theta2,
           GenVector.Rapidity
             (HigherMassResonances.motherRotHelicity daughter1 daughter2 theta2) <= -0.5 ->
           HigherMassResonances.rotationHelicity
             multiplicity daughter1 daughter2 angle_phi theta2 <> [])
    /\ (HigherMassResonances.activateTHnSparseCosThStarHelicity config = false ->
        HigherMassResonances.activateTHnSparseCosThStarProduction config
        || HigherMassResonances.activateTHnSparseCosThStarBeam config
        || HigherMassResonances.activateTHnSparseCosThStarRandom config = true ->
        exists cosThetaStar,
          rot = flat_map (HigherMassResonances.rotationMother
                            multiplicity mother cosThetaStar angle_phi) thetas)
    /\ (forall cosThetaStar theta2,
           HigherMassResonances.rotationMother
             multiplicity mother cosThetaStar angle_phi theta2 <> []
           <-> Rabs (GenVector.Rapidity (HigherMassResonances.rotated mother theta2)) < 0.5).
Proof.
  intros config s m d1 d2 mult rot thetas angle_phi.
  split; [intros Hh; apply fillInvMass_Rot_helicity; exact Hh|].
  split; [intros theta2; apply rotationHelicity_recorded|].
  split; [intros theta2 Hy; apply rotationHelicity_recorded; lra|].
  split; [intros Hh Hany; apply fillInvMass_Rot_other; assumption|].
  intros c theta2; apply rotationMother_recorded.
Qed.

(** ** A composite at large negative rapidity *)

Section BackwardComposite.
Import GenVector.

Lemma E_raw (px py pz m : R) :
  0 <= m ->
  E (mkPxPyPzMraw px py pz m) = sqrt (px * px + py * py + pz * pz + m * m).
Proof.
  intros Hm. unfold E, E2, M2, P2, Rgeb, Rgtb; cbn [Px Py Pz M].
  rewrite Rleb_le by lra.
  destruct (Rlt_dec 0 (px * px + py * py + pz * pz + m * m)) as [H|H].
  - rewrite Rltb_lt by exact H. reflexivity.
  - rewrite Rltb_ge by lra. f_equal. nra.
Qed.

Lemma backwardDaughter_raw : backwardDaughter = mkPxPyPzMraw 0 0 (-10) 0.5.
Proof.
  unfold backwardDaughter, PxPyPzMVector_of, Rgeb. rewrite Rleb_le by lra. reflexivity.
Qed.

(** The sum of two daughters on the beam axis, whatever the names of
    their vanishing transverse components. *)
Lemma backward_sum (ax ay : R) :
  ax = 0 -> ay = 0 ->
  add (mkPxPyPzMraw ax ay (-10) 0.5) (mkPxPyPzMraw 0 0 (-10) 0.5)
  = mkPxPyPzMraw 0 0 (-20) 1.
Proof.
  intros -> ->. unfold add, toPxPyPzM; cbn [ePx ePy ePz Px Py Pz].
  rewrite !E_raw by lra.
  replace (0 * 0 + 0 * 0 + -10 * -10 + 0.5 * 0.5) with 100.25 by lra.
  assert (Hs : sqrt 100.25 * sqrt 100.25 = 100.25) by (apply sqrt_sqrt; lra).
  assert (Hp : 0 < sqrt 100.25) by (apply sqrt_lt_R0; lra).
  unfold eM, eM2, Rgeb; cbn [ePx ePy ePz eE].
  replace ((sqrt 100.25 + sqrt 100.25) * (sqrt 100.25 + sqrt 100.25)
           - (0 + 0) * (0 + 0) - (0 + 0) * (0 + 0) - (-10 + -10) * (-10 + -10))
    with 1 by nra.
  rewrite Rleb_le by lra. rewrite sqrt_1.
  f_equal; lra.
Qed.

Lemma Rapidity_backward : Rapidity (mkPxPyPzMraw 0 0 (-20) 1) <= -0.5.
Proof.
  unfold Rapidity. rewrite E_raw by lra. cbn [Pz].
  replace (0 * 0 + 0 * 0 + -20 * -20 + 1 * 1) with 401 by lra.
  assert (Hs : sqrt 401 * sqrt 401 = 401) by (apply sqrt_sqrt; lra).
  assert (Hp : 0 < sqrt 401) by (apply sqrt_lt_R0; lra).
  set (r := sqrt 401) in *.
  assert (Hr : 20 < r < 20.03) by nra.
  assert (Hi : 0 < / (r - -20) < / 40).
  { split; [apply Rinv_0_lt_compat; lra|].
    apply Rinv_lt_contravar; nra. }
  assert (Hx : 0 < (r + -20) / (r - -20) < / 3).
  { unfold Rdiv. split; nra. }
  assert (He : / 3 <= exp (Ropp 1)).
  { rewrite exp_Ropp. apply Rinv_le_contravar; [apply exp_pos | apply exp_le_3]. }
  assert (Hl : ln ((r + -20) / (r - -20)) < Ropp 1).
  { rewrite <- (ln_exp (Ropp 1)). apply ln_increasing; lra. }
  lra.
Qed.

Lemma rotated_backward_helicity :
  HigherMassResonances.motherRotHelicity backwardDaughter backwardDaughter PI
  = mkPxPyPzMraw 0 0 (-20) 1.
Proof.
  unfold HigherMassResonances.motherRotHelicity, HigherMassResonances.rotated.
  rewrite backwardDaughter_raw; cbn [Px Py Pz M].
  unfold PxPyPzMVector_of, Rgeb. rewrite Rleb_le by lra.
  apply backward_sum; lra.
Qed.

Lemma rotated_backward_mother :
  HigherMassResonances.rotated (add backwardDaughter backwardDaughter) PI
  = mkPxPyPzMraw 0 0 (-20) 1.
Proof.
  rewrite backwardDaughter_raw, backward_sum by reflexivity.
  unfold HigherMassResonances.rotated; cbn [Px Py Pz M].
  unfold PxPyPzMVector_of, Rgeb. rewrite Rleb_le by lra.
  f_equal; lra.
Qed.

(** A rotated composite at rapidity below -0.5: the helicity branch
    records it, the branches that rotate the mother do not. *)
Lemma backward_composite_recorded_only_in_helicity (mult c angle_phi : R) :
  Rapidity (HigherMassResonances.motherRotHelicity backwardDaughter backwardDaughter PI)
    <= -0.5
  /\ HigherMassResonances.rotationHelicity mult backwardDaughter backwardDaughter angle_phi PI
     <> []
  /\ HigherMassResonances.rotationMother
       mult (add backwardDaughter backwardDaughter) c angle_phi PI = [].
Proof.
  pose proof Rapidity_backward as Hy.
  split; [rewrite rotated_backward_helicity; exact Hy|].
  split.
  - apply rotationHelicity_recorded. rewrite rotated_backward_helicity. lra.
  - unfold HigherMassResonances.rotationMother. rewrite rotated_backward_mother.
    rewrite Rltb_ge; [reflexivity|].
    rewrite Rabs_left by lra. lra.
Qed.

End BackwardComposite.

(** ** The pair loops: candidates that share a daughter track *)

Section SharedTracks.
Import GenVector HigherMassResonances.

Variable config : Config.
Variable MassK0Short MassLambda0 : R.
Variable tracks : Z -> Track.

Ltac split_ifs :=
  repeat match goal with
         | |- context [if ?c then _ else _] => destruct c
         end.

(** A track accepted as positive daughter has no negative sign. *)
Lemma isSelectedV0Daughter_positive (t : Track) (nsigma : R) :
  isSelectedV0Daughter config t 1 nsigma = true -> (0 <= sign t)%Z.
Proof.
  unfold isSelectedV0Daughter, Rgtb.
  rewrite (Rltb_ge 1 0) by lra. rewrite (Rltb_lt 0 1) by lra. cbn [andb].
  destruct (sign t <? 0)%Z eqn:Hs.
  - intros H. exfalso. revert H. split_ifs; discriminate.
  - intros _. apply Z.ltb_ge in Hs. exact Hs.
Qed.

(** A track accepted as negative daughter has no positive sign. *)
Lemma isSelectedV0Daughter_negative (t : Track) (nsigma : R) :
  isSelectedV0Daughter config t (-1) nsigma = true -> (sign t <= 0)%Z.
Proof.
  unfold isSelectedV0Daughter, Rgtb.
  rewrite (Rltb_lt (-1) 0) by lra. rewrite (Rltb_ge 0 (-1)) by lra. cbn [andb].
  destruct (sign t >? 0)%Z eqn:Hs.
  - intros H. exfalso. revert H. split_ifs; discriminate.
  - intros _. rewrite Z.gtb_ltb in Hs. apply Z.ltb_ge in Hs. exact Hs.
Qed.

(** What holds when the body of the same-event loop reaches its end. *)
Lemma seGate_accepted (collision : Collision) (V0s : list V0) (v1 v2 : V0) :
  seGate config MassK0Short MassLambda0 tracks collision V0s v1 v2 = PairAccepted ->
  isSelectedV0Daughter config (tracks (negTrackId v1)) (-1)
                       (tpcNSigmaPi (tracks (negTrackId v1))) = true
  /\ isSelectedV0Daughter config (tracks (posTrackId v1)) 1
                          (tpcNSigmaPi (tracks (posTrackId v1))) = true
  /\ isSelectedV0Daughter config (tracks (posTrackId v2)) 1
                          (tpcNSigmaPi (tracks (posTrackId v2))) = true
  /\ isSelectedV0Daughter config (tracks (negTrackId v2)) (-1)
                          (tpcNSigmaPi (tracks (negTrackId v2))) = true
  /\ (globalIndex v1 < globalIndex v2)%Z
  /\ posTrackId v1 <> posTrackId v2
  /\ negTrackId v1 <> negTrackId v2.
Proof.
  unfold seGate.
  destruct ((List.length V0s =? 0)%nat || (List.length V0s =? 0)%nat); [discriminate|].
  destruct (selectionV0 config MassK0Short MassLambda0 collision v1); [|discriminate].
  destruct (selectionV0 config MassK0Short MassLambda0 collision v2); [|discriminate].
  cbn [negb].
  destruct (isSelectedV0Daughter config (tracks (negTrackId v1)) (-1) _); [|discriminate].
  destruct (isSelectedV0Daughter config (tracks (posTrackId v1)) 1 _); [|discriminate].
  destruct (isSelectedV0Daughter config (tracks (posTrackId v2)) 1 _); [|discriminate].
  destruct (isSelectedV0Daughter config (tracks (negTrackId v2)) (-1) _); [|discriminate].
  cbn [andb negb].
  destruct (Z.leb_spec (globalIndex v2) (globalIndex v1)); [discriminate|].
  destruct (Z.eqb_spec (posTrackId v1) (posTrackId v2)); [discriminate|].
  destruct (Z.eqb_spec (negTrackId v1) (negTrackId v2)); [discriminate|].
  intros _. repeat split; assumption.
Qed.

(** What holds when the body of the mixed-event loop reaches its end. *)
Lemma meGate_accepted (c1 c2 : Collision) (groupV01 groupV02 : list V0) (t1 t2 : V0) :
  meGate config MassK0Short MassLambda0 tracks c1 c2 groupV01 groupV02 t1 t2 = PairAccepted ->
  isSelectedV0Daughter config (tracks (negTrackId t1)) (-1)
                       (tpcNSigmaPi (tracks (negTrackId t1))) = true
  /\ isSelectedV0Daughter config (tracks (posTrackId t1)) 1
                          (tpcNSigmaPi (tracks (posTrackId t1))) = true
  /\ isSelectedV0Daughter config (tracks (posTrackId t2)) 1
                          (tpcNSigmaPi (tracks (posTrackId t2))) = true
  /\ isSelectedV0Daughter config (tracks (negTrackId t2)) (-1)
                          (tpcNSigmaPi (tracks (negTrackId t2))) = true
  /\ posTrackId t1 <> posTrackId t2
  /\ negTrackId t1 <> negTrackId t2.
Proof.
  unfold meGate.
  destruct ((List.length groupV01 =? 0)%nat || (List.length groupV02 =? 0)%nat); [discriminate|].
  destruct (selectionV0 config MassK0Short MassLambda0 c1 t1); [|discriminate].
  destruct (selectionV0 config MassK0Short MassLambda0 c2 t2); [|discriminate].
  cbn [negb].
  destruct (Z.eqb_spec (posTrackId t1) (posTrackId t2)); [discriminate|].
  destruct (Z.eqb_spec (negTrackId t1) (negTrackId t2)); [discriminate|].
  destruct (isSelectedV0Daughter config (tracks (posTrackId t1)) 1 _); [|discriminate].
  destruct (isSelectedV0Daughter config (tracks (posTrackId t2)) 1 _); [|discriminate].
  destruct (isSelectedV0Daughter config (tracks (negTrackId t1)) (-1) _); [|discriminate].
  destruct (isSelectedV0Daughter config (tracks (negTrackId t2)) (-1) _); [|discriminate].
  intros _. repeat split; assumption.
Qed.

(** Four accepted daughters with two distinct positive and two distinct
    negative tracks cannot share a track once every track is charged. *)
Lemma accepted_daughters_disjoint (v1 v2 : V0) :
  (forall i, sign (tracks i) = 1%Z \/ sign (tracks i) = (-1)%Z) ->
  isSelectedV0Daughter config (tracks (negTrackId v1)) (-1)
                       (tpcNSigmaPi (tracks (negTrackId v1))) = true ->
  isSelectedV0Daughter config (tracks (posTrackId v1)) 1
                       (tpcNSigmaPi (tracks (posTrackId v1))) = true ->
  isSelectedV0Daughter config (tracks (posTrackId v2)) 1
                       (tpcNSigmaPi (tracks (posTrackId v2))) = true ->
  isSelectedV0Daughter config (tracks (negTrackId v2)) (-1)
                       (tpcNSigmaPi (tracks (negTrackId v2))) = true ->
  posTrackId v1 <> posTrackId v2 ->
  negTrackId v1 <> negTrackId v2 ->
  ~ sharesTrack v1 v2.
Proof.
  intros Hsign Hn1 Hp1 Hp2 Hn2 Hpp Hnn [H|[H|[H|H]]]; try contradiction.
  - apply isSelectedV0Daughter_positive in Hp1.
    apply isSelectedV0Daughter_negative in Hn2.
    rewrite H in Hp1. destruct (Hsign (negTrackId v2)); lia.
  - apply isSelectedV0Daughter_negative in Hn1.
    apply isSelectedV0Daughter_positive in Hp2.
    rewrite H in Hn1. destruct (Hsign (posTrackId v2)); lia.
Qed.

(** A pair the same-event body does not accept leaves the data members,
    the flag and the fills as they were. *)
Lemma seBody_rejected (collision : Collision) (V0s : list V0) (l : SELoop) (v1 v2 : V0) :
  seGate config MassK0Short MassLambda0 tracks collision V0s v1 v2 <> PairAccepted ->
  let l' := seBody config MassK0Short MassLambda0 tracks collision V0s l (v1, v2) in
  seFilled l' = seFilled l
  /\ seMembers l' = seMembers l
  /\ allConditionsMet l' = allConditionsMet l.
Proof.
  intros Hg. unfold seBody.
  destruct (seGate config MassK0Short MassLambda0 tracks collision V0s v1 v2);
    try contradiction; cbn zeta;
    try (repeat split; reflexivity);
    unfold pushIndex; destruct (existsb _ _); repeat split; reflexivity.
Qed.

Lemma meBody_rejected (c1 c2 : Collision) (groupV01 groupV02 : list V0)
      (acc : list Fill * Members) (t1 t2 : V0) :
  meGate config MassK0Short MassLambda0 tracks c1 c2 groupV01 groupV02 t1 t2 <> PairAccepted ->
  meBody config MassK0Short MassLambda0 tracks c1 c2 groupV01 groupV02 acc (t1, t2) = acc.
Proof.
  intros Hg. unfold meBody. destruct acc as [filled s].
  destruct (meGate config MassK0Short MassLambda0 tracks c1 c2 groupV01 groupV02 t1 t2);
    try contradiction; reflexivity.
Qed.

(** Two candidates with the same positive or the same negative daughter
    are refused by both loops, whatever the track signs are. *)
Lemma same_charge_shared_track_refused (v1 v2 : V0) :
  posTrackId v1 = posTrackId v2 \/ negTrackId v1 = negTrackId v2 ->
  (forall collision V0s,
      seGate config MassK0Short MassLambda0 tracks collision V0s v1 v2 <> PairAccepted)
  /\ (forall c1 c2 groupV01 groupV02,
         meGate config MassK0Short MassLambda0 tracks c1 c2 groupV01 groupV02 v1 v2
         <> PairAccepted).
Proof.
  intros Hsame. split.
  - intros collision V0s Hacc. apply seGate_accepted in Hacc.
    destruct Hacc as (_ & _ & _ & _ & _ & Hpp & Hnn). tauto.
  - intros c1 c2 g1 g2 Hacc. apply meGate_accepted in Hacc.
    destruct Hacc as (_ & _ & _ & _ & Hpp & Hnn). tauto.
Qed.

End SharedTracks.

(** C1: a pair of V0 candidates that share a daughter track is excluded
    by the same-event and by the mixed-event pair loop: the body leaves
    before its end, and the fills, the pair four-vectors and the
    acceptance flag stay as they were.  Tracks are charged: the sign
    column is 1 or -1. *)
Theorem shared_track_pair_excluded :
  forall (config : HigherMassResonances.Config) (MassK0Short MassLambda0 : R)
         (tracks : Z -> HigherMassResonances.Track),
    (forall i, HigherMassResonances.sign (tracks i) = 1%Z
               \/ HigherMassResonances.sign (tracks i) = (-1)%Z) ->
    forall v1 v2 : HigherMassResonances.V0,
      HigherMassResonances.sharesTrack v1 v2 ->
      (forall collision V0s l,
          let l' := HigherMassResonances.seBody
                      config MassK0Short MassLambda0 tracks collision V0s l (v1, v2) in
          HigherMassResonances.seGate
            config MassK0Short MassLambda0 tracks collision V0s v1 v2
          <> HigherMassResonances.PairAccepted
          /\ HigherMassResonances.seFilled l' = HigherMassResonances.seFilled l
          /\ HigherMassResonances.seMembers l' = HigherMassResonances.seMembers l
          /\ HigherMassResonances.allConditionsMet l'
             = HigherMassResonances.allConditionsMet l)
      /\ (forall c1 c2 groupV01 groupV02 acc,
             HigherMassResonances.meGate
               config MassK0Short MassLambda0 tracks c1 c2 groupV01 groupV02 v1 v2
             <> HigherMassResonances.PairAccepted
             /\ HigherMassResonances.meBody
                  config MassK0Short MassLambda0 tracks c1 c2 groupV01 groupV02 acc (v1, v2)
                = acc).
Proof.
  intros config MK ML tracks Hsign v1 v2 Hshare. split.
  - intros collision V0s l l'.
    assert (Hg : HigherMassResonances.seGate config MK ML tracks collision V0s v1 v2
                 <> HigherMassResonances.PairAccepted).
    { intros Hacc. apply seGate_accepted in Hacc.
      destruct Hacc as (Hn1 & Hp1 & Hp2 & Hn2 & _ & Hpp & Hnn).
      exact (accepted_daughters_disjoint config tracks v1 v2
               Hsign Hn1 Hp1 Hp2 Hn2 Hpp Hnn Hshare). }
    split; [exact Hg|]. apply seBody_rejected. exact Hg.
  - intros c1 c2 g1 g2 acc.
    assert (Hg : HigherMassResonances.meGate config MK ML tracks c1 c2 g1 g2 v1 v2
                 <> HigherMassResonances.PairAccepted).
    { intros Hacc. apply meGate_accepted in Hacc.
      destruct Hacc as (Hn1 & Hp1 & Hp2 & Hn2 & Hpp & Hnn).
      exact (accepted_daughters_disjoint config tracks v1 v2
               Hsign Hn1 Hp1 Hp2 Hn2 Hpp Hnn Hshare). }
    split; [exact Hg|]. apply meBody_rejected. exact Hg.
Qed.

(** ** The same-event pair loop: every pair once, in index order *)

Section ListFacts.

Context {A B : Type}.





End ListFacts.

Section SameEventPairs.
Import GenVector HigherMassResonances.

Variable config : Config.
Variable MassK0Short MassLambda0 : R.
Variable tracks : Z -> Track.
Variable collision : Collision.


Lemma applyAngSep_sym (v1 v2 : V0) : applyAngSep config v1 v2 = applyAngSep config v2 v1.
Proof.
  unfold applyAngSep.
  replace ((eta v2 - eta v1) ^ 2 + (phi v2 - phi v1) ^ 2)
    with ((eta v1 - eta v2) ^ 2 + (phi v1 - phi v2) ^ 2) by ring.
  reflexivity.
Qed.





End SameEventPairs.


(** ** The pair loops as folds over the accepted pairs *)

Section PairLoops.
Import GenVector HigherMassResonances.

Variable config : Config.
Variable MassK0Short MassLambda0 : R.
Variable tracks : Z -> Track.

Lemma pushIndex_keeps (l : SELoop) (v : V0) :
  seFilled (pushIndex l v) = seFilled l
  /\ seMembers (pushIndex l v) = seMembers l
  /\ allConditionsMet (pushIndex l v) = allConditionsMet l.
Proof. unfold pushIndex. destruct (existsb _ _); repeat split; reflexivity. Qed.

(** One turn of the same-event loop, seen from the fills and the data
    members, when every accepted pair is filled at once. *)
Lemma seBody_step (collision : Collision) (V0s : list V0) (l : SELoop) (pair : V0 * V0) :
  selectTWOKsOnly config = false ->
  let l' := seBody config MassK0Short MassLambda0 tracks collision V0s l pair in
  (seFilled l', seMembers l')
  = if isAccepted (seGate config MassK0Short MassLambda0 tracks collision V0s (fst pair) (snd pair))
    then fillPair config MassK0Short false (seFilled l, seMembers l) pair
    else (seFilled l, seMembers l).
Proof.
  intros Htwo. destruct pair as [v1 v2]. cbn [fst snd].
  destruct (pushIndex_keeps l v1) as (Hf & Hm & _).
  unfold seBody.
  destruct (seGate config MassK0Short MassLambda0 tracks collision V0s v1 v2); cbn [isAccepted];
    try reflexivity; try (rewrite Hf, Hm; reflexivity).
  rewrite Htwo; cbn [negb]. unfold fillPair; cbn [fst snd]. rewrite Hf, Hm.
  destruct (fillInvMass config _ _ _ _ _ false) as [fills s']. reflexivity.
Qed.

Lemma se_loop_fills (collision : Collision) (V0s : list V0) (combos : list (V0 * V0)) :
  selectTWOKsOnly config = false ->
  forall l : SELoop,
    (seFilled (fold_left (seBody config MassK0Short MassLambda0 tracks collision V0s) combos l),
     seMembers (fold_left (seBody config MassK0Short MassLambda0 tracks collision V0s) combos l))
    = fold_left (fillPair config MassK0Short false)
                (filter (fun pair => isAccepted (seGate config MassK0Short MassLambda0 tracks collision V0s (fst pair) (snd pair)))
                        combos)
                (seFilled l, seMembers l).
Proof.
  intros Htwo. induction combos as [|pair combos IH]; intros l; [reflexivity|].
  cbn [fold_left filter]. rewrite IH.
  pose proof (seBody_step collision V0s l pair Htwo) as Hstep. cbv zeta in Hstep.
  rewrite Hstep. destruct (isAccepted _); reflexivity.
Qed.

(** With [selectTWOKsOnly] off, [processSE] on a selected event is the
    sequence of [fillInvMass] calls on the accepted pairs. *)
Lemma processSE_fills (s : Members) (collision : Collision) (V0s : list V0) :
  selectTWOKsOnly config = false ->
  eventselection config collision = true ->
  requireRCTFlagChecker config && negb (rctChecker collision) = false ->
  processSE config MassK0Short MassLambda0 tracks s collision V0s
  = fold_left (fillPair config MassK0Short false)
              (sePairs config MassK0Short MassLambda0 tracks collision V0s)
              ([], set_multiplicity s (if cfgMultFOTM config then centFT0M collision
                                       else centFT0C collision)).
Proof.
  intros Htwo Hev Hrct. unfold processSE. rewrite Hev, Hrct, Htwo. cbn [negb andb].
  unfold sePairs.
  exact (se_loop_fills collision V0s (combinations V0s V0s) Htwo (mkSELoop [] false _ [])).
Qed.

(** One turn of the same-event loop when the fill is left to the end of
    the event: no fill, the member four-vectors follow the accepted pairs. *)
Lemma seBody_step_two (collision : Collision) (V0s : list V0) (l : SELoop) (pair : V0 * V0) :
  selectTWOKsOnly config = true ->
  let l' := seBody config MassK0Short MassLambda0 tracks collision V0s l pair in
  let accepted := isAccepted (seGate config MassK0Short MassLambda0 tracks collision V0s (fst pair) (snd pair)) in
  seFilled l' = seFilled l
  /\ seMembers l' = (if accepted then setPair MassK0Short (seMembers l) pair else seMembers l)
  /\ allConditionsMet l' = accepted || allConditionsMet l.
Proof.
  intros Htwo. destruct pair as [v1 v2]. cbn [fst snd].
  destruct (pushIndex_keeps l v1) as (Hf & Hm & Ha).
  unfold seBody.
  destruct (seGate config MassK0Short MassLambda0 tracks collision V0s v1 v2); cbn [isAccepted orb];
    try (repeat split; reflexivity); try (repeat split; assumption).
  rewrite Htwo; cbn [negb seFilled seMembers allConditionsMet].
  unfold setPair; cbn [fst snd]. rewrite Hf, Hm. repeat split; reflexivity.
Qed.

Lemma se_loop_two (collision : Collision) (V0s : list V0) (combos : list (V0 * V0)) :
  selectTWOKsOnly config = true ->
  forall l : SELoop,
    let l' := fold_left (seBody config MassK0Short MassLambda0 tracks collision V0s) combos l in
    let accepted :=
      filter (fun pair => isAccepted (seGate config MassK0Short MassLambda0 tracks collision V0s (fst pair) (snd pair))) combos in
    seFilled l' = seFilled l
    /\ seMembers l' = fold_left (setPair MassK0Short) accepted (seMembers l)
    /\ allConditionsMet l' = negb (List.length accepted =? 0)%nat || allConditionsMet l.
Proof.
  intros Htwo. induction combos as [|pair combos IH]; intros l.
  - cbn. repeat split; reflexivity.
  - cbn [fold_left filter]. cbv zeta in IH.
    destruct (IH (seBody config MassK0Short MassLambda0 tracks collision V0s l pair)) as (Hf & Hm & Ha).
    destruct (seBody_step_two collision V0s l pair Htwo) as (Hf1 & Hm1 & Ha1).
    rewrite Hf, Hm, Ha, Hf1, Hm1, Ha1.
    destruct (isAccepted _); cbn [fold_left List.length Nat.eqb negb orb].
    + repeat split; try reflexivity. rewrite orb_true_r. reflexivity.
    + repeat split; reflexivity.
Qed.




(** One turn of the mixed-event loop. *)
Lemma meBody_step (c1 c2 : Collision) (groupV01 groupV02 : list V0)
      (acc : list Fill * Members) (pair : V0 * V0) :
  meBody config MassK0Short MassLambda0 tracks c1 c2 groupV01 groupV02 acc pair
  = if isAccepted (meGate config MassK0Short MassLambda0 tracks c1 c2 groupV01 groupV02 (fst pair) (snd pair))
    then fillPair config MassK0Short true acc pair
    else acc.
Proof.
  destruct pair as [t1 t2], acc as [filled s]. cbn [fst snd]. unfold meBody.
  destruct (meGate config MassK0Short MassLambda0 tracks c1 c2 groupV01 groupV02 t1 t2); reflexivity.
Qed.

(** The inner loop of the event mixing is the sequence of [fillInvMass]
    calls on the accepted pairs. *)
Lemma me_loop_fills (c1 c2 : Collision) (groupV01 groupV02 : list V0)
      (acc : list Fill * Members) :
  fold_left (meBody config MassK0Short MassLambda0 tracks c1 c2 groupV01 groupV02) (combinations groupV01 groupV02) acc
  = fold_left (fillPair config MassK0Short true)
              (mePairs config MassK0Short MassLambda0 tracks c1 c2 groupV01 groupV02) acc.
Proof.
  unfold mePairs. generalize (combinations groupV01 groupV02) as combos. intros combos.
  revert acc. induction combos as [|pair combos IH]; intros acc; [reflexivity|].
  cbn [fold_left filter]. rewrite IH, meBody_step.
  destruct (isAccepted _); reflexivity.
Qed.

(** With [selectTWOKsOnly] off and a policy active, the loop body adds
    the same-event entry of an accepted pair exactly when the absolute
    rapidity of its composite is below 0.5. *)
Lemma seBody_accepted_DS (collision : Collision) (V0s : list V0) (l : SELoop) (v1 v2 : V0) :
  selectTWOKsOnly config = false ->
  activateTHnSparseCosThStarHelicity config
  || activateTHnSparseCosThStarProduction config
  || activateTHnSparseCosThStarBeam config
  || activateTHnSparseCosThStarRandom config = true ->
  seGate config MassK0Short MassLambda0 tracks collision V0s v1 v2 = PairAccepted ->
  let d1 := kshort MassK0Short v1 in
  let d2 := kshort MassK0Short v2 in
  let m := add d1 d2 in
  exists c,
    filter isDS (seFilled (seBody config MassK0Short MassLambda0 tracks collision V0s l (v1, v2)))
    = filter isDS (seFilled l)
      ++ (if Rltb (Rabs (Rapidity m)) 0.5
          then [mkFill h3glueInvMassDS (multiplicity (seMembers l)) (Pt m) (M m) c
                       (anglePhi m d1)]
          else []).
Proof.
  intros Htwo Hany Hacc d1 d2 m.
  pose proof (seBody_step collision V0s l (v1, v2) Htwo) as Hstep.
  cbv zeta in Hstep. cbn [fst snd] in Hstep. rewrite Hacc in Hstep. cbn [isAccepted] in Hstep.
  unfold fillPair in Hstep. cbn [fst snd] in Hstep. fold d1 d2 m in Hstep.
  destruct (fillInvMass_DS config (set_pair (seMembers l) d1 d2 m false) m
                           (multiplicity (set_pair (seMembers l) d1 d2 m false)) d1 d2 Hany)
    as [c Hc].
  destruct (fillInvMass config (set_pair (seMembers l) d1 d2 m false) m _ d1 d2 false)
    as [fills s'].
  apply (f_equal fst) in Hstep. cbn [fst] in Hstep, Hc.
  exists c. rewrite Hstep, filter_app. f_equal. exact Hc.
Qed.

End PairLoops.

(** ** A concrete event: two K0s candidates under the default configuration *)

Section SampleEvent.
Import GenVector HigherMassResonances.

(** The gates of the same-event loop on two sample candidates whose
    positive daughters sit on even and negative daughters on odd rows. *)
Lemma sample_gate (gi1 p1 n1 gi2 p2 n2 : Z) (V0s : list V0) :
  V0s <> [] ->
  Z.even p1 = true -> Z.even n1 = false -> Z.even p2 = true -> Z.even n2 = false ->
  seGate defaultConfig 0.497611 1.115683 chargedTracks sampleCollision V0s
         (sampleV0 gi1 p1 n1) (sampleV0 gi2 p2 n2)
  = if (gi2 <=? gi1)%Z then IndexOrder
    else if (p1 =? p2)%Z then SharedPosTrack
    else if (n1 =? n2)%Z then SharedNegTrack
    else PairAccepted.
Proof.
  intros Hne Hp1 Hn1 Hp2 Hn2.
  destruct V0s as [|v V0s]; [contradiction Hne; reflexivity|].
  unfold seGate, selectionV0, isSelectedV0Daughter, applyAngSep, Rgtb, Rgeb.
  cbn [defaultConfig sampleV0 chargedTracks sampleCollision
        cDCAv0topv confKsrapidity confV0PtMin confV0DCADaughMax confV0CPAMin
        confV0TranRadV0Min confV0TranRadV0Max cMaxV0LifeTime applyCompetingcut
        cWidthKs0 cSigmaMassKs0 hasTPC globalTracks tpcCrossedrows tpcCrossedrowsOverfcls
        confDaughTPCnclsMin confDaughEta confDaughPIDCuts cMaxV0DCA competingcascrejlambda
        applyAngSepCut angSepCut
        pt v0radius dcaV0daughters v0cosPA dcav0topv yK0Short mK0Short mLambda mAntiLambda
        distovertotmom posX posY posZ negTrackId posTrackId globalIndex
        sign trackEta tpcNClsFound trackHasTPC tpcNClsCrossedRows
        tpcCrossedRowsOverFindableCls isGlobalTrack tpcNSigmaPi andb negb orb
        List.length Nat.eqb].
  rewrite Hp1, Hn1, Hp2, Hn2.
  decide_R. cbn.
  destruct (gi2 <=? gi1)%Z; [reflexivity|].
  destruct (p1 =? p2)%Z; [reflexivity|].
  destruct (n1 =? n2)%Z; reflexivity.
Qed.

(** Such a sample candidate passes the candidate and the daughter
    selection. *)
Lemma sample_candidate_accepted (gi p n : Z) :
  Z.even p = true -> Z.even n = false ->
  candidateAccepted defaultConfig 0.497611 1.115683 chargedTracks sampleCollision
                    (sampleV0 gi p n) = true.
Proof.
  intros Hp Hn.
  unfold candidateAccepted, selectionV0, isSelectedV0Daughter, Rgtb, Rgeb.
  cbn [defaultConfig sampleV0 chargedTracks sampleCollision
        cDCAv0topv confKsrapidity confV0PtMin confV0DCADaughMax confV0CPAMin
        confV0TranRadV0Min confV0TranRadV0Max cMaxV0LifeTime applyCompetingcut
        cWidthKs0 cSigmaMassKs0 hasTPC globalTracks tpcCrossedrows tpcCrossedrowsOverfcls
        confDaughTPCnclsMin confDaughEta confDaughPIDCuts cMaxV0DCA competingcascrejlambda
        pt v0radius dcaV0daughters v0cosPA dcav0topv yK0Short mK0Short mLambda mAntiLambda
        distovertotmom posX posY posZ negTrackId posTrackId
        sign trackEta tpcNClsFound trackHasTPC tpcNClsCrossedRows
        tpcCrossedRowsOverFindableCls isGlobalTrack tpcNSigmaPi andb negb orb].
  rewrite Hp, Hn.
  decide_R. cbn. reflexivity.
Qed.

(** The body of the same-event loop, by the gate at which it leaves. *)
Lemma seBody_at (config : Config) MK ML tracks collision V0s l v1 v2 g :
  seGate config MK ML tracks collision V0s v1 v2 = g ->
  seBody config MK ML tracks collision V0s l (v1, v2)
  = match g with
    | EmptyTable | FirstV0NotSelected | SecondV0NotSelected
    | FirstDaughtersNotSelected | SecondDaughtersNotSelected => l
    | IndexOrder | SharedPosTrack | SharedNegTrack | AngularSeparation => pushIndex l v1
    | PairAccepted =>
        let l1 := pushIndex l v1 in
        let d1 := kshort MK v1 in
        let d2 := kshort MK v2 in
        let m := add d1 d2 in
        let s := set_pair (seMembers l1) d1 d2 m false in
        if negb (selectTWOKsOnly config) then
          let '(fills, s') := fillInvMass config s m (multiplicity s) d1 d2 false in
          mkSELoop (v0indexes l1) true s' (seFilled l1 ++ fills)
        else
          mkSELoop (v0indexes l1) true s (seFilled l1)
    end.
Proof. intros <-. reflexivity. Qed.

(** The loop over the four combinations of the two candidates: both are
    counted, the pair (0, 1) is accepted once, nothing is filled yet. *)
Lemma sample_event_loop (s0 : Members) :
  let v0 := sampleV0 0 2 3 in
  let v1 := sampleV0 1 4 5 in
  fold_left (seBody defaultConfig 0.497611 1.115683 chargedTracks sampleCollision [v0; v1])
            (combinations [v0; v1] [v0; v1]) (mkSELoop [] false s0 [])
  = mkSELoop [0%Z; 1%Z] true
             (set_pair s0 (kshort 0.497611 v0) (kshort 0.497611 v1)
                       (add (kshort 0.497611 v0) (kshort 0.497611 v1)) false) [].
Proof.
  intros v0 v1.
  assert (G00 : seGate defaultConfig 0.497611 1.115683 chargedTracks sampleCollision
                       [v0; v1] v0 v0 = IndexOrder)
    by (unfold v0; rewrite sample_gate by (try discriminate; reflexivity); reflexivity).
  assert (G01 : seGate defaultConfig 0.497611 1.115683 chargedTracks sampleCollision
                       [v0; v1] v0 v1 = PairAccepted)
    by (unfold v0, v1; rewrite sample_gate by (try discriminate; reflexivity); reflexivity).
  assert (G10 : seGate defaultConfig 0.497611 1.115683 chargedTracks sampleCollision
                       [v0; v1] v1 v0 = IndexOrder)
    by (unfold v0, v1; rewrite sample_gate by (try discriminate; reflexivity); reflexivity).
  assert (G11 : seGate defaultConfig 0.497611 1.115683 chargedTracks sampleCollision
                       [v0; v1] v1 v1 = IndexOrder)
    by (unfold v1; rewrite sample_gate by (try discriminate; reflexivity); reflexivity).
  unfold combinations. cbn [list_prod map app fold_left].
  rewrite (seBody_at _ _ _ _ _ _ _ _ _ _ G00).
  rewrite (seBody_at _ _ _ _ _ _ _ _ _ _ G01).
  rewrite (seBody_at _ _ _ _ _ _ _ _ _ _ G10).
  rewrite (seBody_at _ _ _ _ _ _ _ _ _ _ G11).
  reflexivity.
Qed.

(** The composite of the two sample candidates, both with momentum
    (1, 0, 0): momentum (2, 0, 0) and mass twice the hypothesis. *)
Lemma sample_mother :
  add (kshort 0.497611 (sampleV0 0 2 3)) (kshort 0.497611 (sampleV0 1 4 5))
  = mkPxPyPzMraw 2 0 0 (2 * 0.497611).
Proof.
  unfold kshort, sampleV0; cbn [px py pz].
  unfold add. rewrite !E_of_mass by lra.
  unfold PxPyPzMVector_of, Rgeb. rewrite Rleb_le by lra. cbn [Px Py Pz].
  unfold toPxPyPzM, eM, eM2, Rgeb; cbn [ePx ePy ePz eE].
  set (e := sqrt (1 * 1 + 0 * 0 + 0 * 0 + 0.497611 * 0.497611)).
  assert (He : e * e = 1 + 0.497611 * 0.497611).
  { unfold e. rewrite sqrt_sqrt by lra. lra. }
  replace ((e + e) * (e + e) - (1 + 1) * (1 + 1) - (0 + 0) * (0 + 0) - (0 + 0) * (0 + 0))
    with ((2 * 0.497611) * (2 * 0.497611)) by nra.
  rewrite Rleb_le by lra. rewrite sqrt_square by lra.
  f_equal; lra.
Qed.

Lemma Rapidity_transverse (px py m : R) :
  0 < m -> Rapidity (mkPxPyPzMraw px py 0 m) = 0.
Proof.
  intros Hm. unfold Rapidity. rewrite E_raw by lra. cbn [Pz].
  assert (Hs : 0 < sqrt (px * px + py * py + 0 * 0 + m * m)) by (apply sqrt_lt_R0; nra).
  replace ((sqrt (px * px + py * py + 0 * 0 + m * m) + 0)
           / (sqrt (px * px + py * py + 0 * 0 + m * m) - 0)) with 1 by (field; lra).
  rewrite ln_1. lra.
Qed.

(** Under the default configuration (beam axis, [selectTWOKsOnly] on) the
    event with the two sample candidates records exactly one same-event
    entry: multiplicity 10, pT 2, mass 2 * 0.497611. *)
Lemma sample_event_recorded :
  exists cosThetaStar angle_phi,
    filter isDS
           (fst (processSE defaultConfig 0.497611 1.115683 chargedTracks initialMembers
                           sampleCollision [sampleV0 0 2 3; sampleV0 1 4 5]))
    = [mkFill h3glueInvMassDS 10 2 (2 * 0.497611) cosThetaStar angle_phi].
Proof.
  unfold processSE.
  replace (eventselection defaultConfig sampleCollision) with true by reflexivity.
  replace (requireRCTFlagChecker defaultConfig && negb (rctChecker sampleCollision))
    with false by reflexivity.
  cbn [negb]. rewrite sample_event_loop.
  cbn [v0indexes allConditionsMet seMembers seFilled List.length].
  replace (selectTWOKsOnly defaultConfig && (Z.of_nat 2 =? 2)%Z && true) with true
    by reflexivity.
  cbn [mother daughter1 daughter2 multiplicity set_pair set_multiplicity app].
  replace (if cfgMultFOTM defaultConfig then centFT0M sampleCollision
           else centFT0C sampleCollision) with 10 by reflexivity.
  rewrite sample_mother.
  match goal with
  | |- context [fillInvMass ?c ?s ?m ?mu ?d1 ?d2 false] =>
      destruct (fillInvMass_DS c s m mu d1 d2 eq_refl) as [cst Hds];
      destruct (fillInvMass c s m mu d1 d2 false) as [fills s'] eqn:Hfill
  end.
  cbn [fst] in *. rewrite Hds.
  rewrite Rapidity_transverse by lra.
  rewrite Rltb_lt by (rewrite Rabs_R0; lra).
  unfold Pt; cbn [Px Py M].
  replace (2 * 2 + 0 * 0) with (2 * 2) by lra. rewrite sqrt_square by lra.
  eexists _, _. reflexivity.
Qed.

End SampleEvent.

(** ** The theorems on the pair loops and on [fillInvMass] at the sample event *)

Lemma chargedTracks_sign (i : Z) :
  HigherMassResonances.sign (chargedTracks i) = 1%Z
  \/ HigherMassResonances.sign (chargedTracks i) = (-1)%Z.
Proof. unfold chargedTracks; cbn. destruct (Z.even i); [left | right]; reflexivity. Qed.

Lemma shared_track_pair_excluded_witness :
  (forall i, HigherMassResonances.sign (chargedTracks i) = 1%Z
             \/ HigherMassResonances.sign (chargedTracks i) = (-1)%Z)
  /\ HigherMassResonances.sharesTrack (sampleV0 0 2 3) (sampleV0 1 4 2)
  /\ HigherMassResonances.seGate
       defaultConfig 0.497611 1.115683 chargedTracks sampleCollision
       [sampleV0 0 2 3; sampleV0 1 4 2] (sampleV0 0 2 3) (sampleV0 1 4 2)
     <> HigherMassResonances.PairAccepted.
Proof.
  split; [exact chargedTracks_sign|].
  split; [right; right; left; reflexivity|].
  apply (shared_track_pair_excluded
           defaultConfig 0.497611 1.115683 chargedTracks chargedTracks_sign
           (sampleV0 0 2 3) (sampleV0 1 4 2) (or_intror (or_intror (or_introl eq_refl)))).
  exact (HigherMassResonances.mkSELoop [] false initialMembers []).
Defined.

Lemma sample_indices_distinct :
  NoDup (map HigherMassResonances.globalIndex [sampleV0 0 2 3; sampleV0 1 4 5]).
Proof.
  cbn. constructor.
  - intros [H|[]]. discriminate H.
  - constructor; [intros [] | constructor].
Qed.



(** ** The D0 selector: candidates below the first pT edge *)

Section LowPt.
Import HfCandidateSelectorD0Alice3Barrel.

Lemma findBin_below_front (front : R) (rest : list R) (value : R) :
  value < front -> findBin (front :: rest) value = (-1)%Z.
Proof. intros H. unfold findBin. rewrite Rltb_lt by exact H. reflexivity. Qed.

End LowPt.

(** C5: for a candidate whose pT lies below the first configured pT bin
    edge, the bin lookup returns the sentinel -1, both topological
    selections return false whatever the cut values, the tracks and the
    other candidate quantities are, and the row written for the candidate
    has every selection status at 0; the functions are total, no error
    arises. *)
Theorem below_lowest_bin_rejected :
  forall (ptCandMin ptCandMax : R) (binsPt : list R) (cuts : Z -> string -> R)
         (invMassD0ToPiK invMassD0barToKPi cosThetaStarD0 cosThetaStarD0bar :
            HfCandidateSelectorD0Alice3Barrel.Candidate -> R)
         (MassD0 : R) (D0ToPiK : Z)
         (tracks : Z -> HfCandidateSelectorD0Alice3Barrel.Track)
         (candidate : HfCandidateSelectorD0Alice3Barrel.Candidate)
         (front : R) (rest : list R),
    binsPt = front :: rest ->
    HfCandidateSelectorD0Alice3Barrel.pt candidate < front ->
    HfCandidateSelectorD0Alice3Barrel.findBin
      binsPt (HfCandidateSelectorD0Alice3Barrel.pt candidate) = (-1)%Z
    /\ HfCandidateSelectorD0Alice3Barrel.selectionTopol
         ptCandMin ptCandMax binsPt cuts candidate = false
    /\ (forall trackPion trackKaon,
           HfCandidateSelectorD0Alice3Barrel.selectionTopolConjugate
             binsPt cuts invMassD0ToPiK invMassD0barToKPi cosThetaStarD0 cosThetaStarD0bar
             MassD0 candidate trackPion trackKaon = false)
    /\ (let row := HfCandidateSelectorD0Alice3Barrel.processCandidate
                     ptCandMin ptCandMax binsPt cuts invMassD0ToPiK invMassD0barToKPi
                     cosThetaStarD0 cosThetaStarD0bar MassD0 D0ToPiK tracks candidate in
        HfCandidateSelectorD0Alice3Barrel.statusD0NoPid row = 0%Z
        /\ HfCandidateSelectorD0Alice3Barrel.statusD0PerfectPid row = 0%Z
        /\ HfCandidateSelectorD0Alice3Barrel.statusD0TofPid row = 0%Z
        /\ HfCandidateSelectorD0Alice3Barrel.statusD0RICHPID row = 0%Z
        /\ HfCandidateSelectorD0Alice3Barrel.statusD0TofPlusRichPid row = 0%Z
        /\ HfCandidateSelectorD0Alice3Barrel.statusD0barTofPlusRichPid row = 0%Z).
Proof.
  intros ptCandMin ptCandMax binsPt cuts iD0 iD0bar cD0 cD0bar MassD0 D0ToPiK tracks
         candidate front rest Hbins Hpt.
  subst binsPt.
  pose proof (findBin_below_front front rest _ Hpt) as Hbin.
  assert (Htopol : HfCandidateSelectorD0Alice3Barrel.selectionTopol
                     ptCandMin ptCandMax (front :: rest) cuts candidate = false).
  { unfold HfCandidateSelectorD0Alice3Barrel.selectionTopol. rewrite Hbin. reflexivity. }
  split; [exact Hbin|]. split; [exact Htopol|]. split.
  - intros trackPion trackKaon.
    unfold HfCandidateSelectorD0Alice3Barrel.selectionTopolConjugate.
    rewrite Hbin. reflexivity.
  - unfold HfCandidateSelectorD0Alice3Barrel.processCandidate. rewrite Htopol.
    destruct (Z.land _ _ =? 0)%Z; cbn; repeat split; reflexivity.
Qed.

Lemma below_lowest_bin_rejected_witness :
  sampleBinsPt = 1 :: [2; 4; 8]
  /\ HfCandidateSelectorD0Alice3Barrel.pt lowPtCandidate < 1
  /\ HfCandidateSelectorD0Alice3Barrel.findBin
       sampleBinsPt (HfCandidateSelectorD0Alice3Barrel.pt lowPtCandidate) = (-1)%Z
  /\ HfCandidateSelectorD0Alice3Barrel.selectionTopol
       0 50 sampleBinsPt (fun _ _ => 0) lowPtCandidate = false.
Proof.
  assert (Hbins : sampleBinsPt = 1 :: [2; 4; 8]) by reflexivity.
  assert (Hpt : HfCandidateSelectorD0Alice3Barrel.pt lowPtCandidate < 1)
    by (unfold lowPtCandidate; cbn; lra).
  split; [exact Hbins|]. split; [exact Hpt|].
  pose proof (below_lowest_bin_rejected
                0 50 sampleBinsPt (fun _ _ => 0)
                (fun _ => 0) (fun _ => 0) (fun _ => 0) (fun _ => 0)
                1.86484 0%Z sampleHfTrack lowPtCandidate 1 [2; 4; 8] Hbins Hpt) as H.
  split; [exact (proj1 H) | exact (proj1 (proj2 H))].
Defined.

(** * Further properties of [HigherMassResonances] *)

(** ** The composite four-vector *)

Section Composite.
Import GenVector.

(** Storing a Cartesian four-vector as (px, py, pz, M) keeps its energy. *)
Lemma E_toPxPyPzM (e : PxPyPzEVector) :
  0 <= eE e -> E (toPxPyPzM e) = eE e.
Proof.
  intros Ht. unfold E, E2, M2, P2, toPxPyPzM; cbn [Px Py Pz M].
  assert (Hm2 : (if Rgeb (eM e) 0 then eM e * eM e else - (eM e * eM e)) = eM2 e).
  { unfold eM, Rgeb. destruct (Rle_dec 0 (eM2 e)) as [Hmm|Hmm].
    - rewrite (Rleb_le 0 (eM2 e)) by exact Hmm.
      rewrite Rleb_le by apply sqrt_pos. apply sqrt_sqrt. exact Hmm.
    - rewrite (Rleb_gt 0 (eM2 e)) by lra.
      assert (Hs : 0 < sqrt (- eM2 e)) by (apply sqrt_lt_R0; lra).
      rewrite Rleb_gt by lra.
      replace (- sqrt (- eM2 e) * - sqrt (- eM2 e)) with (sqrt (- eM2 e) * sqrt (- eM2 e))
        by ring.
      rewrite sqrt_sqrt by lra. lra. }
  rewrite Hm2. unfold eM2, Rgtb.
  replace (ePx e * ePx e + ePy e * ePy e + ePz e * ePz e
           + (eE e * eE e - ePx e * ePx e - ePy e * ePy e - ePz e * ePz e))
    with (eE e * eE e) by ring.
  destruct (Rlt_dec 0 (eE e * eE e)) as [Hp|Hp].
  - rewrite Rltb_lt by exact Hp. apply sqrt_square. exact Ht.
  - rewrite Rltb_ge by lra. rewrite sqrt_0. nra.
Qed.

Lemma E_nonneg (v : PxPyPzMVector) : 0 <= E v.
Proof. apply sqrt_pos. Qed.

Lemma kshort_raw (m : R) (v : HigherMassResonances.V0) :
  0 <= m ->
  HigherMassResonances.kshort m v
  = mkPxPyPzMraw (HigherMassResonances.px v) (HigherMassResonances.py v)
                 (HigherMassResonances.pz v) m.
Proof.
  intros Hm. unfold HigherMassResonances.kshort, PxPyPzMVector_of, Rgeb.
  rewrite Rleb_le by exact Hm. reflexivity.
Qed.

(** The scalar product of the energies of two vectors of mass [m]
    dominates that of their momenta by [m * m]. *)
Lemma energy_product_bound (a1 a2 a3 b1 b2 b3 m e1 e2 : R) :
  0 <= e1 -> 0 <= e2 ->
  e1 * e1 = a1 * a1 + a2 * a2 + a3 * a3 + m * m ->
  e2 * e2 = b1 * b1 + b2 * b2 + b3 * b3 + m * m ->
  a1 * b1 + a2 * b2 + a3 * b3 + m * m <= e1 * e2.
Proof.
  intros H1 H2 He1 He2.
  set (d := a1 * b1 + a2 * b2 + a3 * b3 + m * m).
  destruct (Rle_dec d 0) as [Hd|Hd]; [nra|].
  assert (Hsq : d * d <= (e1 * e2) * (e1 * e2)).
  { replace ((e1 * e2) * (e1 * e2)) with ((e1 * e1) * (e2 * e2)) by ring.
    rewrite He1, He2. unfold d.
    pose proof (Rle_0_sqr (a1 * b2 - a2 * b1)) as C1.
    pose proof (Rle_0_sqr (a1 * b3 - a3 * b1)) as C2.
    pose proof (Rle_0_sqr (a2 * b3 - a3 * b2)) as C3.
    pose proof (Rle_0_sqr (m * (a1 - b1))) as C4.
    pose proof (Rle_0_sqr (m * (a2 - b2))) as C5.
    pose proof (Rle_0_sqr (m * (a3 - b3))) as C6.
    unfold Rsqr in *. nra. }
  assert (H12 : 0 <= e1 * e2) by nra.
  nra.
Qed.

End Composite.

(** X1: the composite of two candidates is their four-momentum sum: its
    momentum components and its energy are the sums of those of the two
    daughters. *)
Theorem composite_conserves_four_momentum :
  forall (massHypothesis : R) (v1 v2 : HigherMassResonances.V0),
    let d1 := HigherMassResonances.kshort massHypothesis v1 in
    let d2 := HigherMassResonances.kshort massHypothesis v2 in
    let mother := GenVector.add d1 d2 in
    GenVector.Px mother = HigherMassResonances.px v1 + HigherMassResonances.px v2
    /\ GenVector.Py mother = HigherMassResonances.py v1 + HigherMassResonances.py v2
    /\ GenVector.Pz mother = HigherMassResonances.pz v1 + HigherMassResonances.pz v2
    /\ GenVector.E mother = GenVector.E d1 + GenVector.E d2.
Proof.
  intros m v1 v2 d1 d2 mother.
  assert (Hp : forall v, GenVector.Px (HigherMassResonances.kshort m v) = HigherMassResonances.px v
                         /\ GenVector.Py (HigherMassResonances.kshort m v) = HigherMassResonances.py v
                         /\ GenVector.Pz (HigherMassResonances.kshort m v) = HigherMassResonances.pz v).
  { intros v. unfold HigherMassResonances.kshort, GenVector.PxPyPzMVector_of.
    destruct (Rgeb m 0); [repeat split; reflexivity|].
    destruct (Rltb _ 0); repeat split; reflexivity. }
  destruct (Hp v1) as (X1 & Y1 & Z1). destruct (Hp v2) as (X2 & Y2 & Z2).
  unfold mother, GenVector.add.
  split; [cbn; fold d1 d2; unfold d1, d2; rewrite X1, X2; reflexivity|].
  split; [cbn; fold d1 d2; unfold d1, d2; rewrite Y1, Y2; reflexivity|].
  split; [cbn; fold d1 d2; unfold d1, d2; rewrite Z1, Z2; reflexivity|].
  rewrite E_toPxPyPzM; [reflexivity|].
  cbn. pose proof (E_nonneg d1). pose proof (E_nonneg d2). lra.
Qed.

(** X2: with a non-negative mass hypothesis the invariant mass of the
    composite of two candidates is never below twice the hypothesis. *)
Theorem composite_mass_above_threshold :
  forall (massHypothesis : R) (v1 v2 : HigherMassResonances.V0),
    0 <= massHypothesis ->
    2 * massHypothesis
    <= GenVector.M (GenVector.add (HigherMassResonances.kshort massHypothesis v1)
                                  (HigherMassResonances.kshort massHypothesis v2)).
Proof.
  intros m v1 v2 Hm. rewrite !kshort_raw by exact Hm.
  unfold GenVector.add. rewrite !E_raw by exact Hm. cbn [GenVector.Px GenVector.Py GenVector.Pz].
  set (a1 := HigherMassResonances.px v1). set (a2 := HigherMassResonances.py v1).
  set (a3 := HigherMassResonances.pz v1). set (b1 := HigherMassResonances.px v2).
  set (b2 := HigherMassResonances.py v2). set (b3 := HigherMassResonances.pz v2).
  set (e1 := sqrt (a1 * a1 + a2 * a2 + a3 * a3 + m * m)).
  set (e2 := sqrt (b1 * b1 + b2 * b2 + b3 * b3 + m * m)).
  assert (He1 : e1 * e1 = a1 * a1 + a2 * a2 + a3 * a3 + m * m) by (apply sqrt_sqrt; nra).
  assert (He2 : e2 * e2 = b1 * b1 + b2 * b2 + b3 * b3 + m * m) by (apply sqrt_sqrt; nra).
  assert (H1 : 0 <= e1) by apply sqrt_pos.
  assert (H2 : 0 <= e2) by apply sqrt_pos.
  pose proof (energy_product_bound a1 a2 a3 b1 b2 b3 m e1 e2 H1 H2 He1 He2) as Hb.
  unfold GenVector.toPxPyPzM, GenVector.eM, GenVector.eM2, Rgeb; cbn.
  assert (Hmm : (2 * m) * (2 * m)
                <= (e1 + e2) * (e1 + e2) - (a1 + b1) * (a1 + b1)
                   - (a2 + b2) * (a2 + b2) - (a3 + b3) * (a3 + b3)) by nra.
  rewrite Rleb_le by nra.
  rewrite <- (sqrt_square (2 * m)) at 1 by lra.
  apply sqrt_le_1; nra.
Qed.

Lemma composite_mass_above_threshold_witness :
  0 <= 0.497611
  /\ 2 * 0.497611
     <= GenVector.M (GenVector.add (HigherMassResonances.kshort 0.497611 (sampleV0 0 2 3))
                                   (HigherMassResonances.kshort 0.497611 (sampleV0 1 4 5))).
Proof.
  assert (Hm : 0 <= 0.497611) by lra.
  split; [exact Hm|].
  exact (composite_mass_above_threshold 0.497611 (sampleV0 0 2 3) (sampleV0 1 4 5) Hm).
Defined.

(** ** Rotations *)

Section Rotations.
Import GenVector HigherMassResonances.

Lemma rotation_keeps_norm (x y theta : R) :
  (x * cos theta - y * sin theta) * (x * cos theta - y * sin theta)
  + (x * sin theta + y * cos theta) * (x * sin theta + y * cos theta)
  = x * x + y * y.
Proof.
  pose proof (sin2_cos2 theta) as H. unfold Rsqr in H.
  replace ((x * cos theta - y * sin theta) * (x * cos theta - y * sin theta)
           + (x * sin theta + y * cos theta) * (x * sin theta + y * cos theta))
    with ((x * x + y * y) * (sin theta * sin theta + cos theta * cos theta)) by ring.
  rewrite H. ring.
Qed.

(** The constructor keeps the mass of a rotated vector whenever it kept
    that of the vector. *)
Lemma rotated_raw (v : PxPyPzMVector) (theta2 : R) :
  keptMass v ->
  rotated v theta2
  = mkPxPyPzMraw (Px v * cos theta2 - Py v * sin theta2)
                 (Px v * sin theta2 + Py v * cos theta2) (Pz v) (M v).
Proof.
  intros Hk. unfold rotated, PxPyPzMVector_of, Rgeb.
  destruct (Rle_dec 0 (M v)) as [Hm|Hm].
  - rewrite Rleb_le by exact Hm. reflexivity.
  - rewrite Rleb_gt by lra.
    destruct Hk as [Hk|Hk]; [lra|].
    rewrite Rltb_ge; [reflexivity|].
    unfold P2 in *; cbn [Px Py Pz]. rewrite rotation_keeps_norm. lra.
Qed.

Lemma rotated_invariants (v : PxPyPzMVector) (theta2 : R) :
  keptMass v ->
  Pt (rotated v theta2) = Pt v
  /\ Pz (rotated v theta2) = Pz v
  /\ M (rotated v theta2) = M v
  /\ E (rotated v theta2) = E v
  /\ Rapidity (rotated v theta2) = Rapidity v.
Proof.
  intros Hk. rewrite (rotated_raw v theta2 Hk).
  assert (HE : E (mkPxPyPzMraw (Px v * cos theta2 - Py v * sin theta2)
                               (Px v * sin theta2 + Py v * cos theta2) (Pz v) (M v))
               = E v).
  { unfold E, E2, M2, P2; cbn [Px Py Pz M]. rewrite rotation_keeps_norm. reflexivity. }
  split; [unfold Pt; cbn [Px Py]; rewrite rotation_keeps_norm; reflexivity|].
  split; [reflexivity|]. split; [reflexivity|]. split; [exact HE|].
  unfold Rapidity. rewrite HE. reflexivity.
Qed.

Lemma keptMass_of (px py pz m : R) : keptMass (PxPyPzMVector_of px py pz m).
Proof.
  unfold keptMass, PxPyPzMVector_of, Rgeb.
  destruct (Rle_dec 0 m) as [Hm|Hm].
  - rewrite Rleb_le by exact Hm. left. exact Hm.
  - rewrite Rleb_gt by lra. right.
    destruct (Rlt_dec (P2 (mkPxPyPzMraw px py pz m) - m * m) 0) as [Hp|Hp].
    + rewrite Rltb_lt by exact Hp. cbn [M]. unfold P.
      replace (- sqrt (P2 (mkPxPyPzMraw px py pz m)) * - sqrt (P2 (mkPxPyPzMraw px py pz m)))
        with (sqrt (P2 (mkPxPyPzMraw px py pz m)) * sqrt (P2 (mkPxPyPzMraw px py pz m)))
        by ring.
      rewrite sqrt_sqrt by (unfold P2; cbn; nra).
      unfold P2; cbn [Px Py Pz]. lra.
    + rewrite Rltb_ge by lra. cbn [M]. unfold P2 in *; cbn [Px Py Pz] in *. lra.
Qed.

Lemma keptMass_add (a b : PxPyPzMVector) : keptMass (add a b).
Proof.
  unfold keptMass, add, toPxPyPzM, eM, eM2, Rgeb, P2; cbn [Px Py Pz M ePx ePy ePz eE].
  set (x := Px a + Px b). set (y := Py a + Py b). set (z := Pz a + Pz b).
  set (t := E a + E b).
  destruct (Rle_dec 0 (t * t - x * x - y * y - z * z)) as [Hmm|Hmm].
  - rewrite Rleb_le by exact Hmm. left. apply sqrt_pos.
  - rewrite Rleb_gt by lra. right.
    replace (- sqrt (- (t * t - x * x - y * y - z * z))
             * - sqrt (- (t * t - x * x - y * y - z * z)))
      with (sqrt (- (t * t - x * x - y * y - z * z))
            * sqrt (- (t * t - x * x - y * y - z * z))) by ring.
    rewrite sqrt_sqrt by lra. nra.
Qed.

Lemma rotationAngles_length (config : Config) (n : nat) (g : TRandom) :
  List.length (rotationAngles config n g) = n.
Proof.
  revert g. induction n as [|n IH]; intros g; [reflexivity|].
  cbn [rotationAngles]. destruct (drawTheta2 config g) as [theta2 g1].
  cbn [List.length]. rewrite IH. reflexivity.
Qed.

Lemma flat_map_same {A B : Type} (f : A -> list B) (l : list B) (xs : list A) :
  (forall x, f x = l) -> flat_map f xs = List.concat (repeat l (List.length xs)).
Proof.
  intros H. induction xs as [|x xs IH]; [reflexivity|].
  cbn. rewrite H, IH. reflexivity.
Qed.

(** In the branches that rotate the mother, the entry of a rotation does
    not depend on the angle: it is the same-event entry under another
    histogram name. *)
Lemma rotationMother_copy (mult : R) (m : PxPyPzMVector) (c angle_phi theta2 : R) :
  keptMass m ->
  rotationMother mult m c angle_phi theta2
  = if Rltb (Rabs (Rapidity m)) 0.5
    then [mkFill h3glueInvMassRot mult (Pt m) (M m) c angle_phi] else [].
Proof.
  intros Hk. unfold rotationMother.
  destruct (rotated_invariants m theta2 Hk) as (Hpt & _ & Hm & _ & Hy).
  rewrite Hpt, Hm, Hy. reflexivity.
Qed.

Lemma fillBranch_mother_copies (config : Config) s gR m mult c angle_phi :
  keptMass m ->
  let out := fst (fillBranch config s gR m mult c angle_phi false
                             (rotationMother mult m c angle_phi)) in
  filter isRot out
  = flat_map (fun f => repeat (inHistogram h3glueInvMassRot f)
                              (Z.to_nat (cRotations config)))
             (filter isDS out).
Proof.
  intros Hk out. unfold out.
  rewrite fillBranch_Rot by (intros; apply rotationMother_Rot).
  rewrite fillBranch_DS by (intros; apply rotationMother_Rot).
  rewrite (flat_map_same _ _ _ (fun theta2 => rotationMother_copy mult m c angle_phi theta2 Hk)).
  rewrite rotationAngles_length.
  destruct (Rltb (Rabs (Rapidity m)) 0.5); cbn [flat_map].
  - rewrite app_nil_r. unfold inHistogram; cbn.
    induction (Z.to_nat (cRotations config)) as [|n IH]; [reflexivity|].
    cbn. rewrite IH. reflexivity.
  - induction (Z.to_nat (cRotations config)) as [|n IH]; [reflexivity|].
    cbn. exact IH.
Qed.

End Rotations.

(** X3: the rotation of the rotational background keeps the transverse
    momentum, the longitudinal momentum, the mass and the energy of the
    rotated daughter, whatever the angle. *)
Theorem rotated_daughter_keeps_kinematics :
  forall (massHypothesis : R) (v : HigherMassResonances.V0) (theta2 : R),
    let d := HigherMassResonances.kshort massHypothesis v in
    let daughterRot := HigherMassResonances.rotated d theta2 in
    GenVector.Pt daughterRot = GenVector.Pt d
    /\ GenVector.Pz daughterRot = GenVector.Pz d
    /\ GenVector.M daughterRot = GenVector.M d
    /\ GenVector.E daughterRot = GenVector.E d.
Proof.
  intros m v theta2 d daughterRot.
  destruct (rotated_invariants d theta2 (keptMass_of _ _ _ _)) as (H1 & H2 & H3 & H4 & _).
  repeat split; assumption.
Qed.

(** X4: when the helicity THnSparse is off, the rotational background of
    a pair does not depend on the angles drawn: [h3glueInvMassRot]
    receives [cRotations] copies of the same-event entry of the pair (and
    nothing when the pair has no same-event entry), because rotating the
    mother about the beam changes neither its pT, nor its mass, nor its
    rapidity. *)
Theorem mother_rotation_copies_signal :
  forall (config : HigherMassResonances.Config) (s : HigherMassResonances.Members)
         (daughter1 daughter2 : GenVector.PxPyPzMVector) (multiplicity : R),
    HigherMassResonances.activateTHnSparseCosThStarHelicity config = false ->
    let mother := GenVector.add daughter1 daughter2 in
    let out := fst (HigherMassResonances.fillInvMass
                      config s mother multiplicity daughter1 daughter2 false) in
    filter HigherMassResonances.isRot out
    = flat_map (fun f => repeat (inHistogram HigherMassResonances.h3glueInvMassRot f)
                                (Z.to_nat (HigherMassResonances.cRotations config)))
               (filter HigherMassResonances.isDS out).
Proof.
  intros config s d1 d2 mult Hh mother out. unfold out, HigherMassResonances.fillInvMass.
  rewrite Hh. pose proof (keptMass_add d1 d2) as Hk. fold mother in Hk.
  destruct (HigherMassResonances.activateTHnSparseCosThStarProduction config).
  { apply fillBranch_mother_copies. exact Hk. }
  destruct (HigherMassResonances.activateTHnSparseCosThStarBeam config).
  { apply fillBranch_mother_copies. exact Hk. }
  destruct (HigherMassResonances.activateTHnSparseCosThStarRandom config); [|reflexivity].
  destruct (GenVector.Uniform 0 (2 * PI) (HigherMassResonances.gRandom s)) as [phiRandom g1].
  destruct (GenVector.Uniform 0 PI g1) as [thetaRandom g2].
  apply fillBranch_mother_copies. exact Hk.
Qed.

Lemma mother_rotation_copies_signal_witness :
  HigherMassResonances.activateTHnSparseCosThStarHelicity defaultConfig = false
  /\ (let out := fst (HigherMassResonances.fillInvMass
                        defaultConfig initialMembers
                        (GenVector.add backToBackA backToBackB) 10
                        backToBackA backToBackB false) in
      filter HigherMassResonances.isRot out
      = flat_map (fun f => repeat (inHistogram HigherMassResonances.h3glueInvMassRot f)
                                  (Z.to_nat (HigherMassResonances.cRotations defaultConfig)))
                 (filter HigherMassResonances.isDS out)).
Proof.
  split; [reflexivity|].
  exact (mother_rotation_copies_signal defaultConfig initialMembers
           backToBackA backToBackB 10 eq_refl).
Defined.

(** ** [fillInvMass]: mixed events, the choice of the branch, the generators *)

Section FillInvMassMore.
Import GenVector HigherMassResonances.

Lemma rotationLoop_generator (config : Config) (body : R -> list Fill) (n : nat)
      (g : TRandom) (k : nat) :
  snd (rotationLoop config body n g) k = g (k + n)%nat.
Proof.
  revert g. induction n as [|n IH]; intros g.
  - cbn. rewrite Nat.add_0_r. reflexivity.
  - cbn [rotationLoop]. unfold drawTheta2 at 1, Uniform.
    specialize (IH (fun i => g (S i))).
    destruct (rotationLoop config body n (fun i => g (S i))) as [rest g2].
    cbn [snd] in *. rewrite IH. rewrite Nat.add_succ_r. reflexivity.
Qed.

Lemma rotationLoop_same_cut (config config' : Config) (body : R -> list Fill) (n : nat)
      (g : TRandom) :
  rotationalCut config = rotationalCut config' ->
  rotationLoop config body n g = rotationLoop config' body n g.
Proof.
  intros Hcut. revert g. induction n as [|n IH]; intros g; [reflexivity|].
  cbn [rotationLoop]. unfold drawTheta2. rewrite Hcut.
  destruct (Uniform _ _ g) as [theta2 g1]. rewrite IH. reflexivity.
Qed.

Lemma fillBranch_same (config config' : Config) s gR m mult c angle_phi isMix_ body :
  rotationalCut config = rotationalCut config' ->
  cRotations config = cRotations config' ->
  fillBranch config s gR m mult c angle_phi isMix_ body
  = fillBranch config' s gR m mult c angle_phi isMix_ body.
Proof.
  intros Hcut Hrot. unfold fillBranch.
  rewrite Hrot, (rotationLoop_same_cut config config' body _ _ Hcut). reflexivity.
Qed.

(** The generators after one branch. *)
Lemma fillBranch_generators (config : Config) s gR m mult c angle_phi isMix_ body :
  let s' := snd (fillBranch config s gR m mult c angle_phi isMix_ body) in
  gRandom s' = gR
  /\ daughter1 s' = daughter1 s /\ daughter2 s' = daughter2 s /\ mother s' = mother s
  /\ multiplicity s' = multiplicity s
  /\ forall k, rn s' k
               = rn s (k + (if isMix_ then 0 else Z.to_nat (cRotations config)))%nat.
Proof.
  unfold fillBranch. destruct isMix_; cbn [negb].
  - cbn. repeat split; try reflexivity. intros k. rewrite Nat.add_0_r. reflexivity.
  - pose proof (rotationLoop_generator config body (Z.to_nat (cRotations config)) (rn s))
      as Hg.
    destruct (rotationLoop config body (Z.to_nat (cRotations config)) (rn s)) as [rot g].
    cbn in *. repeat split; try reflexivity. exact Hg.
Qed.

End FillInvMassMore.

(** X5: for a mixed-event pair [fillInvMass] records at most one entry,
    in [h3glueInvMassME], exactly when a branch is enabled and the
    absolute rapidity of the composite is below 0.5; it records no
    rotational background and does not draw from the generator [rn]. *)
Theorem mixed_event_entry :
  forall (config : HigherMassResonances.Config) (s : HigherMassResonances.Members)
         (mother daughter1 daughter2 : GenVector.PxPyPzMVector) (multiplicity : R),
    let r := HigherMassResonances.fillInvMass
               config s mother multiplicity daughter1 daughter2 true in
    (exists cosThetaStar,
        fst r = match activePolicy config with
                | None => []
                | Some _ =>
                    if Rltb (Rabs (GenVector.Rapidity mother)) 0.5
                    then [HigherMassResonances.mkFill
                            HigherMassResonances.h3glueInvMassME multiplicity
                            (GenVector.Pt mother) (GenVector.M mother) cosThetaStar
                            (HigherMassResonances.anglePhi mother daughter1)]
                    else []
                end)
    /\ HigherMassResonances.rn (snd r) = HigherMassResonances.rn s.
Proof.
  intros config s m d1 d2 mult r. unfold r, HigherMassResonances.fillInvMass, activePolicy.
  destruct (HigherMassResonances.activateTHnSparseCosThStarHelicity config).
  { split; [eexists; rewrite fillBranch_fills; reflexivity | reflexivity]. }
  destruct (HigherMassResonances.activateTHnSparseCosThStarProduction config).
  { split; [eexists; rewrite fillBranch_fills; reflexivity | reflexivity]. }
  destruct (HigherMassResonances.activateTHnSparseCosThStarBeam config).
  { split; [eexists; rewrite fillBranch_fills; reflexivity | reflexivity]. }
  destruct (HigherMassResonances.activateTHnSparseCosThStarRandom config).
  { destruct (GenVector.Uniform 0 (2 * PI) (HigherMassResonances.gRandom s)) as [phiRandom g1].
    destruct (GenVector.Uniform 0 PI g1) as [thetaRandom g2].
    split; [eexists; rewrite fillBranch_fills; reflexivity | reflexivity]. }
  split; [exists 0; reflexivity | reflexivity].
Qed.

(** X6: of the four THnSparse flags only the first enabled one, in the
    order helicity, production, beam, random, has an effect: two
    configurations with the same first enabled flag, the same number of
    rotations and the same rotational cut make [fillInvMass] return the
    same entries and leave the same data members. *)
Theorem first_enabled_policy_decides :
  forall (config config' : HigherMassResonances.Config),
    activePolicy config = activePolicy config' ->
    HigherMassResonances.cRotations config = HigherMassResonances.cRotations config' ->
    HigherMassResonances.rotationalCut config = HigherMassResonances.rotationalCut config' ->
    forall (s : HigherMassResonances.Members)
           (mother daughter1 daughter2 : GenVector.PxPyPzMVector)
           (multiplicity : R) (isMix : bool),
      HigherMassResonances.fillInvMass config s mother multiplicity daughter1 daughter2 isMix
      = HigherMassResonances.fillInvMass config' s mother multiplicity daughter1 daughter2 isMix.
Proof.
  intros config config' Hpol Hrot Hcut s m d1 d2 mult isMix_.
  unfold activePolicy in Hpol. unfold HigherMassResonances.fillInvMass.
  destruct (HigherMassResonances.activateTHnSparseCosThStarHelicity config),
    (HigherMassResonances.activateTHnSparseCosThStarHelicity config');
    try (apply fillBranch_same; assumption);
    try (exfalso; revert Hpol;
         repeat match goal with
                | |- context [if ?b then _ else _] => destruct b
                end; discriminate).
  destruct (HigherMassResonances.activateTHnSparseCosThStarProduction config),
    (HigherMassResonances.activateTHnSparseCosThStarProduction config');
    try (apply fillBranch_same; assumption);
    try (exfalso; revert Hpol;
         repeat match goal with
                | |- context [if ?b then _ else _] => destruct b
                end; discriminate).
  destruct (HigherMassResonances.activateTHnSparseCosThStarBeam config),
    (HigherMassResonances.activateTHnSparseCosThStarBeam config');
    try (apply fillBranch_same; assumption);
    try (exfalso; revert Hpol;
         repeat match goal with
                | |- context [if ?b then _ else _] => destruct b
                end; discriminate).
  destruct (HigherMassResonances.activateTHnSparseCosThStarRandom config),
    (HigherMassResonances.activateTHnSparseCosThStarRandom config');
    try discriminate; try reflexivity.
  destruct (GenVector.Uniform 0 (2 * PI) (HigherMassResonances.gRandom s)) as [phiRandom g1].
  destruct (GenVector.Uniform 0 PI g1) as [thetaRandom g2].
  apply fillBranch_same; assumption.
Qed.

Lemma first_enabled_policy_decides_witness :
  activePolicy defaultConfig = activePolicy defaultConfigWithRandom
  /\ HigherMassResonances.cRotations defaultConfig
     = HigherMassResonances.cRotations defaultConfigWithRandom
  /\ HigherMassResonances.rotationalCut defaultConfig
     = HigherMassResonances.rotationalCut defaultConfigWithRandom
  /\ HigherMassResonances.fillInvMass
       defaultConfig initialMembers (GenVector.add backToBackA backToBackB) 10
       backToBackA backToBackB false
     = HigherMassResonances.fillInvMass
         defaultConfigWithRandom initialMembers (GenVector.add backToBackA backToBackB) 10
         backToBackA backToBackB false.
Proof.
  split; [reflexivity|]. split; [reflexivity|]. split; [reflexivity|].
  exact (first_enabled_policy_decides defaultConfig defaultConfigWithRandom
           eq_refl eq_refl eq_refl initialMembers
           (GenVector.add backToBackA backToBackB) backToBackA backToBackB 10 false).
Defined.

(** X7: a call of [fillInvMass] on a same-event pair takes exactly
    [cRotations] deviates from the generator [rn] when a branch is
    enabled (none for a mixed-event pair), and two deviates from
    [gRandom] in the random-axis branch only; the pair four-vectors and
    the multiplicity among the data members are left as they are. *)
Theorem fillInvMass_generators :
  forall (config : HigherMassResonances.Config) (s : HigherMassResonances.Members)
         (mother daughter1 daughter2 : GenVector.PxPyPzMVector)
         (multiplicity : R) (isMix : bool),
    let s' := snd (HigherMassResonances.fillInvMass
                     config s mother multiplicity daughter1 daughter2 isMix) in
    let rotations :=
      match activePolicy config with
      | None => 0%nat
      | Some _ => if isMix then 0%nat
                  else Z.to_nat (HigherMassResonances.cRotations config)
      end in
    let axisDraws :=
      match activePolicy config with Some Random => 2%nat | _ => 0%nat end in
    (forall k, HigherMassResonances.rn s' k = HigherMassResonances.rn s (k + rotations)%nat)
    /\ (forall k, HigherMassResonances.gRandom s' k
                  = HigherMassResonances.gRandom s (k + axisDraws)%nat)
    /\ HigherMassResonances.daughter1 s' = HigherMassResonances.daughter1 s
    /\ HigherMassResonances.daughter2 s' = HigherMassResonances.daughter2 s
    /\ HigherMassResonances.mother s' = HigherMassResonances.mother s
    /\ HigherMassResonances.multiplicity s' = HigherMassResonances.multiplicity s.
Proof.
  intros config s m d1 d2 mult isMix_ s' rotations axisDraws.
  unfold s', rotations, axisDraws, HigherMassResonances.fillInvMass, activePolicy.
  destruct (HigherMassResonances.activateTHnSparseCosThStarHelicity config).
  { match goal with
    | |- context [HigherMassResonances.fillBranch ?c ?s ?g ?m ?mu ?cs ?ph ?mx ?b] =>
        destruct (fillBranch_generators c s g m mu cs ph mx b) as (Hg & H1 & H2 & H3 & H4 & Hr)
    end.
    repeat split; try assumption. intros k. rewrite Hg, Nat.add_0_r. reflexivity. }
  destruct (HigherMassResonances.activateTHnSparseCosThStarProduction config).
  { match goal with
    | |- context [HigherMassResonances.fillBranch ?c ?s ?g ?m ?mu ?cs ?ph ?mx ?b] =>
        destruct (fillBranch_generators c s g m mu cs ph mx b) as (Hg & H1 & H2 & H3 & H4 & Hr)
    end.
    repeat split; try assumption. intros k. rewrite Hg, Nat.add_0_r. reflexivity. }
  destruct (HigherMassResonances.activateTHnSparseCosThStarBeam config).
  { match goal with
    | |- context [HigherMassResonances.fillBranch ?c ?s ?g ?m ?mu ?cs ?ph ?mx ?b] =>
        destruct (fillBranch_generators c s g m mu cs ph mx b) as (Hg & H1 & H2 & H3 & H4 & Hr)
    end.
    repeat split; try assumption. intros k. rewrite Hg, Nat.add_0_r. reflexivity. }
  destruct (HigherMassResonances.activateTHnSparseCosThStarRandom config).
  { unfold GenVector.Uniform.
    match goal with
    | |- context [HigherMassResonances.fillBranch ?c ?s ?g ?m ?mu ?cs ?ph ?mx ?b] =>
        destruct (fillBranch_generators c s g m mu cs ph mx b) as (Hg & H1 & H2 & H3 & H4 & Hr)
    end.
    repeat split; try assumption. intros k. rewrite Hg.
    rewrite !Nat.add_succ_r, Nat.add_0_r. reflexivity. }
  cbn. repeat split; try reflexivity; intros k; rewrite Nat.add_0_r; reflexivity.
Qed.

(** ** The range of the recorded cosThetaStar *)

Section CosThetaStar.
Import GenVector HigherMassResonances.

Lemma Mag2_nonneg (a : XYZVector) : 0 <= Mag2 a.
Proof. unfold Mag2, Dot. nra. Qed.

Lemma Dot_squared_bound (a b : XYZVector) : Dot a b * Dot a b <= Mag2 a * Mag2 b.
Proof.
  unfold Mag2, Dot.
  pose proof (Rle_0_sqr (fX a * fY b - fY a * fX b)) as C1.
  pose proof (Rle_0_sqr (fX a * fZ b - fZ a * fX b)) as C2.
  pose proof (Rle_0_sqr (fY a * fZ b - fZ a * fY b)) as C3.
  unfold Rsqr in *. nra.
Qed.

Lemma ratio_bound (x d : R) : 0 < d -> x * x <= d * d -> -1 <= x / d <= 1.
Proof.
  intros Hd Hx.
  assert (H1 : - d <= x <= d) by nra.
  assert (Hi : 0 < / d) by (apply Rinv_0_lt_compat; exact Hd).
  assert (Hid : d * / d = 1) by (apply Rinv_r; lra).
  unfold Rdiv. split; nra.
Qed.

Lemma cosBetween_bound (a b : XYZVector) :
  0 < Mag2 a -> 0 < Mag2 b -> -1 <= cosBetween a b <= 1.
Proof.
  intros Ha Hb. unfold cosBetween.
  assert (Hsa : 0 < sqrt (Mag2 a)) by (apply sqrt_lt_R0; exact Ha).
  assert (Hsb : 0 < sqrt (Mag2 b)) by (apply sqrt_lt_R0; exact Hb).
  apply ratio_bound; [nra|].
  replace (sqrt (Mag2 b) * sqrt (Mag2 a) * (sqrt (Mag2 b) * sqrt (Mag2 a)))
    with ((sqrt (Mag2 a) * sqrt (Mag2 a)) * (sqrt (Mag2 b) * sqrt (Mag2 b))) by ring.
  rewrite !sqrt_sqrt by lra. apply Dot_squared_bound.
Qed.

Lemma unit_axis_bound (u v : XYZVector) :
  Mag2 u = 1 -> 0 < Mag2 v -> -1 <= Dot u v / sqrt (Mag2 v) <= 1.
Proof.
  intros Hu Hv.
  assert (Hs : 0 < sqrt (Mag2 v)) by (apply sqrt_lt_R0; exact Hv).
  apply ratio_bound; [exact Hs|].
  rewrite sqrt_sqrt by lra.
  pose proof (Dot_squared_bound u v) as H. rewrite Hu in H. lra.
Qed.

Lemma random_axis_unit (thetaRandom phiRandom : R) :
  Mag2 (mkXYZ (sin thetaRandom * cos phiRandom) (sin thetaRandom * sin phiRandom)
              (cos thetaRandom)) = 1.
Proof.
  unfold Mag2, Dot; cbn [fX fY fZ].
  pose proof (sin2_cos2 thetaRandom) as Ht. pose proof (sin2_cos2 phiRandom) as Hp.
  unfold Rsqr in *.
  replace (sin thetaRandom * cos phiRandom * (sin thetaRandom * cos phiRandom)
           + sin thetaRandom * sin phiRandom * (sin thetaRandom * sin phiRandom)
           + cos thetaRandom * cos thetaRandom)
    with (sin thetaRandom * sin thetaRandom * (sin phiRandom * sin phiRandom
                                               + cos phiRandom * cos phiRandom)
          + cos thetaRandom * cos thetaRandom) by ring.
  rewrite Hp. lra.
Qed.

(** The cosThetaStar of the entries of one branch: the one of the pair,
    except for the rotations of the helicity branch. *)
Lemma fillBranch_cos (config : Config) s gR m mult c angle_phi isMix_ body (P : R -> Prop) :
  P c ->
  (forall theta2, Forall (fun f => P (fCosThetaStar f)) (body theta2)) ->
  Forall (fun f => P (fCosThetaStar f))
         (fst (fillBranch config s gR m mult c angle_phi isMix_ body)).
Proof.
  intros Hc Hbody. rewrite fillBranch_fills. destruct isMix_.
  - destruct (Rltb _ 0.5); constructor; [exact Hc | constructor].
  - apply Forall_app. split.
    + destruct (Rltb _ 0.5); constructor; [exact Hc | constructor].
    + apply Forall_flat_map. apply Forall_forall. intros theta2 _. apply Hbody.
Qed.

Lemma rotationMother_cos mult m c angle_phi theta2 (P : R -> Prop) :
  P c -> Forall (fun f => P (fCosThetaStar f)) (rotationMother mult m c angle_phi theta2).
Proof.
  intros Hc. unfold rotationMother.
  destruct (Rltb _ 0.5); constructor; [exact Hc | constructor].
Qed.

Lemma movingMother_boosted_daughter :
  0 < Mag2 (Vect (applyM (Boost_of (BoostToCM movingMother)) sidewaysDaughter)).
Proof.
  assert (Hb : fY (BoostToCM movingMother) = 0 /\ fZ (BoostToCM movingMother) = 0).
  { unfold BoostToCM, movingMother.
    destruct (Reqb _ 0); [destruct (Reqb _ 0)|]; cbn; split; lra. }
  destruct Hb as [Hy Hz].
  assert (Hyy : fY (Vect (applyM (Boost_of (BoostToCM movingMother)) sidewaysDaughter)) = 1).
  { unfold applyM, toPxPyPzM, Vect, applyE, Boost_of; cbn [Px Py Pz fX fY fZ ePx ePy ePz].
    rewrite Hy, Hz. unfold sidewaysDaughter, toPxPyPzE; cbn [Px Py Pz ePx ePy ePz eE].
    destruct (Rgeb _ 1); cbn [kXX kXY kXZ kXT kYY kYZ kYT kZZ kZT kTT Boost_identity]; lra. }
  unfold Mag2, Dot. rewrite Hyy. nra.
Qed.

End CosThetaStar.

(** X8: for a composite with transverse momentum and a first daughter
    that is not at rest in the rest frame of the composite, every
    same-event and every mixed-event entry of [fillInvMass] has its
    cosThetaStar within [-1, 1], in each of the four branches; so have
    the rotational-background entries of the production, beam and random
    branches. *)
Theorem cosThetaStar_within_unit_interval :
  forall (config : HigherMassResonances.Config) (s : HigherMassResonances.Members)
         (mother daughter1 daughter2 : GenVector.PxPyPzMVector)
         (multiplicity : R) (isMix : bool),
    0 < GenVector.Px mother * GenVector.Px mother + GenVector.Py mother * GenVector.Py mother ->
    0 < GenVector.Mag2
          (GenVector.Vect
             (GenVector.applyM (GenVector.Boost_of (GenVector.BoostToCM mother)) daughter1)) ->
    Forall (fun f =>
              (HigherMassResonances.hist f = HigherMassResonances.h3glueInvMassRot ->
               HigherMassResonances.activateTHnSparseCosThStarHelicity config = false) ->
              -1 <= HigherMassResonances.fCosThetaStar f <= 1)
           (fst (HigherMassResonances.fillInvMass
                   config s mother multiplicity daughter1 daughter2 isMix)).
Proof.
  intros config s m d1 d2 mult isMix_ Hpt Hdau.
  assert (Hm : 0 < GenVector.Mag2 (GenVector.Vect m)).
  { unfold GenVector.Mag2, GenVector.Dot; cbn. nra. }
  unfold HigherMassResonances.fillInvMass.
  destruct (HigherMassResonances.activateTHnSparseCosThStarHelicity config) eqn:Hh.
  { rewrite fillBranch_fills.
    pose proof (cosBetween_bound _ _ Hm Hdau) as Hc.
    destruct isMix_.
    - destruct (Rltb _ 0.5); constructor; [intros _; exact Hc | constructor].
    - apply Forall_app. split.
      + destruct (Rltb _ 0.5); constructor; [intros _; exact Hc | constructor].
      + apply Forall_flat_map. apply Forall_forall. intros theta2 _.
        eapply Forall_impl; [|apply rotationHelicity_Rot].
        intros f Hf Hrot. specialize (Hrot Hf). discriminate. }
  destruct (HigherMassResonances.activateTHnSparseCosThStarProduction config).
  { eapply Forall_impl;
      [|apply (fillBranch_cos _ _ _ _ _ _ _ _ _ (fun c => -1 <= c <= 1))].
    - intros f Hf _. exact Hf.
    - apply cosBetween_bound; [|exact Hdau].
      unfold GenVector.Mag2, GenVector.Dot; cbn. nra.
    - intros theta2. apply (rotationMother_cos _ _ _ _ _ (fun c => -1 <= c <= 1)).
      apply cosBetween_bound; [|exact Hdau].
      unfold GenVector.Mag2, GenVector.Dot; cbn. nra. }
  destruct (HigherMassResonances.activateTHnSparseCosThStarBeam config).
  { assert (Hc : -1 <= GenVector.Dot (GenVector.mkXYZ 0 0 1)
                         (GenVector.Vect (GenVector.applyM
                            (GenVector.Boost_of (GenVector.BoostToCM m)) d1))
                       / sqrt (GenVector.Mag2 (GenVector.Vect (GenVector.applyM
                            (GenVector.Boost_of (GenVector.BoostToCM m)) d1))) <= 1).
    { apply unit_axis_bound; [|exact Hdau]. unfold GenVector.Mag2, GenVector.Dot; cbn. lra. }
    eapply Forall_impl;
      [|apply (fillBranch_cos _ _ _ _ _ _ _ _ _ (fun c => -1 <= c <= 1))].
    - intros f Hf _. exact Hf.
    - exact Hc.
    - intros theta2. apply (rotationMother_cos _ _ _ _ _ (fun c => -1 <= c <= 1)). exact Hc. }
  destruct (HigherMassResonances.activateTHnSparseCosThStarRandom config); [|constructor].
  destruct (GenVector.Uniform 0 (2 * PI) (HigherMassResonances.gRandom s)) as [phiRandom g1].
  destruct (GenVector.Uniform 0 PI g1) as [thetaRandom g2].
  pose proof (unit_axis_bound _ _ (random_axis_unit thetaRandom phiRandom) Hdau) as Hc.
  eapply Forall_impl;
    [|apply (fillBranch_cos _ _ _ _ _ _ _ _ _ (fun c => -1 <= c <= 1))].
  - intros f Hf _. exact Hf.
  - exact Hc.
  - intros theta2. apply (rotationMother_cos _ _ _ _ _ (fun c => -1 <= c <= 1)). exact Hc.
Qed.

Lemma cosThetaStar_within_unit_interval_witness :
  0 < GenVector.Px movingMother * GenVector.Px movingMother
      + GenVector.Py movingMother * GenVector.Py movingMother
  /\ 0 < GenVector.Mag2
           (GenVector.Vect
              (GenVector.applyM (GenVector.Boost_of (GenVector.BoostToCM movingMother))
                                sidewaysDaughter))
  /\ Forall (fun f =>
               (HigherMassResonances.hist f = HigherMassResonances.h3glueInvMassRot ->
                HigherMassResonances.activateTHnSparseCosThStarHelicity defaultConfig = false) ->
               -1 <= HigherMassResonances.fCosThetaStar f <= 1)
            (fst (HigherMassResonances.fillInvMass
                    defaultConfig initialMembers movingMother 10
                    sidewaysDaughter sidewaysDaughter false)).
Proof.
  assert (Hpt : 0 < GenVector.Px movingMother * GenVector.Px movingMother
                    + GenVector.Py movingMother * GenVector.Py movingMother)
    by (unfold movingMother; cbn; lra).
  split; [exact Hpt|]. split; [exact movingMother_boosted_daughter|].
  exact (cosThetaStar_within_unit_interval defaultConfig initialMembers movingMother
           sidewaysDaughter sidewaysDaughter 10 false Hpt movingMother_boosted_daughter).
Defined.

(** ** The daughter selection and the angular separation *)

(** X9: a track with a charge sign is never accepted both as the positive
    and as the negative daughter of a V0. *)
Theorem daughter_accepted_for_one_charge :
  forall (config : HigherMassResonances.Config) (track : HigherMassResonances.Track)
         (nsigmaPos nsigmaNeg : R),
    HigherMassResonances.sign track <> 0%Z ->
    ~ (HigherMassResonances.isSelectedV0Daughter config track 1 nsigmaPos = true
       /\ HigherMassResonances.isSelectedV0Daughter config track (-1) nsigmaNeg = true).
Proof.
  intros config t np nn Hs [Hp Hn].
  apply isSelectedV0Daughter_positive in Hp.
  apply isSelectedV0Daughter_negative in Hn. lia.
Qed.

Lemma daughter_accepted_for_one_charge_witness :
  HigherMassResonances.sign (chargedTracks 2) <> 0%Z
  /\ ~ (HigherMassResonances.isSelectedV0Daughter defaultConfig (chargedTracks 2) 1 0 = true
        /\ HigherMassResonances.isSelectedV0Daughter defaultConfig (chargedTracks 2) (-1) 0
           = true).
Proof.
  assert (Hs : HigherMassResonances.sign (chargedTracks 2) <> 0%Z) by (cbn; discriminate).
  split; [exact Hs|].
  exact (daughter_accepted_for_one_charge defaultConfig (chargedTracks 2) 0 0 Hs).
Defined.

(** X10: the angular-separation cut does not depend on the order of the
    two candidates; it refuses a pair exactly when it is switched on and
    the distance of the two candidates in (eta, phi) exceeds
    [angSepCut], so that with a non-negative [angSepCut] two candidates of
    the same direction always pass. *)
Theorem angular_separation_cut :
  forall (config : HigherMassResonances.Config) (v1 v2 : HigherMassResonances.V0),
    let distance :=
      sqrt ((HigherMassResonances.eta v1 - HigherMassResonances.eta v2) ^ 2
            + (HigherMassResonances.phi v1 - HigherMassResonances.phi v2) ^ 2) in
    HigherMassResonances.applyAngSep config v1 v2
    = HigherMassResonances.applyAngSep config v2 v1
    /\ (HigherMassResonances.applyAngSep config v1 v2 = false
        <-> HigherMassResonances.applyAngSepCut config = true
            /\ HigherMassResonances.angSepCut config < distance)
    /\ (0 <= HigherMassResonances.angSepCut config ->
        HigherMassResonances.eta v1 = HigherMassResonances.eta v2 ->
        HigherMassResonances.phi v1 = HigherMassResonances.phi v2 ->
        HigherMassResonances.applyAngSep config v1 v2 = true).
Proof.
  intros config v1 v2 distance.
  assert (Hiff : HigherMassResonances.applyAngSep config v1 v2 = false
                 <-> HigherMassResonances.applyAngSepCut config = true
                     /\ HigherMassResonances.angSepCut config < distance).
  { unfold HigherMassResonances.applyAngSep, Rgtb. fold distance.
    destruct (HigherMassResonances.applyAngSepCut config); cbn [andb].
    - destruct (Rlt_dec (HigherMassResonances.angSepCut config) distance) as [H|H].
      + rewrite Rltb_lt by exact H. split; [intros _; split; [reflexivity | exact H] | reflexivity].
      + rewrite Rltb_ge by lra. split; [discriminate | intros [_ H']; lra].
    - split; [discriminate | intros [H _]; discriminate]. }
  split; [apply applyAngSep_sym|]. split; [exact Hiff|].
  intros Hcut Heta Hphi.
  destruct (HigherMassResonances.applyAngSep config v1 v2); [reflexivity|].
  destruct (proj1 Hiff eq_refl) as [_ Hlt]. exfalso.
  unfold distance in Hlt. rewrite Heta, Hphi in Hlt.
  replace ((HigherMassResonances.eta v2 - HigherMassResonances.eta v2) ^ 2
           + (HigherMassResonances.phi v2 - HigherMassResonances.phi v2) ^ 2) with 0 in Hlt
    by ring.
  rewrite sqrt_0 in Hlt. lra.
Qed.

(** ** [processSE]: the count of accepted candidates *)

Section AcceptedCount.
Import GenVector HigherMassResonances HigherMassResonancesLoops.

Variable config : Config.
Variable MassK0Short MassLambda0 : R.
Variable tracks : Z -> Track.
Variable collision : Collision.




Lemma pushList_idem (i : Z) (idx : list Z) : pushList i (pushList i idx) = pushList i idx.
Proof.
  unfold pushList. destruct (existsb (Z.eqb i) idx) eqn:He.
  - rewrite He. reflexivity.
  - rewrite existsb_app, He. cbn. rewrite Z.eqb_refl. reflexivity.
Qed.

Lemma pushList_fresh (i : Z) (idx : list Z) : ~ In i idx -> pushList i idx = idx ++ [i].
Proof.
  intros Hn. unfold pushList. destruct (existsb (Z.eqb i) idx) eqn:He; [|reflexivity].
  apply existsb_exists in He. destruct He as (j & Hj & Heq).
  apply Z.eqb_eq in Heq. subst j. contradiction.
Qed.

Lemma pushIndex_v0indexes (l : SELoop) (v : V0) :
  v0indexes (pushIndex l v) = pushList (globalIndex v) (v0indexes l).
Proof. unfold pushIndex, pushList. destruct (existsb _ _); reflexivity. Qed.

(** The body does its bookkeeping of [v0indexes] exactly when both
    candidates are accepted. *)
Lemma seGate_afterIndex (V0s : list V0) (v1 v2 : V0) :
  V0s <> [] ->
  afterIndex (seGate config MassK0Short MassLambda0 tracks collision V0s v1 v2)
  = candidateAccepted config MassK0Short MassLambda0 tracks collision v1
    && candidateAccepted config MassK0Short MassLambda0 tracks collision v2.
Proof.
  intros Hne. destruct V0s as [|v V0s]; [contradiction Hne; reflexivity|].
  unfold seGate, candidateAccepted. cbn [List.length Nat.eqb orb].
  destruct (selectionV0 config MassK0Short MassLambda0 collision v1); [|reflexivity].
  destruct (selectionV0 config MassK0Short MassLambda0 collision v2); cbn [negb andb];
    [|rewrite andb_false_r; reflexivity].
  destruct (isSelectedV0Daughter config (tracks (negTrackId v1)) (-1) _); [|reflexivity].
  destruct (isSelectedV0Daughter config (tracks (posTrackId v1)) 1 _); [|reflexivity].
  cbn [negb andb].
  destruct (isSelectedV0Daughter config (tracks (posTrackId v2)) 1 _);
    [|cbn; rewrite andb_false_r; reflexivity].
  destruct (isSelectedV0Daughter config (tracks (negTrackId v2)) (-1) _); [|reflexivity].
  cbn [negb andb].
  repeat match goal with
         | |- context [if ?c then _ else _] => destruct c
         end; reflexivity.
Qed.

Lemma seBody_v0indexes (V0s : list V0) (l : SELoop) (v1 v2 : V0) :
  V0s <> [] ->
  v0indexes (seBody config MassK0Short MassLambda0 tracks collision V0s l (v1, v2))
  = if candidateAccepted config MassK0Short MassLambda0 tracks collision v1
       && candidateAccepted config MassK0Short MassLambda0 tracks collision v2
    then pushList (globalIndex v1) (v0indexes l) else v0indexes l.
Proof.
  intros Hne. rewrite <- (seGate_afterIndex V0s v1 v2 Hne). unfold seBody.
  destruct (seGate config MassK0Short MassLambda0 tracks collision V0s v1 v2);
    cbn [afterIndex]; try reflexivity; try apply pushIndex_v0indexes.
  cbv zeta. destruct (negb (selectTWOKsOnly config)).
  - destruct (fillInvMass config _ _ _ _ _ false). apply pushIndex_v0indexes.
  - apply pushIndex_v0indexes.
Qed.

Lemma se_row_v0indexes (V0s B : list V0) (x : V0) :
  V0s <> [] ->
  forall l : SELoop,
    v0indexes (fold_left (seBody config MassK0Short MassLambda0 tracks collision V0s)
                         (map (fun y => (x, y)) B) l)
    = if candidateAccepted config MassK0Short MassLambda0 tracks collision x
         && existsb (candidateAccepted config MassK0Short MassLambda0 tracks collision) B
      then pushList (globalIndex x) (v0indexes l) else v0indexes l.
Proof.
  intros Hne. induction B as [|y B IH]; intros l.
  - cbn. rewrite andb_false_r. reflexivity.
  - cbn [map fold_left existsb]. rewrite IH, (seBody_v0indexes V0s l x y Hne).
    destruct (candidateAccepted config MassK0Short MassLambda0 tracks collision x);
      cbn [andb]; [|reflexivity].
    destruct (candidateAccepted config MassK0Short MassLambda0 tracks collision y);
      cbn [orb].
    + rewrite pushList_idem. destruct (existsb _ B); reflexivity.
    + reflexivity.
Qed.

Lemma se_loop_v0indexes (V0s A B : list V0) :
  V0s <> [] ->
  forall l : SELoop,
    v0indexes (fold_left (seBody config MassK0Short MassLambda0 tracks collision V0s)
                         (list_prod A B) l)
    = fold_left
        (fun idx x =>
           if candidateAccepted config MassK0Short MassLambda0 tracks collision x
              && existsb (candidateAccepted config MassK0Short MassLambda0 tracks collision) B
           then pushList (globalIndex x) idx else idx)
        A (v0indexes l).
Proof.
  intros Hne. induction A as [|x A IH]; intros l; [reflexivity|].
  cbn [list_prod fold_left]. rewrite fold_left_app, IH, se_row_v0indexes by exact Hne.
  reflexivity.
Qed.

Lemma accepted_indices (B A : list V0) (idx : list Z) :
  incl A B ->
  NoDup (map globalIndex A) ->
  (forall x, In x A -> ~ In (globalIndex x) idx) ->
  fold_left
    (fun idx x =>
       if candidateAccepted config MassK0Short MassLambda0 tracks collision x
          && existsb (candidateAccepted config MassK0Short MassLambda0 tracks collision) B
       then pushList (globalIndex x) idx else idx)
    A idx
  = idx ++ map globalIndex
               (filter (candidateAccepted config MassK0Short MassLambda0 tracks collision) A).
Proof.
  set (step := fun (idx : list Z) (x : V0) =>
                 if candidateAccepted config MassK0Short MassLambda0 tracks collision x
                    && existsb (candidateAccepted config MassK0Short MassLambda0 tracks
                                                  collision) B
                 then pushList (globalIndex x) idx else idx).
  revert idx. induction A as [|x A IH]; intros idx Hincl Hnd Hfresh.
  - cbn. rewrite app_nil_r. reflexivity.
  - cbn [fold_left filter]. cbn [map] in Hnd. inversion Hnd as [|k ks Hx Hnd']; subst.
    assert (HinclA : incl A B) by (intros y Hy; apply Hincl; right; exact Hy).
    destruct (candidateAccepted config MassK0Short MassLambda0 tracks collision x) eqn:Hacc.
    + assert (Hstep : step idx x = idx ++ [globalIndex x]).
      { unfold step. rewrite Hacc. cbn [andb].
        assert (Hex : existsb (candidateAccepted config MassK0Short MassLambda0 tracks
                                                 collision) B = true).
        { apply existsb_exists. exists x.
          split; [apply Hincl; left; reflexivity | exact Hacc]. }
        rewrite Hex. apply pushList_fresh. apply Hfresh. left. reflexivity. }
      rewrite Hstep.
      rewrite IH; [cbn [map]; rewrite <- app_assoc; reflexivity | exact HinclA | exact Hnd' |].
      intros y Hy Hin. apply in_app_or in Hin. destruct Hin as [Hin|[Heq|[]]].
      * apply (Hfresh y); [right; exact Hy | exact Hin].
      * apply Hx. rewrite Heq. apply in_map. exact Hy.
    + assert (Hstep : step idx x = idx) by (unfold step; rewrite Hacc; reflexivity).
      rewrite Hstep. apply IH; [exact HinclA | exact Hnd' |].
      intros y Hy. apply Hfresh. right. exact Hy.
Qed.

(** After the loop [v0indexes] holds the global indices of the accepted
    candidates of the event, in the order of the table. *)
Lemma se_loop_accepted_indices (V0s : list V0) (l : SELoop) :
  NoDup (map globalIndex V0s) ->
  v0indexes l = [] ->
  v0indexes (fold_left (seBody config MassK0Short MassLambda0 tracks collision V0s)
                       (combinations V0s V0s) l)
  = map globalIndex
        (filter (candidateAccepted config MassK0Short MassLambda0 tracks collision) V0s).
Proof.
  intros Hnd Hl. destruct V0s as [|v V0s]; [cbn; exact Hl|].
  unfold combinations. rewrite se_loop_v0indexes by discriminate.
  rewrite Hl, accepted_indices; [reflexivity | apply incl_refl | exact Hnd |].
  intros x _ [].
Qed.

End AcceptedCount.



(** X12: the value that [processSE] fills into [NksProduced] is the
    number of candidates of the event that pass the candidate and the
    daughter selection (rows of the table have distinct global indices). *)
Theorem NksProduced_counts_accepted :
  forall (config : HigherMassResonances.Config) (MassK0Short MassLambda0 : R)
         (tracks : Z -> HigherMassResonances.Track) (s : HigherMassResonances.Members)
         (collision : HigherMassResonances.Collision) (V0s : list HigherMassResonances.V0),
    NoDup (map HigherMassResonances.globalIndex V0s) ->
    HigherMassResonancesLoops.sizeofv0indexes
      config MassK0Short MassLambda0 tracks s collision V0s
    = Z.of_nat
        (List.length
           (filter (HigherMassResonances.candidateAccepted
                      config MassK0Short MassLambda0 tracks collision) V0s)).
Proof.
  intros config MK ML tracks s collision V0s Hnd.
  unfold HigherMassResonancesLoops.sizeofv0indexes. cbv zeta.
  rewrite se_loop_accepted_indices by (try exact Hnd; reflexivity).
  rewrite length_map. reflexivity.
Qed.

Lemma NksProduced_counts_accepted_witness :
  NoDup (map HigherMassResonances.globalIndex [sampleV0 0 2 3; sampleV0 1 4 5])
  /\ HigherMassResonancesLoops.sizeofv0indexes
       defaultConfig 0.497611 1.115683 chargedTracks initialMembers sampleCollision
       [sampleV0 0 2 3; sampleV0 1 4 5]
     = Z.of_nat
         (List.length
            (filter (HigherMassResonances.candidateAccepted
                       defaultConfig 0.497611 1.115683 chargedTracks sampleCollision)
                    [sampleV0 0 2 3; sampleV0 1 4 5])).
Proof.
  split; [exact sample_indices_distinct|].
  exact (NksProduced_counts_accepted
           defaultConfig 0.497611 1.115683 chargedTracks initialMembers sampleCollision
           [sampleV0 0 2 3; sampleV0 1 4 5] sample_indices_distinct).
Defined.



(** ** The event mixing *)

Section Mixing.
Import GenVector HigherMassResonances HigherMassResonancesLoops.

Variable config : Config.
Variable MassK0Short MassLambda0 : R.
Variable tracks : Z -> Track.

Lemma fillInvMass_mixed (s : Members) (m d1 d2 : PxPyPzMVector) (mult : R) :
  Forall (fun f => hist f = h3glueInvMassME) (fst (fillInvMass config s m mult d1 d2 true))
  /\ rn (snd (fillInvMass config s m mult d1 d2 true)) = rn s.
Proof.
  unfold fillInvMass.
  repeat match goal with
         | |- context [if ?b then _ else _] =>
             match type of b with
             | bool => destruct b
             end
         | |- context [let '(_, _) := ?u in _] => destruct u
         end;
    try (split; [constructor | reflexivity]);
    (split; [rewrite fillBranch_fills; destruct (Rltb _ 0.5); repeat constructor
            | reflexivity]).
Qed.

Lemma fillPair_onlyME (s : Members) (acc : list Fill * Members) (pair : V0 * V0) :
  onlyME s acc -> onlyME s (fillPair config MassK0Short true acc pair).
Proof.
  destruct acc as [filled s1]. intros [Hf Hr]. cbn [fst snd] in *.
  unfold fillPair.
  match goal with
  | |- context [fillInvMass ?c ?s0 ?m ?mu ?a ?b true] =>
      destruct (fillInvMass_mixed s0 m a b mu) as [Hf' Hr'];
      destruct (fillInvMass c s0 m mu a b true) as [fills s2]
  end.
  unfold onlyME. cbn [fst snd] in *. split; [apply Forall_app; split; assumption|].
  rewrite Hr'. exact Hr.
Qed.

Lemma meLoop_onlyME (s : Members) (c1 c2 : Collision) (groupV01 groupV02 : list V0)
      (combos : list (V0 * V0)) (acc : list Fill * Members) :
  onlyME s acc ->
  onlyME s (fold_left (meBody config MassK0Short MassLambda0 tracks c1 c2 groupV01 groupV02)
                      combos acc).
Proof.
  revert acc. induction combos as [|pair combos IH]; intros acc Hacc; [exact Hacc|].
  cbn [fold_left]. apply IH. rewrite meBody_step.
  destruct (isAccepted _); [apply fillPair_onlyME; exact Hacc | exact Hacc].
Qed.

Lemma set_multiplicity_onlyME (s : Members) (filled : list Fill) (s1 : Members) (mult : R) :
  onlyME s (filled, s1) -> onlyME s (filled, set_multiplicity s1 mult).
Proof. intros [Hf Hr]. split; [exact Hf | exact Hr]. Qed.

Lemma mixedLoop_onlyME (s : Members) (pairs : list (Collision * Collision)) (v0s : list V0)
      (acc : list Fill * Members) :
  onlyME s acc ->
  onlyME s (mixedLoop config MassK0Short MassLambda0 tracks pairs v0s acc).
Proof.
  revert acc. induction pairs as [|[c1 c2] pairs IH]; intros [filled s1] Hacc; [exact Hacc|].
  cbn [mixedLoop].
  pose proof (set_multiplicity_onlyME s filled s1 (centFT0M c1) Hacc) as H1.
  destruct (negb (eventselection config c1) || negb (eventselection config c2));
    [apply IH; exact H1|].
  destruct (requireRCTFlagChecker config && negb (rctChecker c1)); [exact H1|].
  destruct (requireRCTFlagChecker config && negb (rctChecker c2)); [exact H1|].
  apply IH. apply meLoop_onlyME. exact H1.
Qed.

Lemma mixedLoopFT0M_onlyME (s : Members)
      (pairs : list (Collision * list V0 * (Collision * list V0)))
      (acc : list Fill * Members) :
  onlyME s acc ->
  onlyME s (mixedLoopFT0M config MassK0Short MassLambda0 tracks pairs acc).
Proof.
  revert acc.
  induction pairs as [|[[c1 t1] [c2 t2]] pairs IH]; intros [filled s1] Hacc; [exact Hacc|].
  cbn [mixedLoopFT0M].
  pose proof (set_multiplicity_onlyME s filled s1 (centFT0M c1) Hacc) as H1.
  destruct (negb (eventselection config c1) || negb (eventselection config c2));
    [apply IH; exact H1|].
  destruct (requireRCTFlagChecker config && negb (rctChecker c1)); [exact H1|].
  destruct (requireRCTFlagChecker config && negb (rctChecker c2)); [exact H1|].
  apply IH. apply meLoop_onlyME. exact H1.
Qed.

Lemma mixedLoopFT0C_onlyME (s : Members)
      (pairs : list (Collision * list V0 * (Collision * list V0)))
      (acc : list Fill * Members) :
  onlyME s acc ->
  onlyME s (mixedLoopFT0C config MassK0Short MassLambda0 tracks pairs acc).
Proof.
  revert acc.
  induction pairs as [|[[c1 t1] [c2 t2]] pairs IH]; intros [filled s1] Hacc; [exact Hacc|].
  cbn [mixedLoopFT0C].
  pose proof (set_multiplicity_onlyME s filled s1 (centFT0C c1) Hacc) as H1.
  destruct (negb (eventselection config c1) || negb (eventselection config c2));
    [apply IH; exact H1|].
  apply IH. apply meLoop_onlyME. exact H1.
Qed.

(** A pair of collisions that passes the event selection and fails the
    RCT check ends the loop: it and the pairs behind it add nothing. *)
Lemma mixedLoop_rct_return (before after : list (Collision * Collision)) (c1 c2 : Collision)
      (v0s : list V0) (acc : list Fill * Members) :
  eventselection config c1 = true -> eventselection config c2 = true ->
  requireRCTFlagChecker config = true ->
  rctChecker c1 = false \/ rctChecker c2 = false ->
  fst (mixedLoop config MassK0Short MassLambda0 tracks (before ++ (c1, c2) :: after) v0s acc)
  = fst (mixedLoop config MassK0Short MassLambda0 tracks before v0s acc).
Proof.
  intros He1 He2 Hreq Hrct. revert acc.
  induction before as [|[a b] before IH]; intros [filled s].
  - cbn [app mixedLoop]. rewrite He1, He2, Hreq. cbn [negb orb andb].
    destruct Hrct as [-> | ->]; cbn [negb]; [reflexivity|].
    destruct (negb (rctChecker c1)); reflexivity.
  - cbn [app mixedLoop].
    destruct (negb (eventselection config a) || negb (eventselection config b)); [apply IH|].
    destruct (requireRCTFlagChecker config && negb (rctChecker a)); [reflexivity|].
    destruct (requireRCTFlagChecker config && negb (rctChecker b)); [reflexivity|].
    apply IH.
Qed.

Lemma mixedLoopFT0M_rct_return
      (before after : list (Collision * list V0 * (Collision * list V0)))
      (c1 c2 : Collision) (t1 t2 : list V0) (acc : list Fill * Members) :
  eventselection config c1 = true -> eventselection config c2 = true ->
  requireRCTFlagChecker config = true ->
  rctChecker c1 = false \/ rctChecker c2 = false ->
  fst (mixedLoopFT0M config MassK0Short MassLambda0 tracks
                     (before ++ ((c1, t1), (c2, t2)) :: after) acc)
  = fst (mixedLoopFT0M config MassK0Short MassLambda0 tracks before acc).
Proof.
  intros He1 He2 Hreq Hrct. revert acc.
  induction before as [|[[a ta] [b tb]] before IH]; intros [filled s].
  - cbn [app mixedLoopFT0M]. rewrite He1, He2, Hreq. cbn [negb orb andb].
    destruct Hrct as [-> | ->]; cbn [negb]; [reflexivity|].
    destruct (negb (rctChecker c1)); reflexivity.
  - cbn [app mixedLoopFT0M].
    destruct (negb (eventselection config a) || negb (eventselection config b)); [apply IH|].
    destruct (requireRCTFlagChecker config && negb (rctChecker a)); [reflexivity|].
    destruct (requireRCTFlagChecker config && negb (rctChecker b)); [reflexivity|].
    apply IH.
Qed.

End Mixing.

(** X14: the mixed-event functions [processMEderived] and [processME]
    fill [h3glueInvMassME] only, never the same-event or the
    rotational-background histogram, and never draw from the generator
    [rn] of the rotations. *)
Theorem mixed_event_fills_only_ME :
  forall (config : HigherMassResonances.Config) (MassK0Short MassLambda0 : R)
         (tracks : Z -> HigherMassResonances.Track)
         (selfCombinations : list HigherMassResonances.Collision ->
                             list (HigherMassResonances.Collision
                                   * HigherMassResonances.Collision))
         (s : HigherMassResonances.Members)
         (collisions : list HigherMassResonances.Collision)
         (v0s : list HigherMassResonances.V0)
         (pair1 pair2 : list (HigherMassResonances.Collision * list HigherMassResonances.V0
                              * (HigherMassResonances.Collision
                                 * list HigherMassResonances.V0))),
    let derived := HigherMassResonances.processMEderived
                     config MassK0Short MassLambda0 tracks selfCombinations s collisions v0s in
    let mixed := HigherMassResonancesLoops.processME
                   config MassK0Short MassLambda0 tracks s pair1 pair2 in
    Forall (fun f => HigherMassResonances.hist f = HigherMassResonances.h3glueInvMassME)
           (fst derived)
    /\ HigherMassResonances.rn (snd derived) = HigherMassResonances.rn s
    /\ Forall (fun f => HigherMassResonances.hist f = HigherMassResonances.h3glueInvMassME)
              (fst mixed)
    /\ HigherMassResonances.rn (snd mixed) = HigherMassResonances.rn s.
Proof.
  intros config MK ML tracks selfCombinations s collisions v0s pair1 pair2 derived mixed.
  assert (H0 : onlyME s ([], s)) by (split; [constructor | reflexivity]).
  destruct (mixedLoop_onlyME config MK ML tracks s (selfCombinations collisions) v0s _ H0)
    as [Hd1 Hd2].
  assert (Hm : onlyME s mixed).
  { unfold mixed, HigherMassResonancesLoops.processME.
    destruct (HigherMassResonances.cfgMultFOTM config);
      [apply mixedLoopFT0M_onlyME | apply mixedLoopFT0C_onlyME]; exact H0. }
  destruct Hm as [Hm1 Hm2].
  repeat split; assumption.
Qed.

(** X15: in [processMEderived], and in [processME] with [cfgMultFOTM]
    set, a pair of collisions that passes the event selection and fails
    the required RCT check ends the whole function: neither it nor any
    pair of collisions behind it contributes an entry. *)
Theorem rct_failure_ends_mixing :
  forall (config : HigherMassResonances.Config) (MassK0Short MassLambda0 : R)
         (tracks : Z -> HigherMassResonances.Track)
         (c1 c2 : HigherMassResonances.Collision),
    HigherMassResonances.eventselection config c1 = true ->
    HigherMassResonances.eventselection config c2 = true ->
    HigherMassResonances.requireRCTFlagChecker config = true ->
    HigherMassResonances.rctChecker c1 = false \/ HigherMassResonances.rctChecker c2 = false ->
    (forall before after v0s acc,
        fst (HigherMassResonances.mixedLoop
               config MassK0Short MassLambda0 tracks (before ++ (c1, c2) :: after) v0s acc)
        = fst (HigherMassResonances.mixedLoop
                 config MassK0Short MassLambda0 tracks before v0s acc))
    /\ (forall before after t1 t2 acc,
           fst (HigherMassResonancesLoops.mixedLoopFT0M
                  config MassK0Short MassLambda0 tracks
                  (before ++ ((c1, t1), (c2, t2)) :: after) acc)
           = fst (HigherMassResonancesLoops.mixedLoopFT0M
                    config MassK0Short MassLambda0 tracks before acc)).
Proof.
  intros config MK ML tracks c1 c2 He1 He2 Hreq Hrct. split.
  - intros before after v0s acc. apply mixedLoop_rct_return; assumption.
  - intros before after t1 t2 acc. apply mixedLoopFT0M_rct_return; assumption.
Qed.

Lemma rct_failure_ends_mixing_witness :
  HigherMassResonances.eventselection defaultConfig sampleCollision = true
  /\ HigherMassResonances.eventselection defaultConfig rctRejectedCollision = true
  /\ HigherMassResonances.requireRCTFlagChecker defaultConfig = true
  /\ (HigherMassResonances.rctChecker sampleCollision = false
      \/ HigherMassResonances.rctChecker rctRejectedCollision = false)
  /\ forall after v0s,
      fst (HigherMassResonances.mixedLoop
             defaultConfig 0.497611 1.115683 chargedTracks
             ([] ++ (sampleCollision, rctRejectedCollision) :: after) v0s
             ([], initialMembers))
      = fst (HigherMassResonances.mixedLoop
               defaultConfig 0.497611 1.115683 chargedTracks [] v0s ([], initialMembers)).
Proof.
  split; [reflexivity|]. split; [reflexivity|]. split; [reflexivity|].
  split; [right; reflexivity|].
  intros after v0s.
  exact (proj1 (rct_failure_ends_mixing
                  defaultConfig 0.497611 1.115683 chargedTracks
                  sampleCollision rctRejectedCollision eq_refl eq_refl eq_refl
                  (or_intror eq_refl))
               [] after v0s ([], initialMembers)).
Defined.

(** * Further properties of [HfCandidateSelectorD0Alice3Barrel] *)

Section SelectorRows.
Import HfCandidateSelectorD0Alice3Barrel.

Variable ptCandMin ptCandMax : R.
Variable binsPt : list R.
Variable cuts : Z -> string -> R.
Variable invMassD0ToPiK invMassD0barToKPi : Candidate -> R.
Variable cosThetaStarD0 cosThetaStarD0bar : Candidate -> R.
Variable MassD0 : R.
Variable D0ToPiK : Z.
Variable tracks : Z -> Track.

(** The placeholder -5000 for a missing n-sigma fails every PID test. *)
Lemma missing_nsigma_fails_abs : Rltb (Rabs (-5000)) 3.0 = false.
Proof. apply Rltb_ge. rewrite Rabs_left by lra. lra. Qed.

Lemma missing_nsigma_fails_combined (nsigmaRICH : R) :
  Rltb (sqrt (nsigmaRICH * nsigmaRICH + -5000 * -5000)) 3.0 = false.
Proof.
  apply Rltb_ge.
  assert (H : sqrt (5000 * 5000) <= sqrt (nsigmaRICH * nsigmaRICH + -5000 * -5000))
    by (apply sqrt_le_1; nra).
  rewrite sqrt_square in H by lra. lra.
Qed.

Lemma missing_rich_fails_combined (nsigmaTOF : R) :
  Rltb (sqrt (-5000 * -5000 + nsigmaTOF * nsigmaTOF)) 3.0 = false.
Proof.
  apply Rltb_ge.
  assert (H : sqrt (5000 * 5000) <= sqrt (-5000 * -5000 + nsigmaTOF * nsigmaTOF))
    by (apply sqrt_le_1; nra).
  rewrite sqrt_square in H by lra. lra.
Qed.

Lemma selectionTopol_outside_range (candidate : Candidate) :
  pt candidate < ptCandMin \/ ptCandMax <= pt candidate ->
  selectionTopol ptCandMin ptCandMax binsPt cuts candidate = false.
Proof.
  intros Hout. unfold selectionTopol.
  destruct (findBin binsPt (pt candidate) =? -1)%Z; [reflexivity|].
  assert (Hr : Rltb (pt candidate) ptCandMin || Rgeb (pt candidate) ptCandMax = true).
  { unfold Rgeb. destruct Hout as [H|H].
    - rewrite Rltb_lt by exact H. reflexivity.
    - rewrite (Rleb_le _ _ H). apply orb_true_r. }
  rewrite Hr. reflexivity.
Qed.

End SelectorRows.

(** X16: in the row that [process] writes for a candidate every status
    is 0 or 1; [statusHFFlag] is 1 exactly when the candidate carries the
    D0ToPiK bit; a status of the D0 hypothesis (perfect, TOF, RICH,
    TOF-plus-RICH PID) can only be 1 when [statusD0NoPid] is 1, and any
    selection status can only be 1 when [statusHFFlag] is 1. *)
Theorem selection_status_hierarchy :
  forall (ptCandMin ptCandMax : R) (binsPt : list R) (cuts : Z -> string -> R)
         (invMassD0ToPiK invMassD0barToKPi cosThetaStarD0 cosThetaStarD0bar :
            HfCandidateSelectorD0Alice3Barrel.Candidate -> R)
         (MassD0 : R) (D0ToPiK : Z)
         (tracks : Z -> HfCandidateSelectorD0Alice3Barrel.Track)
         (candidate : HfCandidateSelectorD0Alice3Barrel.Candidate),
    let row := HfCandidateSelectorD0Alice3Barrel.processCandidate
                 ptCandMin ptCandMax binsPt cuts invMassD0ToPiK invMassD0barToKPi
                 cosThetaStarD0 cosThetaStarD0bar MassD0 D0ToPiK tracks candidate in
    let binary (x : Z) := x = 0%Z \/ x = 1%Z in
    (binary (HfCandidateSelectorD0Alice3Barrel.statusHFFlag row)
     /\ binary (HfCandidateSelectorD0Alice3Barrel.statusD0NoPid row)
     /\ binary (HfCandidateSelectorD0Alice3Barrel.statusD0PerfectPid row)
     /\ binary (HfCandidateSelectorD0Alice3Barrel.statusD0TofPid row)
     /\ binary (HfCandidateSelectorD0Alice3Barrel.statusD0RICHPID row)
     /\ binary (HfCandidateSelectorD0Alice3Barrel.statusD0TofPlusRichPid row)
     /\ binary (HfCandidateSelectorD0Alice3Barrel.statusD0barTofPlusRichPid row))
    /\ (HfCandidateSelectorD0Alice3Barrel.statusHFFlag row = 1%Z
        <-> Z.land (HfCandidateSelectorD0Alice3Barrel.hfflag candidate) (Z.shiftl 1 D0ToPiK)
            <> 0%Z)
    /\ (HfCandidateSelectorD0Alice3Barrel.statusD0NoPid row = 0%Z ->
        HfCandidateSelectorD0Alice3Barrel.statusD0PerfectPid row = 0%Z
        /\ HfCandidateSelectorD0Alice3Barrel.statusD0TofPid row = 0%Z
        /\ HfCandidateSelectorD0Alice3Barrel.statusD0RICHPID row = 0%Z
        /\ HfCandidateSelectorD0Alice3Barrel.statusD0TofPlusRichPid row = 0%Z)
    /\ (HfCandidateSelectorD0Alice3Barrel.statusHFFlag row = 0%Z ->
        HfCandidateSelectorD0Alice3Barrel.statusD0NoPid row = 0%Z
        /\ HfCandidateSelectorD0Alice3Barrel.statusD0barTofPlusRichPid row = 0%Z).
Proof.
  intros ptCandMin ptCandMax binsPt cuts iD0 iD0bar cD0 cD0bar MassD0 D0ToPiK tracks
         candidate row binary.
  unfold row, binary, HfCandidateSelectorD0Alice3Barrel.processCandidate.
  destruct (Z.eqb_spec (Z.land (HfCandidateSelectorD0Alice3Barrel.hfflag candidate)
                               (Z.shiftl 1 D0ToPiK)) 0) as [Hbit|Hbit].
  { cbn. repeat split; auto; try discriminate; intros; try contradiction; lia. }
  destruct (negb (HfCandidateSelectorD0Alice3Barrel.selectionTopol _ _ _ _ _)).
  { cbn. repeat split; auto; try discriminate; intros; try assumption; lia. }
  cbv zeta.
  destruct (HfCandidateSelectorD0Alice3Barrel.selectionTopolConjugate
              binsPt cuts iD0 iD0bar cD0 cD0bar MassD0 candidate
              (tracks (HfCandidateSelectorD0Alice3Barrel.prong0Id candidate))
              (tracks (HfCandidateSelectorD0Alice3Barrel.prong1Id candidate)));
    destruct (HfCandidateSelectorD0Alice3Barrel.selectionTopolConjugate
                binsPt cuts iD0 iD0bar cD0 cD0bar MassD0 candidate
                (tracks (HfCandidateSelectorD0Alice3Barrel.prong1Id candidate))
                (tracks (HfCandidateSelectorD0Alice3Barrel.prong0Id candidate)));
    cbn [negb andb HfCandidateSelectorD0Alice3Barrel.statusHFFlag
         HfCandidateSelectorD0Alice3Barrel.statusD0NoPid
         HfCandidateSelectorD0Alice3Barrel.statusD0PerfectPid
         HfCandidateSelectorD0Alice3Barrel.statusD0TofPid
         HfCandidateSelectorD0Alice3Barrel.statusD0RICHPID
         HfCandidateSelectorD0Alice3Barrel.statusD0TofPlusRichPid
         HfCandidateSelectorD0Alice3Barrel.statusD0barTofPlusRichPid];
    repeat match goal with
           | |- context [if ?b then 1%Z else 0%Z] => destruct b
           end;
    repeat split; auto; try discriminate; intros; try assumption; try lia.
Qed.

(** X17: a candidate whose pT is below [ptCandMin] or not below
    [ptCandMax] fails the topological selection whatever the pT bins and
    the cut values are, and its row carries no selection status. *)
Theorem pt_outside_analysis_range_rejected :
  forall (ptCandMin ptCandMax : R) (binsPt : list R) (cuts : Z -> string -> R)
         (invMassD0ToPiK invMassD0barToKPi cosThetaStarD0 cosThetaStarD0bar :
            HfCandidateSelectorD0Alice3Barrel.Candidate -> R)
         (MassD0 : R) (D0ToPiK : Z)
         (tracks : Z -> HfCandidateSelectorD0Alice3Barrel.Track)
         (candidate : HfCandidateSelectorD0Alice3Barrel.Candidate),
    HfCandidateSelectorD0Alice3Barrel.pt candidate < ptCandMin
    \/ ptCandMax <= HfCandidateSelectorD0Alice3Barrel.pt candidate ->
    HfCandidateSelectorD0Alice3Barrel.selectionTopol
      ptCandMin ptCandMax binsPt cuts candidate = false
    /\ (let row := HfCandidateSelectorD0Alice3Barrel.processCandidate
                     ptCandMin ptCandMax binsPt cuts invMassD0ToPiK invMassD0barToKPi
                     cosThetaStarD0 cosThetaStarD0bar MassD0 D0ToPiK tracks candidate in
        HfCandidateSelectorD0Alice3Barrel.statusD0NoPid row = 0%Z
        /\ HfCandidateSelectorD0Alice3Barrel.statusD0PerfectPid row = 0%Z
        /\ HfCandidateSelectorD0Alice3Barrel.statusD0TofPid row = 0%Z
        /\ HfCandidateSelectorD0Alice3Barrel.statusD0RICHPID row = 0%Z
        /\ HfCandidateSelectorD0Alice3Barrel.statusD0TofPlusRichPid row = 0%Z
        /\ HfCandidateSelectorD0Alice3Barrel.statusD0barTofPlusRichPid row = 0%Z).
Proof.
  intros ptCandMin ptCandMax binsPt cuts iD0 iD0bar cD0 cD0bar MassD0 D0ToPiK tracks
         candidate Hout.
  pose proof (selectionTopol_outside_range ptCandMin ptCandMax binsPt cuts candidate Hout)
    as Htopol.
  split; [exact Htopol|].
  unfold HfCandidateSelectorD0Alice3Barrel.processCandidate. rewrite Htopol.
  destruct (Z.land _ _ =? 0)%Z; cbn; repeat split; reflexivity.
Qed.

Lemma pt_outside_analysis_range_rejected_witness :
  (HfCandidateSelectorD0Alice3Barrel.pt lowPtCandidate < 1
   \/ 50 <= HfCandidateSelectorD0Alice3Barrel.pt lowPtCandidate)
  /\ HfCandidateSelectorD0Alice3Barrel.selectionTopol
       1 50 [0; 2; 4] (fun _ _ => 0) lowPtCandidate = false.
Proof.
  assert (H : HfCandidateSelectorD0Alice3Barrel.pt lowPtCandidate < 1
              \/ 50 <= HfCandidateSelectorD0Alice3Barrel.pt lowPtCandidate)
    by (left; unfold lowPtCandidate; cbn; lra).
  split; [exact H|].
  exact (proj1 (pt_outside_analysis_range_rejected
                  1 50 [0; 2; 4] (fun _ _ => 0) (fun _ => 0) (fun _ => 0) (fun _ => 0)
                  (fun _ => 0) 1.86484 0%Z sampleHfTrack lowPtCandidate H)).
Defined.


(** ** A candidate that reaches the PID code *)

Section SelectedCandidate.
Import HfCandidateSelectorD0Alice3Barrel.

Lemma selectedCandidate_bin : findBin [0; 2; 4] (pt selectedCandidate) = 0%Z.
Proof.
  unfold findBin, selectedCandidate, Rgeb. cbn [pt last upper_bound].
  decide_R. reflexivity.
Qed.

Lemma selectedCandidate_topol :
  selectionTopol 0 50 [0; 2; 4] unitCuts selectedCandidate = true.
Proof.
  unfold selectionTopol. rewrite selectedCandidate_bin.
  unfold selectedCandidate, unitCuts, Rgtb, Rgeb.
  cbn [pt p impactParameterProduct cpa cpaXY decayLength decayLengthXY
       decayLengthNormalised decayLengthXYNormalised impactParameterNormalised0
       impactParameterNormalised1 Z.eqb].
  assert (Hmin : Rmin (1 * 0.0066 + 0.01) 1 = 1 * 0.0066 + 0.01)
    by (apply Rmin_left; lra).
  rewrite Hmin. decide_R. reflexivity.
Qed.

Lemma selectedCandidate_conjugate (trackPion trackKaon : Track) :
  trackPt trackPion = 1 -> trackPt trackKaon = 1 ->
  dcaXY trackPion = 0 -> dcaXY trackKaon = 0 ->
  selectionTopolConjugate [0; 2; 4] unitCuts (fun _ => 1.86484) (fun _ => 1.86484)
                          (fun _ => 0) (fun _ => 0) 1.86484 selectedCandidate
                          trackPion trackKaon = true.
Proof.
  intros Hp1 Hp2 Hd1 Hd2.
  unfold selectionTopolConjugate. rewrite selectedCandidate_bin.
  unfold unitCuts, Rgtb. rewrite Hp1, Hp2, Hd1, Hd2. cbn [Z.eqb].
  replace (1.86484 - 1.86484) with 0 by lra.
  destruct (sign trackPion >? 0)%Z; decide_R; reflexivity.
Qed.

(** With tracks of pT 1 and vanishing impact parameter the candidate
    passes both selections, so that its row is decided by the PID code. *)
Lemma selectedCandidate_reaches_pid (tracks : Z -> Track) :
  (forall i, trackPt (tracks i) = 1 /\ dcaXY (tracks i) = 0) ->
  statusD0NoPid
    (processCandidate 0 50 [0; 2; 4] unitCuts (fun _ => 1.86484) (fun _ => 1.86484)
                      (fun _ => 0) (fun _ => 0) 1.86484 0%Z tracks selectedCandidate)
  = 1%Z.
Proof.
  intros Ht. unfold processCandidate.
  replace (Z.land (hfflag selectedCandidate) (Z.shiftl 1 0) =? 0)%Z with false
    by reflexivity.
  rewrite selectedCandidate_topol. cbn [negb]. cbv zeta.
  rewrite !selectedCandidate_conjugate by apply Ht.
  reflexivity.
Qed.

Lemma kaonThresholdTrack_single_detector_pid :
  let row := processCandidate 0 50 [0; 2; 4] unitCuts (fun _ => 1.86484) (fun _ => 1.86484)
                              (fun _ => 0) (fun _ => 0) 1.86484 0%Z kaonThresholdTrack
                              selectedCandidate in
  statusD0TofPid row = 1%Z /\ statusD0RICHPID row = 1%Z.
Proof.
  unfold processCandidate.
  replace (Z.land (hfflag selectedCandidate) (Z.shiftl 1 0) =? 0)%Z with false
    by reflexivity.
  rewrite selectedCandidate_topol. cbn [negb]. cbv zeta.
  rewrite !selectedCandidate_conjugate by reflexivity.
  cbn [negb andb statusD0TofPid statusD0RICHPID].
  unfold kaonThresholdTrack.
  cbn [hasTOF has_rich tofNSigmaPi tofNSigmaKa richNsigmaPi richNsigmaKa].
  decide_R. split; reflexivity.
Qed.

End SelectedCandidate.

(** X18: a prong without TOF information gets the placeholder n-sigma
    -5000, which fails the TOF test and the combined TOF-plus-RICH test:
    when either prong has no TOF, the TOF status and both TOF-plus-RICH
    statuses of the row are 0.  When either prong has no RICH, the RICH
    status is 0. *)
Theorem missing_detector_fails_pid :
  forall (ptCandMin ptCandMax : R) (binsPt : list R) (cuts : Z -> string -> R)
         (invMassD0ToPiK invMassD0barToKPi cosThetaStarD0 cosThetaStarD0bar :
            HfCandidateSelectorD0Alice3Barrel.Candidate -> R)
         (MassD0 : R) (D0ToPiK : Z)
         (tracks : Z -> HfCandidateSelectorD0Alice3Barrel.Track)
         (candidate : HfCandidateSelectorD0Alice3Barrel.Candidate),
    let row := HfCandidateSelectorD0Alice3Barrel.processCandidate
                 ptCandMin ptCandMax binsPt cuts invMassD0ToPiK invMassD0barToKPi
                 cosThetaStarD0 cosThetaStarD0bar MassD0 D0ToPiK tracks candidate in
    let trackPos := tracks (HfCandidateSelectorD0Alice3Barrel.prong0Id candidate) in
    let trackNeg := tracks (HfCandidateSelectorD0Alice3Barrel.prong1Id candidate) in
    (HfCandidateSelectorD0Alice3Barrel.hasTOF trackPos = false
     \/ HfCandidateSelectorD0Alice3Barrel.hasTOF trackNeg = false ->
     HfCandidateSelectorD0Alice3Barrel.statusD0TofPid row = 0%Z
     /\ HfCandidateSelectorD0Alice3Barrel.statusD0TofPlusRichPid row = 0%Z
     /\ HfCandidateSelectorD0Alice3Barrel.statusD0barTofPlusRichPid row = 0%Z)
    /\ (HfCandidateSelectorD0Alice3Barrel.has_rich trackPos = false
        \/ HfCandidateSelectorD0Alice3Barrel.has_rich trackNeg = false ->
        HfCandidateSelectorD0Alice3Barrel.statusD0RICHPID row = 0%Z).
Proof.
  intros ptCandMin ptCandMax binsPt cuts iD0 iD0bar cD0 cD0bar MassD0 D0ToPiK tracks
         candidate row trackPos trackNeg.
  unfold row, trackPos, trackNeg, HfCandidateSelectorD0Alice3Barrel.processCandidate.
  destruct (Z.land _ _ =? 0)%Z; [cbn; repeat split; reflexivity|].
  destruct (negb (HfCandidateSelectorD0Alice3Barrel.selectionTopol _ _ _ _ _));
    [cbn; repeat split; reflexivity|].
  cbv zeta.
  destruct (negb _ && negb _); [cbn; repeat split; reflexivity|].
  cbn [HfCandidateSelectorD0Alice3Barrel.statusD0TofPid
       HfCandidateSelectorD0Alice3Barrel.statusD0RICHPID
       HfCandidateSelectorD0Alice3Barrel.statusD0TofPlusRichPid
       HfCandidateSelectorD0Alice3Barrel.statusD0barTofPlusRichPid].
  split.
  - intros [H|H]; rewrite H;
      rewrite ?missing_nsigma_fails_abs, ?missing_nsigma_fails_combined;
      rewrite ?andb_false_r; cbn [andb orb];
      rewrite ?andb_false_r; cbn [andb orb];
      repeat split; reflexivity.
  - intros [H|H]; rewrite H; rewrite ?missing_nsigma_fails_abs;
      rewrite ?andb_false_r; cbn [andb orb]; reflexivity.
Qed.

Lemma missing_detector_fails_pid_witness :
  (HfCandidateSelectorD0Alice3Barrel.hasTOF
     (noTofTrack (HfCandidateSelectorD0Alice3Barrel.prong0Id selectedCandidate)) = false
   \/ HfCandidateSelectorD0Alice3Barrel.hasTOF
        (noTofTrack (HfCandidateSelectorD0Alice3Barrel.prong1Id selectedCandidate)) = false)
  /\ (let row := HfCandidateSelectorD0Alice3Barrel.processCandidate
                   0 50 [0; 2; 4] unitCuts (fun _ => 1.86484) (fun _ => 1.86484)
                   (fun _ => 0) (fun _ => 0) 1.86484 0%Z noTofTrack selectedCandidate in
      HfCandidateSelectorD0Alice3Barrel.statusD0NoPid row = 1%Z
      /\ HfCandidateSelectorD0Alice3Barrel.statusD0TofPid row = 0%Z
      /\ HfCandidateSelectorD0Alice3Barrel.statusD0TofPlusRichPid row = 0%Z
      /\ HfCandidateSelectorD0Alice3Barrel.statusD0barTofPlusRichPid row = 0%Z).
Proof.
  assert (H : HfCandidateSelectorD0Alice3Barrel.hasTOF
                (noTofTrack (HfCandidateSelectorD0Alice3Barrel.prong0Id selectedCandidate))
              = false
              \/ HfCandidateSelectorD0Alice3Barrel.hasTOF
                   (noTofTrack (HfCandidateSelectorD0Alice3Barrel.prong1Id selectedCandidate))
                 = false)
    by (left; reflexivity).
  split; [exact H|]. cbv zeta.
  split; [apply selectedCandidate_reaches_pid; intros i; split; reflexivity|].
  exact (proj1 (missing_detector_fails_pid
                  0 50 [0; 2; 4] unitCuts (fun _ => 1.86484) (fun _ => 1.86484)
                  (fun _ => 0) (fun _ => 0) 1.86484 0%Z noTofTrack selectedCandidate)
               H).
Defined.

(** X19: the TOF-plus-RICH identification of a kaon switches from
    TOF-only below 2.0 GeV/c to TOF and RICH above it, with strict
    comparisons on both sides: a kaon prong whose momentum is exactly
    2.0 GeV/c is never identified, so the corresponding TOF-plus-RICH
    status is 0, whatever the TOF and RICH responses.  (The pion
    threshold, the [double] 0.6, is not the value of any [float]
    momentum.) *)
Theorem momentum_at_threshold_fails_pid :
  forall (ptCandMin ptCandMax : R) (binsPt : list R) (cuts : Z -> string -> R)
         (invMassD0ToPiK invMassD0barToKPi cosThetaStarD0 cosThetaStarD0bar :
            HfCandidateSelectorD0Alice3Barrel.Candidate -> R)
         (MassD0 : R) (D0ToPiK : Z)
         (tracks : Z -> HfCandidateSelectorD0Alice3Barrel.Track)
         (candidate : HfCandidateSelectorD0Alice3Barrel.Candidate),
    let row := HfCandidateSelectorD0Alice3Barrel.processCandidate
                 ptCandMin ptCandMax binsPt cuts invMassD0ToPiK invMassD0barToKPi
                 cosThetaStarD0 cosThetaStarD0bar MassD0 D0ToPiK tracks candidate in
    let trackPos := tracks (HfCandidateSelectorD0Alice3Barrel.prong0Id candidate) in
    let trackNeg := tracks (HfCandidateSelectorD0Alice3Barrel.prong1Id candidate) in
    (HfCandidateSelectorD0Alice3Barrel.trackP trackNeg = 2.0 ->
     HfCandidateSelectorD0Alice3Barrel.statusD0TofPlusRichPid row = 0%Z)
    /\ (HfCandidateSelectorD0Alice3Barrel.trackP trackPos = 2.0 ->
        HfCandidateSelectorD0Alice3Barrel.statusD0barTofPlusRichPid row = 0%Z).
Proof.
  intros ptCandMin ptCandMax binsPt cuts iD0 iD0bar cD0 cD0bar MassD0 D0ToPiK tracks
         candidate row trackPos trackNeg.
  assert (Hlt : forall x, Rltb x x = false) by (intros x; apply Rltb_ge; lra).
  assert (Hgt : forall x, Rgtb x x = false) by (intros x; unfold Rgtb; apply Hlt).
  unfold row, trackPos, trackNeg, HfCandidateSelectorD0Alice3Barrel.processCandidate.
  destruct (Z.land _ _ =? 0)%Z; [cbn; repeat split; reflexivity|].
  destruct (negb (HfCandidateSelectorD0Alice3Barrel.selectionTopol _ _ _ _ _));
    [cbn; repeat split; reflexivity|].
  cbv zeta.
  destruct (negb _ && negb _); [cbn; repeat split; reflexivity|].
  cbn [HfCandidateSelectorD0Alice3Barrel.statusD0TofPlusRichPid
       HfCandidateSelectorD0Alice3Barrel.statusD0barTofPlusRichPid].
  split; (intros H; rewrite H; rewrite !Hlt, !Hgt; cbn [andb orb];
          rewrite ?andb_false_r; reflexivity).
Qed.

Lemma momentum_at_threshold_fails_pid_witness :
  HfCandidateSelectorD0Alice3Barrel.trackP
    (kaonThresholdTrack (HfCandidateSelectorD0Alice3Barrel.prong1Id selectedCandidate)) = 2.0
  /\ (let row := HfCandidateSelectorD0Alice3Barrel.processCandidate
                   0 50 [0; 2; 4] unitCuts (fun _ => 1.86484) (fun _ => 1.86484)
                   (fun _ => 0) (fun _ => 0) 1.86484 0%Z kaonThresholdTrack
                   selectedCandidate in
      HfCandidateSelectorD0Alice3Barrel.statusD0NoPid row = 1%Z
      /\ HfCandidateSelectorD0Alice3Barrel.statusD0TofPid row = 1%Z
      /\ HfCandidateSelectorD0Alice3Barrel.statusD0RICHPID row = 1%Z
      /\ HfCandidateSelectorD0Alice3Barrel.statusD0TofPlusRichPid row = 0%Z).
Proof.
  split; [reflexivity|]. cbv zeta.
  split; [apply selectedCandidate_reaches_pid; intros i; split; reflexivity|].
  split; [exact (proj1 kaonThresholdTrack_single_detector_pid)|].
  split; [exact (proj2 kaonThresholdTrack_single_detector_pid)|].
  exact (proj1 (momentum_at_threshold_fails_pid
                  0 50 [0; 2; 4] unitCuts (fun _ => 1.86484) (fun _ => 1.86484)
                  (fun _ => 0) (fun _ => 0) 1.86484 0%Z kaonThresholdTrack
                  selectedCandidate)
               eq_refl).
Defined.

(** * Properties of the Monte-Carlo process functions *)

Section RecLoops.
Import HigherMassResonancesMC.

Variable config : HigherMassResonances.Config.
Variable configMC : ConfigMC.
Variable MassK0Short MassLambda0 : R.
Variable tracks : Z -> HigherMassResonances.Track.
Variable trackHasMcParticle : Z -> bool.

Lemma pushAndFind_first (i : Z) : pushAndFind [] i = ([i], false).
Proof. reflexivity. Qed.

Lemma pushAndFind_later (g : list Z) (i : Z) :
  g <> [] -> pushAndFind g i = (g ++ [i], true).
Proof.
  intros Hg. unfold pushAndFind. f_equal.
  apply andb_true_iff. split.
  - apply Nat.ltb_lt. rewrite length_app. cbn.
    destruct g; [contradiction|cbn; lia].
  - apply existsb_exists. exists i. split; [apply in_or_app; right; left; reflexivity|].
    apply Z.eqb_refl.
Qed.

Lemma app_not_nil {A : Type} (l : list A) (x : A) : l ++ [x] <> [].
Proof. destruct l; discriminate. Qed.

(** Once [gindex2] holds an entry, the body of the inner loop records
    nothing more. *)
Lemma recMother2_blocked (code : Z) (mult : R) (v01 v02 : V0MC) (m1 m2 : McParticle)
      (filled : list FillMC) (s : MembersMC) :
  selectedPdg configMC = Some code ->
  gindex2 s <> [] ->
  exists s', recMother2 configMC MassK0Short mult v01 v02 m1 (filled, s) m2
             = Some (filled, s')
             /\ gindex2 s' <> [] /\ gindex1 s' = gindex1 s.
Proof.
  intros Hcode Hg. unfold recMother2. rewrite Hcode. cbn [bind].
  destruct (negb (pdgCode m1 =? code)%Z); [exists s; auto|].
  destruct (negb (pdgCode m1 =? pdgCode m2)%Z); [exists s; auto|].
  rewrite (pushAndFind_later _ _ Hg).
  eexists; split; [reflexivity|]. split; [apply app_not_nil|reflexivity].
Qed.

Lemma recMother2Loop_blocked (code : Z) (mult : R) (v01 v02 : V0MC) (m1 : McParticle)
      (ms : list McParticle) :
  selectedPdg configMC = Some code ->
  forall (filled : list FillMC) (s : MembersMC),
    gindex2 s <> [] ->
    exists s', recMother2Loop configMC MassK0Short mult v01 v02 m1 ms (Some (filled, s)) = Some (filled, s')
               /\ gindex1 s' = gindex1 s.
Proof.
  intros Hcode. induction ms as [|m2 ms IH]; intros filled s Hg.
  - exists s. split; reflexivity.
  - cbn [recMother2Loop fold_left bind].
    destruct (recMother2_blocked code mult v01 v02 m1 m2 filled s Hcode Hg)
      as [s1 [H1 [Hg1 Hk1]]].
    rewrite H1. destruct (IH filled s1 Hg1) as [s2 [H2 Hk2]].
    exists s2. split; [exact H2|congruence].
Qed.

Lemma recMother2_skipped (code : Z) (mult : R) (v01 v02 : V0MC) (m1 m2 : McParticle)
      (filled : list FillMC) (s : MembersMC) :
  selectedPdg configMC = Some code ->
  ((pdgCode m1 =? code)%Z && (pdgCode m1 =? pdgCode m2)%Z = false) ->
  recMother2 configMC MassK0Short mult v01 v02 m1 (filled, s) m2 = Some (filled, s).
Proof.
  intros Hcode Hp. unfold recMother2. rewrite Hcode. cbn [bind].
  destruct (pdgCode m1 =? code)%Z; cbn [negb]; [|reflexivity].
  cbn [andb] in Hp. rewrite Hp. reflexivity.
Qed.

Lemma recMother2_first (code : Z) (mult : R) (v01 v02 : V0MC) (m1 m2 : McParticle)
      (filled : list FillMC) (s : MembersMC) :
  selectedPdg configMC = Some code ->
  gindex2 s = [] ->
  (pdgCode m1 =? code)%Z = true ->
  (pdgCode m1 =? pdgCode m2)%Z = true ->
  exists s', recMother2 configMC MassK0Short mult v01 v02 m1 (filled, s) m2
             = Some (filled ++ (if recMotherAccepted configMC m1 m2
                                then snd (recEntries configMC MassK0Short mult v01 v02 m1)
                                else []), s')
             /\ gindex2 s' <> [] /\ gindex1 s' = gindex1 s.
Proof.
  intros Hcode Hg Hc Hp. unfold recMother2, recMotherAccepted.
  rewrite Hcode. cbn [bind]. rewrite Hc, Hp. cbn [negb].
  rewrite Hg, pushAndFind_first.
  destruct (globalIndex m1 =? globalIndex m2)%Z; cbn [negb andb];
    [|eexists; rewrite app_nil_r; split; [reflexivity|split; [discriminate|reflexivity]]].
  destruct (producedByGenerator m1); cbn [negb andb];
    [|eexists; rewrite app_nil_r; split; [reflexivity|split; [discriminate|reflexivity]]].
  destruct (apply_rapidityMC configMC && Rgeb (Rabs (y m1)) 0.5); cbn [negb];
    [eexists; rewrite app_nil_r; split; [reflexivity|split; [discriminate|reflexivity]]|].
  destruct (recEntries configMC MassK0Short mult v01 v02 m1) as [[d1 d2] fills].
  cbn [snd]. eexists. split; [reflexivity|split; [discriminate|reflexivity]].
Qed.

Lemma recMother2Loop_entries (code : Z) (mult : R) (v01 v02 : V0MC) (m1 : McParticle)
      (ms : list McParticle) :
  selectedPdg configMC = Some code ->
  forall (filled : list FillMC) (s : MembersMC),
    gindex2 s = [] ->
    exists s', recMother2Loop configMC MassK0Short mult v01 v02 m1 ms (Some (filled, s))
               = Some (filled ++ recMotherEntries configMC MassK0Short code mult v01 v02 m1 ms, s')
               /\ gindex1 s' = gindex1 s.
Proof.
  intros Hcode. unfold recMotherEntries.
  induction ms as [|m2 ms IH]; intros filled s Hg.
  - exists s. cbn. destruct (negb _); rewrite app_nil_r; split; reflexivity.
  - cbn [recMother2Loop fold_left bind find].
    destruct ((pdgCode m1 =? code)%Z && (pdgCode m1 =? pdgCode m2)%Z) eqn:Hboth.
    + apply andb_true_iff in Hboth. destruct Hboth as [Hc Hp].
      destruct (recMother2_first code mult v01 v02 m1 m2 filled s Hcode Hg Hc Hp)
        as [s1 [H1 [Hg1 Hk1]]].
      rewrite H1, Hc, Hp. cbn [negb].
      match goal with
      | |- context [Some (?f, s1)] =>
          destruct (recMother2Loop_blocked code mult v01 v02 m1 ms Hcode f s1 Hg1) as [s2 [H2 Hk2]]
      end.
      exists s2. split; [exact H2|congruence].
    + rewrite (recMother2_skipped code mult v01 v02 m1 m2 filled s Hcode Hboth).
      destruct (IH filled s Hg) as [s' [H' Hk]]. exists s'. split; [|exact Hk].
      fold (recMother2Loop configMC MassK0Short mult v01 v02 m1 ms (Some (filled, s))). rewrite H'.
      destruct (pdgCode m1 =? code)%Z; cbn [negb]; [|reflexivity].
      cbn [andb] in Hboth. rewrite Hboth. reflexivity.
Qed.

Lemma recMother1_blocked (mult : R) (v01 v02 : V0MC) (m1 : McParticle)
      (filled : list FillMC) (s : MembersMC) :
  gindex1 s <> [] ->
  recMother1 configMC MassK0Short mult v01 v02 (filled, s) m1
  = Some (filled, set_gindex1 s (gindex1 s ++ [globalIndex m1])).
Proof.
  intros Hg. unfold recMother1. rewrite (pushAndFind_later _ _ Hg). reflexivity.
Qed.

Lemma recMother1Loop_blocked (mult : R) (v01 v02 : V0MC) (ms : list McParticle) :
  forall (filled : list FillMC) (s : MembersMC),
    gindex1 s <> [] ->
    recMother1Loop configMC MassK0Short mult v01 v02 ms (Some (filled, s))
    = Some (filled, set_gindex1 s (gindex1 s ++ map globalIndex ms)).
Proof.
  induction ms as [|m ms IH]; intros filled s Hg.
  - cbn. rewrite app_nil_r. destruct s; reflexivity.
  - change (recMother1Loop configMC MassK0Short mult v01 v02 (m :: ms) (Some (filled, s)))
      with (recMother1Loop configMC MassK0Short mult v01 v02 ms
              (recMother1 configMC MassK0Short mult v01 v02 (filled, s) m)).
    rewrite (recMother1_blocked _ _ _ _ _ _ Hg).
    rewrite IH by (cbn; apply app_not_nil).
    cbn. rewrite <- app_assoc. reflexivity.
Qed.

Lemma recMother1Loop_undefined (mult : R) (v01 v02 : V0MC) (ms : list McParticle) :
  recMother1Loop configMC MassK0Short mult v01 v02 ms None = None.
Proof. induction ms as [|m ms IH]; [reflexivity|exact IH]. Qed.

Lemma recMother2_gindex1 (mult : R) (v01 v02 : V0MC) (m1 m2 : McParticle)
      (filled filled' : list FillMC) (s s' : MembersMC) :
  recMother2 configMC MassK0Short mult v01 v02 m1 (filled, s) m2 = Some (filled', s') ->
  gindex1 s' = gindex1 s.
Proof.
  unfold recMother2. destruct (selectedPdg configMC) as [code|]; cbn [bind];
    [|discriminate].
  destruct (negb (pdgCode m1 =? code)%Z); [intros H; injection H as _ <-; reflexivity|].
  destruct (negb (pdgCode m1 =? pdgCode m2)%Z); [intros H; injection H as _ <-; reflexivity|].
  destruct (pushAndFind (gindex2 s) (globalIndex m2)) as [g2 found].
  destruct found; [intros H; injection H as _ <-; reflexivity|].
  destruct (negb (globalIndex m1 =? globalIndex m2)%Z);
    [intros H; injection H as _ <-; reflexivity|].
  destruct (negb (producedByGenerator m1)); [intros H; injection H as _ <-; reflexivity|].
  destruct (apply_rapidityMC configMC && Rgeb (Rabs (y m1)) 0.5);
    [intros H; injection H as _ <-; reflexivity|].
  destruct (recEntries configMC MassK0Short mult v01 v02 m1) as [[d1 d2] fills].
  intros H; injection H as _ <-; reflexivity.
Qed.

Lemma recMother2Loop_undefined (mult : R) (v01 v02 : V0MC) (m1 : McParticle)
      (ms : list McParticle) :
  recMother2Loop configMC MassK0Short mult v01 v02 m1 ms None = None.
Proof. induction ms as [|m ms IH]; [reflexivity|exact IH]. Qed.

Lemma recMother2Loop_gindex1 (mult : R) (v01 v02 : V0MC) (m1 : McParticle)
      (ms : list McParticle) :
  forall (filled filled' : list FillMC) (s s' : MembersMC),
    recMother2Loop configMC MassK0Short mult v01 v02 m1 ms (Some (filled, s))
    = Some (filled', s') ->
    gindex1 s' = gindex1 s.
Proof.
  induction ms as [|m2 ms IH]; intros filled filled' s s' H.
  - injection H as _ <-. reflexivity.
  - change (recMother2Loop configMC MassK0Short mult v01 v02 m1 (m2 :: ms) (Some (filled, s)))
      with (recMother2Loop configMC MassK0Short mult v01 v02 m1 ms
              (recMother2 configMC MassK0Short mult v01 v02 m1 (filled, s) m2)) in H.
    destruct (recMother2 configMC MassK0Short mult v01 v02 m1 (filled, s) m2)
      as [[f1 s1]|] eqn:H1.
    + rewrite (IH _ _ _ _ H). exact (recMother2_gindex1 _ _ _ _ _ _ _ _ _ H1).
    + rewrite recMother2Loop_undefined in H. discriminate.
Qed.

(** After its first turn the loop over the mothers of the first V0
    changes nothing but [gindex1], which is cleared after the loop. *)
Lemma recMother1Loop_first_turn (mult : R) (v01 v02 : V0MC) (m1 : McParticle)
      (rest : list McParticle) (filled : list FillMC) (s : MembersMC) :
  gindex1 s = [] ->
  bind (recMother1Loop configMC MassK0Short mult v01 v02 (m1 :: rest) (Some (filled, s)))
       (fun '(filled', s') => Some (filled', set_gindex1 s' []))
  = bind (recMother1Loop configMC MassK0Short mult v01 v02 [m1] (Some (filled, s)))
         (fun '(filled', s') => Some (filled', set_gindex1 s' [])).
Proof.
  intros Hg.
  change (recMother1Loop configMC MassK0Short mult v01 v02 (m1 :: rest) (Some (filled, s)))
    with (recMother1Loop configMC MassK0Short mult v01 v02 rest
            (recMother1 configMC MassK0Short mult v01 v02 (filled, s) m1)).
  change (recMother1Loop configMC MassK0Short mult v01 v02 [m1] (Some (filled, s)))
    with (recMother1 configMC MassK0Short mult v01 v02 (filled, s) m1).
  unfold recMother1. rewrite Hg, pushAndFind_first.
  destruct (recMother2Loop configMC MassK0Short mult v01 v02 m1 (mothers v02) _)
    as [[filled' s2]|] eqn:H2; cbn [bind].
  - apply recMother2Loop_gindex1 in H2. cbn in H2.
    rewrite recMother1Loop_blocked by (cbn; rewrite H2; discriminate).
    reflexivity.
  - rewrite recMother1Loop_undefined. reflexivity.
Qed.

Lemma recMother1Loop_entries (code : Z) (mult : R) (v01 v02 : V0MC)
      (ms : list McParticle) (filled : list FillMC) (s : MembersMC) :
  selectedPdg configMC = Some code ->
  gindex1 s = [] -> gindex2 s = [] ->
  exists s',
    bind (recMother1Loop configMC MassK0Short mult v01 v02 ms (Some (filled, s)))
         (fun '(filled', s') => Some (filled', set_gindex1 s' []))
    = Some (filled ++ match ms with
                      | [] => []
                      | m1 :: _ =>
                          recMotherEntries configMC MassK0Short code mult v01 v02 m1
                                           (mothers v02)
                      end, s')
    /\ gindex1 s' = [] /\ gindex2 s' = [].
Proof.
  intros Hcode Hg1 Hg2. destruct ms as [|m1 rest].
  - cbn. rewrite app_nil_r. eexists. split; [reflexivity|]. split; [reflexivity|exact Hg2].
  - rewrite (recMother1Loop_first_turn _ _ _ _ _ _ _ Hg1).
    change (recMother1Loop configMC MassK0Short mult v01 v02 [m1] (Some (filled, s)))
      with (recMother1 configMC MassK0Short mult v01 v02 (filled, s) m1).
    unfold recMother1. rewrite Hg1, pushAndFind_first.
    destruct (recMother2Loop_entries code mult v01 v02 m1 (mothers v02) Hcode filled
                (set_gindex1 s [globalIndex m1]) Hg2) as [s2 [H2 Hk]].
    rewrite H2. cbn [bind]. eexists. split; [reflexivity|]. split; reflexivity.
Qed.

(** The body of the pair loop. *)
Lemma recPair_entries (code : Z) (collision : CollisionMC) (v01 v02 : V0MC)
      (filled : list FillMC) (s : MembersMC) :
  selectedPdg configMC = Some code ->
  gindex1 s = [] -> gindex2 s = [] ->
  exists s',
    recPair config configMC MassK0Short MassLambda0 tracks trackHasMcParticle
            collision (filled, s) v01 v02
    = Some (filled ++ recPairEntries config configMC MassK0Short MassLambda0 tracks
                                     trackHasMcParticle code collision v01 v02, s')
    /\ gindex1 s' = [] /\ gindex2 s' = [].
Proof.
  intros Hcode Hg1 Hg2. unfold recPair, recPairEntries.
  destruct (recGate _ _ _ _ _ _ _ _).
  - apply recMother1Loop_entries; assumption.
  - exists s. rewrite app_nil_r. auto.
Qed.

Lemma recRow_entries (code : Z) (collision : CollisionMC) (v01 : V0MC) (inner : list V0MC) :
  selectedPdg configMC = Some code ->
  forall (filled : list FillMC) (s : MembersMC),
    gindex1 s = [] -> gindex2 s = [] ->
    exists s',
      fold_left (fun a' v02 =>
                   bind a' (fun acc =>
                              recPair config configMC MassK0Short MassLambda0 tracks
                                      trackHasMcParticle collision acc v01 v02))
                inner (Some (filled, s))
      = Some (filled ++ flat_map (recPairEntries config configMC MassK0Short MassLambda0
                                                 tracks trackHasMcParticle code collision v01)
                                 inner, s')
      /\ gindex1 s' = [] /\ gindex2 s' = [].
Proof.
  intros Hcode. induction inner as [|v02 inner IH]; intros filled s Hg1 Hg2.
  - exists s. cbn. rewrite app_nil_r. auto.
  - cbn [fold_left bind flat_map].
    destruct (recPair_entries code collision v01 v02 filled s Hcode Hg1 Hg2)
      as [s1 [H1 [Ha Hb]]].
    rewrite H1.
    match goal with
    | |- context [Some (?f, s1)] => destruct (IH f s1 Ha Hb) as [s2 [H2 [Hc Hd]]]
    end.
    exists s2. rewrite H2, app_assoc. auto.
Qed.

Lemma recLoop_entries (code : Z) (collision : CollisionMC) (outer inner : list V0MC) :
  selectedPdg configMC = Some code ->
  forall (filled : list FillMC) (s : MembersMC),
    gindex1 s = [] -> gindex2 s = [] ->
    exists s',
      fold_left (fun a v01 =>
                   fold_left (fun a' v02 =>
                                bind a' (fun acc =>
                                           recPair config configMC MassK0Short MassLambda0
                                                   tracks trackHasMcParticle collision acc
                                                   v01 v02))
                             inner a)
                outer (Some (filled, s))
      = Some (filled
              ++ flat_map (fun v01 =>
                             flat_map (recPairEntries config configMC MassK0Short MassLambda0
                                                      tracks trackHasMcParticle code
                                                      collision v01)
                                      inner)
                          outer, s')
      /\ gindex1 s' = [] /\ gindex2 s' = [].
Proof.
  intros Hcode. induction outer as [|v01 outer IH]; intros filled s Hg1 Hg2.
  - exists s. cbn. rewrite app_nil_r. auto.
  - cbn [fold_left flat_map].
    destruct (recRow_entries code collision v01 inner Hcode filled s Hg1 Hg2)
      as [s1 [H1 [Ha Hb]]].
    rewrite H1.
    match goal with
    | |- context [Some (?f, s1)] => destruct (IH f s1 Ha Hb) as [s2 [H2 [Hc Hd]]]
    end.
    exists s2. rewrite H2, app_assoc. auto.
Qed.

Lemma processRec_closed (code : Z) (s : MembersMC) (collision : CollisionMC)
      (V0s : list V0MC) :
  selectedPdg configMC = Some code ->
  gindex1 s = [] -> gindex2 s = [] ->
  exists s',
    processRec config configMC MassK0Short MassLambda0 tracks trackHasMcParticle
               s collision V0s
    = Some ((if recEventSelected configMC collision then
               flat_map (fun v01 =>
                           flat_map (recPairEntries config configMC MassK0Short MassLambda0
                                                    tracks trackHasMcParticle code
                                                    collision v01)
                                    V0s)
                        V0s
             else []), s')
    /\ gindex1 s' = [] /\ gindex2 s' = [].
Proof.
  intros Hcode Hg1 Hg2. unfold processRec, recEventSelected.
  destruct (isMC configMC); cbn [negb andb]; [|exists s; auto].
  destruct (has_mcCollision collision); cbn [negb andb]; [|exists s; auto].
  destruct (Rgtb _ _); cbn [negb andb]; [exists s; auto|].
  destruct (HigherMassResonances.sel8 _); cbn [negb andb]; [|exists s; auto].
  destruct (recLoop_entries code collision V0s V0s Hcode [] s Hg1 Hg2) as [s' [H' Hg']].
  exists s'. split; [exact H'|exact Hg'].
Qed.

End RecLoops.

Section GenLoops.
Import GenVector HigherMassResonancesMC.

Variable config : HigherMassResonances.Config.
Variable configMC : ConfigMC.
Variable MassK0Short : R.

Lemma genDaughter_passKs (s : MembersMC) (d : McParticle) :
  passKs (genDaughter MassK0Short s d)
  = (if primaryKs d then passKs s ++ [true] else passKs s)
  /\ multiplicityGen (genDaughter MassK0Short s d) = multiplicityGen s.
Proof.
  unfold genDaughter, primaryKs.
  destruct (isPhysicalPrimary d); cbn [negb andb]; [|split; reflexivity].
  destruct (Z.abs (pdgCode d) =? 310)%Z; [|split; reflexivity].
  cbn [passKs set_passKs].
  destruct (List.length (passKs s ++ [true]) =? 1)%nat; [split; reflexivity|].
  destruct (List.length (passKs s ++ [true]) =? 2)%nat; split; reflexivity.
Qed.

Lemma genDaughters_passKs (ds : list McParticle) :
  forall s : MembersMC,
    List.length (passKs (fold_left (genDaughter MassK0Short) ds s))
    = (List.length (passKs s) + List.length (filter primaryKs ds))%nat
    /\ multiplicityGen (fold_left (genDaughter MassK0Short) ds s) = multiplicityGen s.
Proof.
  induction ds as [|d ds IH]; intros s.
  - cbn. split; [lia|reflexivity].
  - cbn [fold_left filter]. destruct (IH (genDaughter MassK0Short s d)) as [Hl Hm].
    destruct (genDaughter_passKs s d) as [Hp Hq].
    rewrite Hl, Hm, Hp, Hq. split; [|reflexivity].
    destruct (primaryKs d); [rewrite length_app; cbn; lia|lia].
Qed.

Lemma genDaughter_ks (s : MembersMC) (d : McParticle) :
  primaryKs d = true ->
  genDaughter MassK0Short s d
  = (let s1 := set_passKs s (passKs s ++ [true]) in
     let k := PxPyPzMVector_of (px d) (py d) (pz d) MassK0Short in
     if (List.length (passKs s1) =? 1)%nat then set_daughter1 s1 k
     else if (List.length (passKs s1) =? 2)%nat then set_daughter2 s1 k
     else s1).
Proof.
  unfold primaryKs, genDaughter. intros H.
  apply andb_true_iff in H. destruct H as [H1 H2]. rewrite H1, H2. reflexivity.
Qed.

(** The two K0s of a selected particle, once the loop over its daughters
    has run on an empty [passKs]. *)
Lemma genDaughters_pair (s : MembersMC) (a b : McParticle) :
  passKs s = [] ->
  primaryKs a = true -> primaryKs b = true ->
  let s1 := fold_left (genDaughter MassK0Short) [a; b] s in
  daughter1 s1 = PxPyPzMVector_of (px a) (py a) (pz a) MassK0Short
  /\ daughter2 s1 = PxPyPzMVector_of (px b) (py b) (pz b) MassK0Short
  /\ passKs s1 = [true; true]
  /\ multiplicityGen s1 = multiplicityGen s.
Proof.
  intros Hs Ha Hb. cbn [fold_left].
  rewrite (genDaughter_ks s a Ha), Hs. cbn.
  rewrite (genDaughter_ks _ b Hb). cbn. auto.
Qed.

Lemma genSelected_daughters (code : Z) (p : GenParticle) :
  genSelected configMC code p = true ->
  exists a b, daughters p = [a; b] /\ primaryKs a = true /\ primaryKs b = true.
Proof.
  unfold genSelected. intros H.
  apply andb_true_iff in H. destruct H as [H Hall].
  apply andb_true_iff in H. destruct H as [_ Hlen].
  destruct (daughters p) as [|a [|b [|c l]]]; try discriminate.
  exists a, b. cbn in Hall.
  apply andb_true_iff in Hall. destruct Hall as [Ha Hb].
  rewrite andb_true_r in Hb. auto.
Qed.

(** The body of the particle loop always returns when the subscript of
    [pdgCodes] is in range, and keeps [multiplicityGen]. *)
Lemma genBody_returns (code : Z) (s : MembersMC) (p : GenParticle) :
  selectedPdg configMC = Some code ->
  exists fills s',
    genBody configMC MassK0Short s p = Some (fills, s')
    /\ multiplicityGen s' = multiplicityGen s
    /\ Forall (fun f => fillMultiplicity f = multiplicityGen s) fills.
Proof.
  intros Hcode. unfold genBody. rewrite Hcode. cbn [bind].
  destruct (negb _); [exists [], s; auto|].
  destruct (apply_rapidityMC configMC && _); [exists [], s; auto|].
  destruct (negb _); [exists [], s; auto|].
  destruct (genDaughters_passKs (daughters p) s) as [_ Hm].
  destruct (_ =? 2)%nat.
  - destruct (applyPairRapidityGen configMC && _); eexists; eexists;
      (split; [reflexivity|]); (split; [cbn; exact Hm|]);
      repeat constructor; cbn; exact Hm.
  - eexists; eexists. split; [reflexivity|]. split; [cbn; exact Hm|constructor].
Qed.

Lemma genLoop_cons (s : MembersMC) (p : GenParticle) (ps : list GenParticle)
      (filled : list FillMC) :
  fold_left (fun acc p =>
               bind acc (fun '(filled, s1) =>
               bind (genBody configMC MassK0Short s1 p)
                    (fun '(fills, s2) => Some (filled ++ fills, s2))))
            (p :: ps) (Some (filled, s))
  = fold_left (fun acc p =>
               bind acc (fun '(filled, s1) =>
               bind (genBody configMC MassK0Short s1 p)
                    (fun '(fills, s2) => Some (filled ++ fills, s2))))
            ps (bind (genBody configMC MassK0Short s p)
                     (fun '(fills, s2) => Some (filled ++ fills, s2))).
Proof. reflexivity. Qed.

Lemma genLoop_from (ps : list GenParticle) :
  forall (filled : list FillMC) (s : MembersMC),
    fold_left (fun acc p =>
                 bind acc (fun '(filled, s1) =>
                 bind (genBody configMC MassK0Short s1 p)
                      (fun '(fills, s2) => Some (filled ++ fills, s2))))
              ps (Some (filled, s))
    = bind (genLoop configMC MassK0Short s ps)
           (fun '(fills, s2) => Some (filled ++ fills, s2)).
Proof.
  unfold genLoop. induction ps as [|p ps IH]; intros filled s.
  - cbn. rewrite app_nil_r. reflexivity.
  - rewrite !genLoop_cons.
    destruct (genBody configMC MassK0Short s p) as [[fills s2]|]; cbn [bind].
    + rewrite (IH (filled ++ fills)), (IH ([] ++ fills)).
      destruct (fold_left _ ps (Some ([], s2))) as [[f3 s3]|]; cbn [bind];
        [rewrite app_assoc; reflexivity|reflexivity].
    + assert (Hn : forall l, fold_left (fun acc p =>
                 bind acc (fun '(filled, s1) =>
                 bind (genBody configMC MassK0Short s1 p)
                      (fun '(fills, s2) => Some (filled ++ fills, s2)))) l None = None)
        by (induction l; [reflexivity|assumption]).
      rewrite Hn. reflexivity.
Qed.

(** The loop as its first turn followed by the loop on the rest. *)
Lemma genLoop_step (s : MembersMC) (p : GenParticle) (ps : list GenParticle) :
  genLoop configMC MassK0Short s (p :: ps)
  = bind (genBody configMC MassK0Short s p)
         (fun '(fills, s1) =>
            bind (genLoop configMC MassK0Short s1 ps)
                 (fun '(rest, s2) => Some (fills ++ rest, s2))).
Proof.
  unfold genLoop at 1. rewrite genLoop_cons.
  destruct (genBody configMC MassK0Short s p) as [[fills s1]|]; cbn [bind].
  - rewrite genLoop_from. reflexivity.
  - assert (Hn : forall l, fold_left (fun acc p =>
                 bind acc (fun '(filled, s1) =>
                 bind (genBody configMC MassK0Short s1 p)
                      (fun '(fills, s2) => Some (filled ++ fills, s2)))) l None = None)
        by (induction l; [reflexivity|assumption]).
    apply Hn.
Qed.

Lemma genLoop_returns (code : Z) (ps : list GenParticle) :
  selectedPdg configMC = Some code ->
  forall s : MembersMC,
  exists out s',
    genLoop configMC MassK0Short s ps = Some (out, s')
    /\ multiplicityGen s' = multiplicityGen s
    /\ Forall (fun f => fillMultiplicity f = multiplicityGen s) out.
Proof.
  intros Hcode. induction ps as [|p ps IH]; intros s.
  - exists [], s. auto.
  - rewrite genLoop_step.
    destruct (genBody_returns code s p Hcode) as [fills [s1 [H1 [Hm1 Hf1]]]].
    rewrite H1. cbn [bind].
    destruct (IH s1) as [rest [s2 [H2 [Hm2 Hf2]]]]. rewrite H2. cbn [bind].
    exists (fills ++ rest), s2. split; [reflexivity|]. split; [congruence|].
    apply Forall_app. split; [exact Hf1|]. rewrite <- Hm1. exact Hf2.
Qed.

(** With [applyPairRapidityGen] off a turn of the particle loop
    that starts with an empty [passKs] ends with an empty [passKs], and
    records one entry in each THnSparse exactly for a selected particle. *)
Lemma genBody_without_pair_cut (code : Z) (s : MembersMC) (p : GenParticle) :
  selectedPdg configMC = Some code ->
  applyPairRapidityGen configMC = false ->
  passKs s = [] ->
  exists fills s',
    genBody configMC MassK0Short s p = Some (fills, s')
    /\ passKs s' = []
    /\ List.length (filter isGenf1710 fills)
       = (if genSelected configMC code p then 1 else 0)%nat
    /\ List.length (filter isGenf17102 fills)
       = (if genSelected configMC code p then 1 else 0)%nat.
Proof.
  intros Hcode Hcut Hs. unfold genBody, genSelected. rewrite Hcode, Hcut. cbn [bind andb].
  destruct (Z.abs (pdgCode (particle p)) =? code)%Z; cbn [negb andb];
    [|exists [], s; auto].
  destruct (apply_rapidityMC configMC && _); cbn [negb andb]; [exists [], s; auto|].
  destruct (List.length (daughters p) =? 2)%nat eqn:Hlen; cbn [negb andb];
    [|exists [], s; auto].
  destruct (genDaughters_passKs (daughters p) s) as [Hl _].
  rewrite Hs in Hl. cbn [List.length plus] in Hl.
  assert (Hall : forallb primaryKs (daughters p)
                 = (List.length (filter primaryKs (daughters p)) =? 2)%nat).
  { destruct (daughters p) as [|a [|b [|c l]]]; try discriminate.
    unfold primaryKs. cbn.
    destruct (isPhysicalPrimary a && _); destruct (isPhysicalPrimary b && _); reflexivity. }
  rewrite Hall, Hl.
  destruct (List.length (filter primaryKs (daughters p)) =? 2)%nat;
    eexists; eexists; (split; [reflexivity|]); cbn; auto.
Qed.

Lemma genLoop_without_pair_cut (code : Z) (ps : list GenParticle) :
  selectedPdg configMC = Some code ->
  applyPairRapidityGen configMC = false ->
  forall s : MembersMC,
    passKs s = [] ->
    exists out s',
      genLoop configMC MassK0Short s ps = Some (out, s')
      /\ passKs s' = []
      /\ List.length (filter isGenf1710 out)
         = List.length (filter (genSelected configMC code) ps)
      /\ List.length (filter isGenf17102 out)
         = List.length (filter (genSelected configMC code) ps).
Proof.
  intros Hcode Hcut. induction ps as [|p ps IH]; intros s Hs.
  - exists [], s. auto.
  - rewrite genLoop_step.
    destruct (genBody_without_pair_cut code s p Hcode Hcut Hs)
      as [fills [s1 [H1 [Hs1 [Ha Hb]]]]].
    rewrite H1. cbn [bind].
    destruct (IH s1 Hs1) as [rest [s2 [H2 [Hs2 [Hc Hd]]]]]. rewrite H2. cbn [bind].
    exists (fills ++ rest), s2. split; [reflexivity|]. split; [exact Hs2|].
    rewrite !filter_app, !length_app, Ha, Hb, Hc, Hd. cbn [filter].
    destruct (genSelected configMC code p); cbn; auto.
Qed.

(** The loop over the reconstructed collisions. *)
Lemma last_cons_default {A : Type} (l : list A) :
  forall x d : A, last (x :: l) d = last l x.
Proof.
  induction l as [|z l IH]; intros x d; [reflexivity|].
  change (last (x :: z :: l) d) with (last (z :: l) d).
  rewrite (IH z d), (IH z x). reflexivity.
Qed.

Lemma genCollisionLoop_from (collisions : list CollisionMC) :
  forall (m0 : R) (l0 : list Z),
    fold_left (fun acc collision =>
                 if genCollisionSelected config configMC collision then
                   (HigherMassResonances.centFT0M (collisionRow collision),
                    snd acc ++ [mcGlobalIndex (mcCollision collision)])
                 else acc)
              collisions (m0, l0)
    = (last (map (fun c => HigherMassResonances.centFT0M (collisionRow c))
                 (filter (genCollisionSelected config configMC) collisions)) m0,
       l0 ++ map (fun c => mcGlobalIndex (mcCollision c))
                 (filter (genCollisionSelected config configMC) collisions)).
Proof.
  induction collisions as [|c cs IH]; intros m0 l0.
  - cbn. rewrite app_nil_r. reflexivity.
  - cbn [fold_left filter].
    destruct (genCollisionSelected config configMC c).
    + rewrite IH. cbn [snd map]. rewrite last_cons_default, <- app_assoc. reflexivity.
    + apply IH.
Qed.

Lemma selectedEvents_find (i : Z) (collisions : list CollisionMC) :
  existsb (Z.eqb i)
          (map (fun c => mcGlobalIndex (mcCollision c))
               (filter (genCollisionSelected config configMC) collisions))
  = existsb (fun collision =>
               genCollisionSelected config configMC collision
               && (i =? mcGlobalIndex (mcCollision collision))%Z)
            collisions.
Proof.
  induction collisions as [|c cs IH]; [reflexivity|].
  cbn [filter existsb]. destruct (genCollisionSelected config configMC c);
    cbn [map existsb andb orb]; rewrite IH; reflexivity.
Qed.

End GenLoops.

Section CountingEntries.

Context {A B C : Type}.

Lemma count_flat_map_pairs (g : A -> B -> list C) (P : C -> bool) (Q : A * B -> bool)
      (la : list A) (lb : list B) :
  (forall a b, (List.length (filter P (g a b)) <= if Q (a, b) then 1 else 0)%nat) ->
  (List.length (filter P (flat_map (fun a => flat_map (g a) lb) la))
   <= List.length (filter Q (list_prod la lb)))%nat.
Proof.
  intros Hg. induction la as [|a la IH]; [cbn; lia|].
  cbn [flat_map list_prod]. rewrite !filter_app, !length_app.
  apply Nat.add_le_mono; [|exact IH].
  clear IH. induction lb as [|b lb IH]; [cbn; lia|].
  cbn [flat_map map filter]. rewrite filter_app, length_app.
  specialize (Hg a b). destruct (Q (a, b)); cbn [List.length]; lia.
Qed.

Lemma count_flat_map_le (g : A -> list C) (P1 P2 : C -> bool) (la : list A) :
  (forall a, (List.length (filter P2 (g a)) <= List.length (filter P1 (g a)))%nat) ->
  (List.length (filter P2 (flat_map g la)) <= List.length (filter P1 (flat_map g la)))%nat.
Proof.
  intros Hg. induction la as [|a la IH]; [cbn; lia|].
  cbn [flat_map]. rewrite !filter_app, !length_app. specialize (Hg a). lia.
Qed.

Lemma count_flat_map_eq (g : A -> list C) (P1 P2 : C -> bool) (la : list A) :
  (forall a, List.length (filter P2 (g a)) = List.length (filter P1 (g a))) ->
  List.length (filter P2 (flat_map g la)) = List.length (filter P1 (flat_map g la)).
Proof.
  intros Hg. induction la as [|a la IH]; [reflexivity|].
  cbn [flat_map]. rewrite !filter_app, !length_app, Hg, IH. reflexivity.
Qed.

End CountingEntries.

Section RecEntries.
Import GenVector HigherMassResonancesMC.

Variable config : HigherMassResonances.Config.
Variable configMC : ConfigMC.
Variable MassK0Short MassLambda0 : R.
Variable tracks : Z -> HigherMassResonances.Track.
Variable trackHasMcParticle : Z -> bool.

Lemma recGate_index (collision : CollisionMC) (v01 v02 : V0MC) :
  recGate config MassK0Short MassLambda0 tracks trackHasMcParticle collision v01 v02 = true ->
  (index v01 <? index v02)%Z = true.
Proof.
  unfold recGate. destruct (Z.leb_spec (index v02) (index v01)); [discriminate|].
  intros _. apply Z.ltb_lt. assumption.
Qed.

(** The innermost block records [Recf1710_pt1] once and [Recf1710_pt2]
    at most once. *)
Lemma recEntries_counts (mult : R) (v01 v02 : V0MC) (m1 : McParticle) :
  let fills := snd (recEntries configMC MassK0Short mult v01 v02 m1) in
  List.length (filter isRecf1710_pt1 fills) = 1%nat
  /\ List.length (filter isRecf1710_pt2 fills)
     = (if applyPairRapidityRec configMC
           && Rgeb (Rabs (Py (add (HigherMassResonances.kshort MassK0Short (v0Row v01))
                                   (HigherMassResonances.kshort MassK0Short (v0Row v02)))))
                   0.5
        then 0 else 1)%nat.
Proof.
  unfold recEntries. cbn [snd]. destruct (applyPairRapidityRec configMC && _); cbn; auto.
Qed.

Lemma recPairEntries_counts (code : Z) (collision : CollisionMC) (v01 v02 : V0MC) :
  let fills := recPairEntries config configMC MassK0Short MassLambda0 tracks
                              trackHasMcParticle code collision v01 v02 in
  (List.length (filter isRecf1710_pt1 fills)
   <= if (index v01 <? index v02)%Z then 1 else 0)%nat
  /\ (List.length (filter isRecf1710_pt2 fills)
      <= List.length (filter isRecf1710_pt1 fills))%nat
  /\ (applyPairRapidityRec configMC = false ->
      List.length (filter isRecf1710_pt2 fills)
      = List.length (filter isRecf1710_pt1 fills)).
Proof.
  unfold recPairEntries, recMotherEntries.
  destruct (recGate _ _ _ _ _ _ _ _) eqn:Hgate; [|cbn; repeat split; lia].
  rewrite (recGate_index _ _ _ Hgate).
  destruct (mothers v01) as [|m1 rest]; [cbn; repeat split; lia|].
  destruct (negb _); [cbn; repeat split; lia|].
  destruct (find _ _) as [m2|]; [|cbn; repeat split; lia].
  destruct (recMotherAccepted configMC m1 m2); [|cbn; repeat split; lia].
  destruct (recEntries_counts (HigherMassResonances.centFT0M (collisionRow collision))
                              v01 v02 m1) as [H1 H2].
  cbv zeta in H1, H2. rewrite H1, H2. repeat split; try lia.
  - destruct (_ && _); lia.
  - intros Hoff. rewrite Hoff. reflexivity.
Qed.

Lemma recGate_firstMotherOnly (collision : CollisionMC) (v01 v02 : V0MC) :
  recGate config MassK0Short MassLambda0 tracks trackHasMcParticle collision
          (firstMotherOnly v01) v02
  = recGate config MassK0Short MassLambda0 tracks trackHasMcParticle collision v01 v02.
Proof. reflexivity. Qed.

Lemma recMother1Loop_firstMotherOnly (mult : R) (v01 v02 : V0MC) (ms : list McParticle)
      (a : option (list FillMC * MembersMC)) :
  recMother1Loop configMC MassK0Short mult (firstMotherOnly v01) v02 ms a
  = recMother1Loop configMC MassK0Short mult v01 v02 ms a.
Proof. reflexivity. Qed.

End RecEntries.

(** X20: when the subscript of [pdgCodes] is in range and [gindex1],
    [gindex2] are empty at entry, [processRec] returns with both empty
    again, and what it records is, pair by pair in the order of the two
    loops over the V0s, the entries of the first mother of the first V0:
    none unless the event passes the event cuts, the pair passes the cuts
    of the pair loop, that mother has the selected code, and the first
    mother of the second V0 with the same code is the same particle and
    passes the generator and rapidity cuts. *)
Theorem reconstructed_entries_by_pair :
  forall (config : HigherMassResonances.Config)
         (configMC : HigherMassResonancesMC.ConfigMC)
         (MassK0Short MassLambda0 : R)
         (tracks : Z -> HigherMassResonances.Track)
         (trackHasMcParticle : Z -> bool)
         (code : Z)
         (s : HigherMassResonancesMC.MembersMC)
         (collision : HigherMassResonancesMC.CollisionMC)
         (V0s : list HigherMassResonancesMC.V0MC),
    HigherMassResonancesMC.selectedPdg configMC = Some code ->
    HigherMassResonancesMC.gindex1 s = [] ->
    HigherMassResonancesMC.gindex2 s = [] ->
    exists s',
      HigherMassResonancesMC.processRec config configMC MassK0Short MassLambda0 tracks
                                        trackHasMcParticle s collision V0s
      = Some ((if HigherMassResonancesMC.recEventSelected configMC collision then
                 flat_map (fun v01 =>
                             flat_map (HigherMassResonancesMC.recPairEntries
                                         config configMC MassK0Short MassLambda0 tracks
                                         trackHasMcParticle code collision v01)
                                      V0s)
                          V0s
               else []), s')
      /\ HigherMassResonancesMC.gindex1 s' = []
      /\ HigherMassResonancesMC.gindex2 s' = [].
Proof.
  intros. apply processRec_closed; assumption.
Qed.

Lemma reconstructed_entries_by_pair_witness :
  HigherMassResonancesMC.selectedPdg sampleConfigMC = Some 335%Z
  /\ exists s',
      HigherMassResonancesMC.processRec defaultConfig sampleConfigMC 0.497611 1.115683
                                        chargedTracks (fun _ => true) initialMembersMC
                                        sampleCollisionMC [sampleV0MC 0; sampleV0MC 1]
      = Some ((if HigherMassResonancesMC.recEventSelected sampleConfigMC sampleCollisionMC
               then
                 flat_map (fun v01 =>
                             flat_map (HigherMassResonancesMC.recPairEntries
                                         defaultConfig sampleConfigMC 0.497611 1.115683
                                         chargedTracks (fun _ => true) 335%Z
                                         sampleCollisionMC v01)
                                      [sampleV0MC 0; sampleV0MC 1])
                          [sampleV0MC 0; sampleV0MC 1]
               else []), s')
      /\ HigherMassResonancesMC.gindex1 s' = []
      /\ HigherMassResonancesMC.gindex2 s' = [].
Proof.
  split; [reflexivity|].
  apply (reconstructed_entries_by_pair
           defaultConfig sampleConfigMC 0.497611 1.115683 chargedTracks (fun _ => true)
           335%Z initialMembersMC sampleCollisionMC [sampleV0MC 0; sampleV0MC 1]);
    reflexivity.
Defined.

(** X21: under the same conditions every pair of V0s contributes at most
    one entry to [Recf1710_pt1], and only a pair whose first index is
    below the second; [Recf1710_pt2] never has more entries than
    [Recf1710_pt1], and has as many when [applyPairRapidityRec] is off. *)
Theorem reconstructed_entries_at_most_one_per_pair :
  forall (config : HigherMassResonances.Config)
         (configMC : HigherMassResonancesMC.ConfigMC)
         (MassK0Short MassLambda0 : R)
         (tracks : Z -> HigherMassResonances.Track)
         (trackHasMcParticle : Z -> bool)
         (code : Z)
         (s : HigherMassResonancesMC.MembersMC)
         (collision : HigherMassResonancesMC.CollisionMC)
         (V0s : list HigherMassResonancesMC.V0MC),
    HigherMassResonancesMC.selectedPdg configMC = Some code ->
    HigherMassResonancesMC.gindex1 s = [] ->
    HigherMassResonancesMC.gindex2 s = [] ->
    exists out s',
      HigherMassResonancesMC.processRec config configMC MassK0Short MassLambda0 tracks
                                        trackHasMcParticle s collision V0s
      = Some (out, s')
      /\ (List.length (filter HigherMassResonancesMC.isRecf1710_pt1 out)
          <= List.length
               (filter (fun pair => (HigherMassResonancesMC.index (fst pair)
                                     <? HigherMassResonancesMC.index (snd pair))%Z)
                       (list_prod V0s V0s)))%nat
      /\ (List.length (filter HigherMassResonancesMC.isRecf1710_pt2 out)
          <= List.length (filter HigherMassResonancesMC.isRecf1710_pt1 out))%nat
      /\ (HigherMassResonancesMC.applyPairRapidityRec configMC = false ->
          List.length (filter HigherMassResonancesMC.isRecf1710_pt2 out)
          = List.length (filter HigherMassResonancesMC.isRecf1710_pt1 out)).
Proof.
  intros config configMC MassK0Short MassLambda0 tracks trackHasMcParticle code s
         collision V0s Hcode Hg1 Hg2.
  destruct (processRec_closed config configMC MassK0Short MassLambda0 tracks
              trackHasMcParticle code s collision V0s Hcode Hg1 Hg2) as [s' [H _]].
  eexists. exists s'. split; [exact H|].
  destruct (HigherMassResonancesMC.recEventSelected configMC collision);
    [|cbn; repeat split; lia].
  pose proof (recPairEntries_counts config configMC MassK0Short MassLambda0 tracks
                trackHasMcParticle code collision) as Hc.
  cbv zeta in Hc.
  split; [|split].
  - apply (count_flat_map_pairs
             (HigherMassResonancesMC.recPairEntries config configMC MassK0Short MassLambda0
                tracks trackHasMcParticle code collision)
             HigherMassResonancesMC.isRecf1710_pt1
             (fun pair => (HigherMassResonancesMC.index (fst pair)
                           <? HigherMassResonancesMC.index (snd pair))%Z)).
    intros a b. exact (proj1 (Hc a b)).
  - apply count_flat_map_le. intros a. apply count_flat_map_le. intros b.
    exact (proj1 (proj2 (Hc a b))).
  - intros Hoff. apply count_flat_map_eq. intros a. apply count_flat_map_eq. intros b.
    exact (proj2 (proj2 (Hc a b)) Hoff).
Qed.

Lemma reconstructed_entries_at_most_one_per_pair_witness :
  HigherMassResonancesMC.selectedPdg sampleConfigMC = Some 335%Z
  /\ exists out s',
      HigherMassResonancesMC.processRec defaultConfig sampleConfigMC 0.497611 1.115683
                                        chargedTracks (fun _ => true) initialMembersMC
                                        sampleCollisionMC [sampleV0MC 0; sampleV0MC 1]
      = Some (out, s')
      /\ (List.length (filter HigherMassResonancesMC.isRecf1710_pt1 out) <= 1)%nat.
Proof.
  split; [reflexivity|].
  destruct (reconstructed_entries_at_most_one_per_pair
              defaultConfig sampleConfigMC 0.497611 1.115683 chargedTracks (fun _ => true)
              335%Z initialMembersMC sampleCollisionMC [sampleV0MC 0; sampleV0MC 1]
              eq_refl eq_refl eq_refl) as [out [s' [H [Hle _]]]].
  exists out, s'. split; [exact H|exact Hle].
Defined.

(** X22: of the mothers of the first V0 of a pair only the first is ever
    considered.  With [gindex1] empty at entry, the body of the pair loop
    records the same entries and leaves the same members behind when the
    further mothers of the first V0 are dropped. *)
Theorem only_first_mother_of_first_V0_considered :
  forall (config : HigherMassResonances.Config)
         (configMC : HigherMassResonancesMC.ConfigMC)
         (MassK0Short MassLambda0 : R)
         (tracks : Z -> HigherMassResonances.Track)
         (trackHasMcParticle : Z -> bool)
         (collision : HigherMassResonancesMC.CollisionMC)
         (filled : list HigherMassResonancesMC.FillMC)
         (s : HigherMassResonancesMC.MembersMC)
         (v01 v02 : HigherMassResonancesMC.V0MC),
    HigherMassResonancesMC.gindex1 s = [] ->
    HigherMassResonancesMC.recPair config configMC MassK0Short MassLambda0 tracks
                                   trackHasMcParticle collision (filled, s) v01 v02
    = HigherMassResonancesMC.recPair config configMC MassK0Short MassLambda0 tracks
                                     trackHasMcParticle collision (filled, s)
                                     (HigherMassResonancesMC.firstMotherOnly v01) v02.
Proof.
  intros config configMC MassK0Short MassLambda0 tracks trackHasMcParticle collision
         filled s v01 v02 Hg.
  unfold HigherMassResonancesMC.recPair.
  rewrite recGate_firstMotherOnly.
  destruct (HigherMassResonancesMC.recGate _ _ _ _ _ _ _ _); [|reflexivity].
  rewrite recMother1Loop_firstMotherOnly.
  destruct (HigherMassResonancesMC.mothers v01) as [|m1 rest] eqn:Hm.
  - unfold HigherMassResonancesMC.firstMotherOnly. cbn. rewrite Hm. reflexivity.
  - unfold HigherMassResonancesMC.firstMotherOnly at 1.
    cbn [HigherMassResonancesMC.mothers]. rewrite Hm. cbn [firstn].
    apply recMother1Loop_first_turn. exact Hg.
Qed.

Lemma only_first_mother_of_first_V0_considered_witness :
  HigherMassResonancesMC.gindex1 initialMembersMC = []
  /\ HigherMassResonancesMC.recPair defaultConfig sampleConfigMC 0.497611 1.115683
                                    chargedTracks (fun _ => true) sampleCollisionMC
                                    ([], initialMembersMC) (sampleV0MC 0) (sampleV0MC 1)
     = HigherMassResonancesMC.recPair defaultConfig sampleConfigMC 0.497611 1.115683
                                      chargedTracks (fun _ => true) sampleCollisionMC
                                      ([], initialMembersMC)
                                      (HigherMassResonancesMC.firstMotherOnly (sampleV0MC 0))
                                      (sampleV0MC 1).
Proof.
  split; [reflexivity|].
  apply (only_first_mother_of_first_V0_considered
           defaultConfig sampleConfigMC 0.497611 1.115683 chargedTracks (fun _ => true)
           sampleCollisionMC [] initialMembersMC (sampleV0MC 0) (sampleV0MC 1)).
  reflexivity.
Defined.

Section GenEntries.
Import GenVector HigherMassResonancesMC.

Variable config : HigherMassResonances.Config.
Variable configMC : ConfigMC.
Variable MassK0Short : R.

Lemma processGen_unfold (s : MembersMC) (mcCollision_ : McCollision)
      (mcParticles : list GenParticle) (collisions : list CollisionMC) :
  processGen config configMC MassK0Short s mcCollision_ mcParticles collisions
  = if genEventAccepted config configMC mcCollision_ collisions then
      genLoop configMC MassK0Short
              (set_multiplicityGen
                 s (last (map (fun c => HigherMassResonances.centFT0M (collisionRow c))
                              (filter (genCollisionSelected config configMC) collisions)) 0))
              mcParticles
    else if isMC configMC then
      Some ([], set_multiplicityGen
                  s (last (map (fun c => HigherMassResonances.centFT0M (collisionRow c))
                               (filter (genCollisionSelected config configMC) collisions)) 0))
    else Some ([], s).
Proof.
  unfold processGen, genEventAccepted, genCollisionLoop.
  destruct (isMC configMC); cbn [negb andb]; [|reflexivity].
  rewrite genCollisionLoop_from. cbn [app]. rewrite selectedEvents_find.
  destruct (allGenCollisions configMC); cbn [negb andb orb]; [reflexivity|].
  destruct (existsb _ collisions); reflexivity.
Qed.

(** The three cuts of the particle loop pass for a selected particle. *)
Lemma genSelected_cuts (code : Z) (p : GenParticle) :
  genSelected configMC code p = true ->
  negb (Z.abs (pdgCode (particle p)) =? code)%Z = false
  /\ apply_rapidityMC configMC && Rgeb (Rabs (y (particle p))) 0.5 = false
  /\ negb (List.length (daughters p) =? 2)%nat = false.
Proof.
  unfold genSelected. intros H.
  apply andb_true_iff in H. destruct H as [H _].
  apply andb_true_iff in H. destruct H as [H Hlen].
  apply andb_true_iff in H. destruct H as [Hc Hy].
  rewrite Hc, Hlen. apply negb_true_iff in Hy. auto.
Qed.

End GenEntries.

(** X23: with [applyPairRapidityGen] off (and the subscript of [pdgCodes]
    in range, [passKs] empty at entry) [processGen] returns with [passKs]
    empty again, and [Genf1710] and [Genf17102] receive the same number
    of entries: one for each generated particle with the selected code
    that passes the rapidity cut and has exactly two daughters, both
    physical primary K0s, when the generated collision is processed, and
    none otherwise. *)
Theorem generated_spectra_agree_without_pair_cut :
  forall (config : HigherMassResonances.Config)
         (configMC : HigherMassResonancesMC.ConfigMC)
         (MassK0Short : R) (code : Z)
         (s : HigherMassResonancesMC.MembersMC)
         (mcCollision : HigherMassResonancesMC.McCollision)
         (mcParticles : list HigherMassResonancesMC.GenParticle)
         (collisions : list HigherMassResonancesMC.CollisionMC),
    HigherMassResonancesMC.selectedPdg configMC = Some code ->
    HigherMassResonancesMC.applyPairRapidityGen configMC = false ->
    HigherMassResonancesMC.passKs s = [] ->
    exists out s',
      HigherMassResonancesMC.processGen config configMC MassK0Short s mcCollision
                                        mcParticles collisions
      = Some (out, s')
      /\ HigherMassResonancesMC.passKs s' = []
      /\ List.length (filter HigherMassResonancesMC.isGenf1710 out)
         = (if HigherMassResonancesMC.genEventAccepted config configMC mcCollision collisions
            then List.length (filter (HigherMassResonancesMC.genSelected configMC code)
                                     mcParticles)
            else 0%nat)
      /\ List.length (filter HigherMassResonancesMC.isGenf17102 out)
         = List.length (filter HigherMassResonancesMC.isGenf1710 out).
Proof.
  intros config configMC MassK0Short code s mcCollision mcParticles collisions
         Hcode Hcut Hs.
  rewrite processGen_unfold.
  destruct (HigherMassResonancesMC.genEventAccepted config configMC mcCollision collisions).
  - match goal with
    | |- context [HigherMassResonancesMC.genLoop _ _ ?s0 _] =>
        destruct (genLoop_without_pair_cut configMC MassK0Short code mcParticles
                    Hcode Hcut s0 Hs) as [out [s' [H [Hp [Ha Hb]]]]]
    end.
    exists out, s'. split; [exact H|]. split; [exact Hp|]. split; [exact Ha|congruence].
  - destruct (HigherMassResonancesMC.isMC configMC); eexists; eexists;
      (split; [reflexivity|]); cbn; auto.
Qed.

Lemma generated_spectra_agree_without_pair_cut_witness :
  HigherMassResonancesMC.selectedPdg sampleConfigMC = Some 335%Z
  /\ exists out s',
      HigherMassResonancesMC.processGen defaultConfig sampleConfigMC 0.497611
                                        initialMembersMC
                                        (HigherMassResonancesMC.mkMcCollision 0%Z 0)
                                        [sampleResonance] [sampleCollisionMC]
      = Some (out, s')
      /\ List.length (filter HigherMassResonancesMC.isGenf17102 out)
         = List.length (filter HigherMassResonancesMC.isGenf1710 out).
Proof.
  split; [reflexivity|].
  destruct (generated_spectra_agree_without_pair_cut
              defaultConfig sampleConfigMC 0.497611 335%Z initialMembersMC
              (HigherMassResonancesMC.mkMcCollision 0%Z 0)
              [sampleResonance] [sampleCollisionMC] eq_refl eq_refl eq_refl)
    as [out [s' [H [_ [_ Hb]]]]].
  exists out, s'. split; [exact H|exact Hb].
Defined.

(** X24: with [applyPairRapidityGen] on, a selected particle for which
    the cut on [lResonance_gen1.Y ()] fires (the y component of the
    momentum of its two K0s is 0.5 or more in absolute value) leaves
    [passKs] filled.  The next selected particle then records nothing at
    all, whatever its kinematics, although on its own it would record:
    the loop over the two particles records only the [Genf1710] entry of
    the first. *)
Theorem pair_rapidity_rejection_carries_over :
  forall (configMC : HigherMassResonancesMC.ConfigMC)
         (MassK0Short : R) (code : Z)
         (s : HigherMassResonancesMC.MembersMC)
         (p1 p2 : HigherMassResonancesMC.GenParticle)
         (a b : HigherMassResonancesMC.McParticle),
    HigherMassResonancesMC.selectedPdg configMC = Some code ->
    HigherMassResonancesMC.applyPairRapidityGen configMC = true ->
    HigherMassResonancesMC.passKs s = [] ->
    HigherMassResonancesMC.genSelected configMC code p1 = true ->
    HigherMassResonancesMC.genSelected configMC code p2 = true ->
    HigherMassResonancesMC.daughters p1 = [a; b] ->
    0.5 <= Rabs (GenVector.Py
                   (GenVector.add
                      (GenVector.PxPyPzMVector_of
                         (HigherMassResonancesMC.px a) (HigherMassResonancesMC.py a)
                         (HigherMassResonancesMC.pz a) MassK0Short)
                      (GenVector.PxPyPzMVector_of
                         (HigherMassResonancesMC.px b) (HigherMassResonancesMC.py b)
                         (HigherMassResonancesMC.pz b) MassK0Short))) ->
    exists f s1 s2,
      HigherMassResonancesMC.genLoop configMC MassK0Short s [p1] = Some ([f], s1)
      /\ HigherMassResonancesMC.isGenf1710 f = true
      /\ HigherMassResonancesMC.genLoop configMC MassK0Short s [p1; p2] = Some ([f], s2)
      /\ HigherMassResonancesMC.passKs s2 = []
      /\ exists out s3,
          HigherMassResonancesMC.genLoop configMC MassK0Short s [p2] = Some (out, s3)
          /\ out <> [].
Proof.
  intros configMC MassK0Short code s p1 p2 a b Hcode Hcut Hs Hp1 Hp2 Hd Hy.
  destruct (genSelected_cuts configMC code p1 Hp1) as [Ha1 [Ha2 Ha3]].
  destruct (genSelected_cuts configMC code p2 Hp2) as [Hb1 [Hb2 Hb3]].
  destruct (genSelected_daughters configMC code p1 Hp1) as [a' [b' [Hd' [Hka Hkb]]]].
  rewrite Hd in Hd'. injection Hd' as <- <-.
  destruct (genSelected_daughters configMC code p2 Hp2) as [a2 [b2 [Hd2 [Hka2 Hkb2]]]].
  (* the turn of the first particle *)
  assert (H1 : exists f s1,
             HigherMassResonancesMC.genBody configMC MassK0Short s p1 = Some ([f], s1)
             /\ HigherMassResonancesMC.isGenf1710 f = true
             /\ HigherMassResonancesMC.passKs s1 = [true; true]).
  { unfold HigherMassResonancesMC.genBody. rewrite Hcode. cbn [HigherMassResonancesMC.bind].
    rewrite Ha1, Ha2, Ha3, Hd.
    destruct (genDaughters_pair MassK0Short s a b Hs Hka Hkb) as [Hd1 [Hd2' [Hpk _]]].
    cbv zeta in Hd1, Hd2', Hpk. rewrite Hpk, Hd1, Hd2'. cbn [List.length Nat.eqb].
    rewrite Hcut. unfold Rgeb. rewrite (Rleb_le _ _ Hy). cbn [andb].
    eexists; eexists. split; [reflexivity|]. split; [reflexivity|exact Hpk]. }
  destruct H1 as [f [s1 [H1 [Hf Hpk1]]]].
  (* the turn of the second particle, after the first *)
  assert (H2 : exists s2,
             HigherMassResonancesMC.genBody configMC MassK0Short s1 p2 = Some ([], s2)
             /\ HigherMassResonancesMC.passKs s2 = []).
  { unfold HigherMassResonancesMC.genBody. rewrite Hcode. cbn [HigherMassResonancesMC.bind].
    rewrite Hb1, Hb2, Hb3.
    destruct (genDaughters_passKs MassK0Short (HigherMassResonancesMC.daughters p2) s1)
      as [Hl _].
    rewrite Hl, Hpk1, Hd2. cbn [filter]. rewrite Hka2, Hkb2. cbn [List.length plus Nat.eqb].
    eexists. split; reflexivity. }
  destruct H2 as [s2 [H2 Hpk2]].
  (* the second particle on its own *)
  assert (H3 : exists out s3,
             HigherMassResonancesMC.genBody configMC MassK0Short s p2 = Some (out, s3)
             /\ out <> []).
  { unfold HigherMassResonancesMC.genBody. rewrite Hcode. cbn [HigherMassResonancesMC.bind].
    rewrite Hb1, Hb2, Hb3.
    destruct (genDaughters_passKs MassK0Short (HigherMassResonancesMC.daughters p2) s)
      as [Hl _].
    rewrite Hl, Hs, Hd2. cbn [filter]. rewrite Hka2, Hkb2. cbn [List.length plus Nat.eqb].
    destruct (HigherMassResonancesMC.applyPairRapidityGen configMC && _);
      eexists; eexists; (split; [reflexivity|discriminate]). }
  destruct H3 as [out [s3 [H3 Hout]]].
  exists f, s1, s2.
  rewrite !genLoop_step, H1. cbn [HigherMassResonancesMC.bind].
  rewrite genLoop_step, H2. cbn [HigherMassResonancesMC.bind].
  rewrite H3. cbn [HigherMassResonancesMC.bind HigherMassResonancesMC.genLoop fold_left app].
  repeat split; try assumption.
  exists (out ++ []), s3. split; [reflexivity|].
  rewrite app_nil_r. exact Hout.
Qed.

(** X25: every entry [processGen] records carries as multiplicity the
    [centFT0M] of the last reconstructed collision that passes its
    vertex, time-frame and trigger selection, and 0 when no collision
    passes. *)
Theorem generated_multiplicity_of_last_selected_collision :
  forall (config : HigherMassResonances.Config)
         (configMC : HigherMassResonancesMC.ConfigMC)
         (MassK0Short : R) (code : Z)
         (s : HigherMassResonancesMC.MembersMC)
         (mcCollision : HigherMassResonancesMC.McCollision)
         (mcParticles : list HigherMassResonancesMC.GenParticle)
         (collisions : list HigherMassResonancesMC.CollisionMC),
    HigherMassResonancesMC.selectedPdg configMC = Some code ->
    exists out s',
      HigherMassResonancesMC.processGen config configMC MassK0Short s mcCollision
                                        mcParticles collisions
      = Some (out, s')
      /\ Forall (fun f =>
                   HigherMassResonancesMC.fillMultiplicity f
                   = last (map (fun c => HigherMassResonances.centFT0M
                                           (HigherMassResonancesMC.collisionRow c))
                               (filter (HigherMassResonancesMC.genCollisionSelected
                                          config configMC)
                                       collisions))
                          0)
                out.
Proof.
  intros config configMC MassK0Short code s mcCollision mcParticles collisions Hcode.
  rewrite processGen_unfold.
  destruct (HigherMassResonancesMC.genEventAccepted config configMC mcCollision collisions).
  - match goal with
    | |- context [HigherMassResonancesMC.genLoop _ _ ?s0 _] =>
        destruct (genLoop_returns configMC MassK0Short code mcParticles Hcode s0)
          as [out [s' [H [_ Hf]]]]
    end.
    exists out, s'. split; [exact H|exact Hf].
  - destruct (HigherMassResonancesMC.isMC configMC); eexists; eexists;
      (split; [reflexivity|constructor]).
Qed.

Lemma generated_multiplicity_of_last_selected_collision_witness :
  HigherMassResonancesMC.selectedPdg sampleConfigMC = Some 335%Z
  /\ exists out s',
      HigherMassResonancesMC.processGen defaultConfig sampleConfigMC 0.497611
                                        initialMembersMC
                                        (HigherMassResonancesMC.mkMcCollision 0%Z 0)
                                        [sampleResonance] [sampleCollisionMC]
      = Some (out, s').
Proof.
  split; [reflexivity|].
  destruct (generated_multiplicity_of_last_selected_collision
              defaultConfig sampleConfigMC 0.497611 335%Z initialMembersMC
              (HigherMassResonancesMC.mkMcCollision 0%Z 0)
              [sampleResonance] [sampleCollisionMC] eq_refl)
    as [out [s' [H _]]].
  exists out, s'. exact H.
Defined.

Lemma sidewaysResonance_selected :
  HigherMassResonancesMC.genSelected pairCutConfigMC 335 sidewaysResonance = true.
Proof.
  unfold HigherMassResonancesMC.genSelected, sidewaysResonance, pairCutConfigMC, Rgeb.
  cbn [HigherMassResonancesMC.particle HigherMassResonancesMC.pdgCode
       HigherMassResonancesMC.y HigherMassResonancesMC.apply_rapidityMC
       HigherMassResonancesMC.daughters].
  rewrite (Rleb_gt 0.5 (Rabs 0)) by (rewrite Rabs_R0; lra).
  reflexivity.
Qed.

(** Two K0s of momentum (0, 1, 0) have the pair momentum (0, 2, 0). *)
Lemma sidewaysKs_pair_Py :
  0.5 <= Rabs (GenVector.Py
                 (GenVector.add
                    (GenVector.PxPyPzMVector_of
                       (HigherMassResonancesMC.px sidewaysKs)
                       (HigherMassResonancesMC.py sidewaysKs)
                       (HigherMassResonancesMC.pz sidewaysKs) 0.497611)
                    (GenVector.PxPyPzMVector_of
                       (HigherMassResonancesMC.px sidewaysKs)
                       (HigherMassResonancesMC.py sidewaysKs)
                       (HigherMassResonancesMC.pz sidewaysKs) 0.497611))).
Proof.
  cbn [sidewaysKs HigherMassResonancesMC.px HigherMassResonancesMC.py
       HigherMassResonancesMC.pz].
  assert (Hk : GenVector.PxPyPzMVector_of 0 1 0 0.497611
               = GenVector.mkPxPyPzMraw 0 1 0 0.497611).
  { unfold GenVector.PxPyPzMVector_of, Rgeb. rewrite Rleb_le by lra. reflexivity. }
  rewrite Hk. unfold GenVector.add, GenVector.toPxPyPzM.
  cbn [GenVector.Py GenVector.ePy].
  rewrite Rabs_right by lra. lra.
Qed.

Lemma pair_rapidity_rejection_carries_over_witness :
  HigherMassResonancesMC.genSelected pairCutConfigMC 335 sidewaysResonance = true
  /\ 0.5 <= Rabs (GenVector.Py
                    (GenVector.add
                       (GenVector.PxPyPzMVector_of
                          (HigherMassResonancesMC.px sidewaysKs)
                          (HigherMassResonancesMC.py sidewaysKs)
                          (HigherMassResonancesMC.pz sidewaysKs) 0.497611)
                       (GenVector.PxPyPzMVector_of
                          (HigherMassResonancesMC.px sidewaysKs)
                          (HigherMassResonancesMC.py sidewaysKs)
                          (HigherMassResonancesMC.pz sidewaysKs) 0.497611)))
  /\ exists f s1 s2,
      HigherMassResonancesMC.genLoop pairCutConfigMC 0.497611 initialMembersMC
                                     [sidewaysResonance]
      = Some ([f], s1)
      /\ HigherMassResonancesMC.isGenf1710 f = true
      /\ HigherMassResonancesMC.genLoop pairCutConfigMC 0.497611 initialMembersMC
                                        [sidewaysResonance; sidewaysResonance]
         = Some ([f], s2).
Proof.
  split; [exact sidewaysResonance_selected|].
  split; [exact sidewaysKs_pair_Py|].
  destruct (pair_rapidity_rejection_carries_over
              pairCutConfigMC 0.497611 335%Z initialMembersMC
              sidewaysResonance sidewaysResonance
              sidewaysKs sidewaysKs eq_refl eq_refl eq_refl
              sidewaysResonance_selected sidewaysResonance_selected eq_refl
              sidewaysKs_pair_Py)
    as [f [s1 [s2 [H1 [Hf [H2 _]]]]]].
  exists f, s1, s2. split; [exact H1|]. split; [exact Hf|exact H2].
Defined.

(** * Which same-event pairs are recorded *)

Section RecordedPairs.
Import GenVector HigherMassResonances HigherMassResonancesLoops.

Variable config : Config.
Variable MassK0Short MassLambda0 : R.
Variable tracks : Z -> Track.

Hypothesis policy :
  activateTHnSparseCosThStarHelicity config
  || activateTHnSparseCosThStarProduction config
  || activateTHnSparseCosThStarBeam config
  || activateTHnSparseCosThStarRandom config = true.

Lemma fillInvMass_multiplicity (s : Members) (m d1 d2 : PxPyPzMVector) (mult : R)
      (isMix_ : bool) :
  multiplicity (snd (fillInvMass config s m mult d1 d2 isMix_)) = multiplicity s.
Proof.
  unfold fillInvMass.
  destruct (activateTHnSparseCosThStarHelicity config);
    [apply fillBranch_generators|].
  destruct (activateTHnSparseCosThStarProduction config);
    [apply fillBranch_generators|].
  destruct (activateTHnSparseCosThStarBeam config);
    [apply fillBranch_generators|].
  destruct (activateTHnSparseCosThStarRandom config); [|reflexivity].
  destruct (Uniform 0 (2 * PI) (gRandom s)) as [phiRandom g1].
  destruct (Uniform 0 PI g1) as [thetaRandom g2].
  apply fillBranch_generators.
Qed.

(** The same-event entries of a sequence of [fillInvMass] calls on
    pairs: one for each pair whose composite has |rapidity| < 0.5, in
    the order of the pairs. *)
Lemma fold_fillPair_DS (pairs : list (V0 * V0)) :
  forall (filled : list Fill) (s : Members),
  exists entries,
    filter isDS (fst (fold_left (fillPair config MassK0Short false) pairs (filled, s)))
    = filter isDS filled ++ entries
    /\ Forall2 (primaryEntryOf MassK0Short (multiplicity s)) entries
               (filter (centralPair MassK0Short) pairs).
Proof.
  induction pairs as [|pair pairs IH]; intros filled s.
  - exists []. cbn. rewrite app_nil_r. split; [reflexivity|constructor].
  - cbn [fold_left filter]. unfold fillPair at 2.
    set (d1 := kshort MassK0Short (fst pair)).
    set (d2 := kshort MassK0Short (snd pair)).
    set (s1 := set_pair s d1 d2 (add d1 d2) false).
    destruct (fillInvMass_DS config s1 (add d1 d2) (multiplicity s1) d1 d2 policy)
      as [c Hc].
    pose proof (fillInvMass_multiplicity s1 (add d1 d2) d1 d2 (multiplicity s1) false)
      as Hmult.
    destruct (fillInvMass config s1 (add d1 d2) (multiplicity s1) d1 d2 false)
      as [fills s2].
    cbn [fst snd] in Hc, Hmult.
    destruct (IH (filled ++ fills) s2) as [rest [Hrest Hall]].
    rewrite Hmult in Hall. change (multiplicity s1) with (multiplicity s) in Hall, Hc.
    rewrite Hrest, filter_app, Hc, <- app_assoc.
    unfold centralPair, pairMother. fold d1 d2.
    destruct (Rltb (Rabs (Rapidity (add d1 d2))) 0.5).
    + eexists. split; [reflexivity|]. cbn [app]. constructor; [|exact Hall].
      exists c. reflexivity.
    + exists rest. split; [reflexivity|exact Hall].
Qed.

Lemma fold_setPair_multiplicity (pairs : list (V0 * V0)) (s : Members) :
  multiplicity (fold_left (setPair MassK0Short) pairs s) = multiplicity s.
Proof.
  revert s. induction pairs as [|p pairs IH]; intros s; [reflexivity|].
  cbn [fold_left]. rewrite IH. reflexivity.
Qed.

Section SelectedEvent.

Variable s : Members.
Variable collision : Collision.
Variable V0s : list V0.

Hypothesis selected : eventselection config collision = true.
Hypothesis rct : requireRCTFlagChecker config && negb (rctChecker collision) = false.

Lemma processSE_recorded_every_pair :
  selectTWOKsOnly config = false ->
  Forall2 (primaryEntryOf MassK0Short
                          (if cfgMultFOTM config then centFT0M collision
                           else centFT0C collision))
          (filter isDS (fst (processSE config MassK0Short MassLambda0 tracks s collision V0s)))
          (filter (centralPair MassK0Short)
                  (sePairs config MassK0Short MassLambda0 tracks collision V0s)).
Proof.
  intros Htwo.
  rewrite (processSE_fills config MassK0Short MassLambda0 tracks s collision V0s
                           Htwo selected rct).
  destruct (fold_fillPair_DS
              (sePairs config MassK0Short MassLambda0 tracks collision V0s) []
              (set_multiplicity s (if cfgMultFOTM config then centFT0M collision
                                   else centFT0C collision)))
    as [entries [He Hall]].
  rewrite He. exact Hall.
Qed.

Lemma processSE_recorded_last_pair :
  selectTWOKsOnly config = true ->
  Forall2 (primaryEntryOf MassK0Short
                          (if cfgMultFOTM config then centFT0M collision
                           else centFT0C collision))
          (filter isDS (fst (processSE config MassK0Short MassLambda0 tracks s collision V0s)))
          (if (sizeofv0indexes config MassK0Short MassLambda0 tracks s collision V0s =? 2)%Z
           then filter (centralPair MassK0Short)
                       (firstn 1 (rev (sePairs config MassK0Short MassLambda0 tracks
                                               collision V0s)))
           else []).
Proof.
  intros Htwo. unfold processSE, sizeofv0indexes.
  rewrite selected, rct. cbn [negb].
  set (s0 := set_multiplicity s _).
  destruct (se_loop_two config MassK0Short MassLambda0 tracks collision V0s
                        (combinations V0s V0s) Htwo (mkSELoop [] false s0 []))
    as (Hf & Hm & Ha).
  cbn [seFilled seMembers allConditionsMet] in Hf, Hm, Ha.
  fold (sePairs config MassK0Short MassLambda0 tracks collision V0s) in Hm, Ha.
  set (l := fold_left _ _ _) in *.
  rewrite Htwo. cbn [andb].
  destruct (Z.of_nat (List.length (v0indexes l)) =? 2)%Z; cbn [andb];
    [|rewrite Hf; constructor].
  rewrite Ha, orb_false_r.
  rewrite <- (rev_involutive (sePairs config MassK0Short MassLambda0 tracks collision V0s))
    in Hm |- * at 1.
  destruct (rev (sePairs config MassK0Short MassLambda0 tracks collision V0s))
    as [|pair before].
  - cbn. rewrite Hf. constructor.
  - cbn [rev] in Hm |- *. rewrite length_app. cbn [List.length].
    replace (List.length (rev before) + 1 =? 0)%nat with false
      by (symmetry; apply Nat.eqb_neq; lia).
    cbn [negb firstn filter].
    rewrite fold_left_app in Hm. cbn [fold_left] in Hm.
    assert (Hmo : mother (seMembers l) = pairMother MassK0Short pair)
      by (rewrite Hm; reflexivity).
    assert (Hd1 : daughter1 (seMembers l) = kshort MassK0Short (fst pair))
      by (rewrite Hm; reflexivity).
    assert (Hd2 : daughter2 (seMembers l) = kshort MassK0Short (snd pair))
      by (rewrite Hm; reflexivity).
    assert (Hmu : multiplicity (seMembers l)
                  = (if cfgMultFOTM config then centFT0M collision else centFT0C collision)).
    { rewrite Hm. unfold setPair. cbn [multiplicity set_pair].
      rewrite fold_setPair_multiplicity. reflexivity. }
    rewrite Hmo, Hd1, Hd2, Hmu, Hf.
    match goal with
    | |- context [fillInvMass config ?st ?m ?mu ?d1 ?d2 false] =>
        destruct (fillInvMass_DS config st m mu d1 d2 policy) as [c Hc];
        destruct (fillInvMass config st m mu d1 d2 false) as [fills s']
    end.
    cbn [fst app] in Hc |- *. rewrite Hc. unfold centralPair.
    destruct (Rltb (Rabs (Rapidity (pairMother MassK0Short pair))) 0.5);
      [|constructor].
    constructor; [|constructor]. exists c. reflexivity.
Qed.

End SelectedEvent.

End RecordedPairs.

Section TwoOnlyCount.
Import GenVector HigherMassResonances HigherMassResonancesLoops.

(** With [selectTWOKsOnly] on, an event whose number of accepted
    candidates is not two records nothing. *)
Lemma processSE_two_only_other_count (config : Config) (MassK0Short MassLambda0 : R)
      (tracks : Z -> Track) (s : Members) (collision : Collision) (V0s : list V0) :
  selectTWOKsOnly config = true ->
  NoDup (map globalIndex V0s) ->
  List.length (filter (candidateAccepted config MassK0Short MassLambda0 tracks collision) V0s)
  <> 2%nat ->
  fst (processSE config MassK0Short MassLambda0 tracks s collision V0s) = [].
Proof.
  intros Htwo Hnd Hcount. unfold processSE.
  destruct (negb (eventselection config collision)); [reflexivity|].
  destruct (requireRCTFlagChecker config && negb (rctChecker collision)); [reflexivity|].
  set (s0 := set_multiplicity s _).
  destruct (se_loop_two config MassK0Short MassLambda0 tracks collision V0s
                        (combinations V0s V0s) Htwo (mkSELoop [] false s0 []))
    as (Hf & _ & _).
  pose proof (se_loop_accepted_indices config MassK0Short MassLambda0 tracks collision V0s
                (mkSELoop [] false s0 []) Hnd eq_refl) as Hidx.
  cbn [seFilled] in Hf.
  set (l := fold_left _ _ _) in *.
  rewrite Htwo. cbn [andb].
  destruct (Z.eqb_spec (Z.of_nat (List.length (v0indexes l))) 2) as [Hsize|Hsize];
    cbn [andb].
  - rewrite Hidx, length_map in Hsize. lia.
  - exact Hf.
Qed.

End TwoOnlyCount.

(** C7, as the code computes it: in an event that passes the event
    selection, with a reference-axis policy active, the entries of
    [h3glueInvMassDS] are, in the order of the loop, one for each
    accepted same-event pair whose composite has an absolute rapidity
    below 0.5, when [selectTWOKsOnly] is off.  When it is on (the
    default) the fill is left to the end of the event and made only if
    the number of counted candidates ([sizeofv0indexes], the value filled
    into [NksProduced]) is two: then the last accepted pair is recorded
    if and only if the absolute rapidity of its composite is below 0.5,
    and in every other event no pair is recorded.  A recorded entry
    carries the multiplicity of the event, pT and mass of the composite,
    a cosThetaStar and the azimuthal angle. *)
Theorem accepted_pair_recorded_iff_rapidity :
  forall (config : HigherMassResonances.Config) (MassK0Short MassLambda0 : R)
         (tracks : Z -> HigherMassResonances.Track) (s : HigherMassResonances.Members)
         (collision : HigherMassResonances.Collision) (V0s : list HigherMassResonances.V0),
    HigherMassResonances.activateTHnSparseCosThStarHelicity config
    || HigherMassResonances.activateTHnSparseCosThStarProduction config
    || HigherMassResonances.activateTHnSparseCosThStarBeam config
    || HigherMassResonances.activateTHnSparseCosThStarRandom config = true ->
    HigherMassResonances.eventselection config collision = true ->
    HigherMassResonances.requireRCTFlagChecker config
    && negb (HigherMassResonances.rctChecker collision) = false ->
    let multiplicity :=
      if HigherMassResonances.cfgMultFOTM config
      then HigherMassResonances.centFT0M collision
      else HigherMassResonances.centFT0C collision in
    let pairs := HigherMassResonances.sePairs
                   config MassK0Short MassLambda0 tracks collision V0s in
    let recorded :=
      filter HigherMassResonances.isDS
             (fst (HigherMassResonances.processSE
                     config MassK0Short MassLambda0 tracks s collision V0s)) in
    (HigherMassResonances.selectTWOKsOnly config = false ->
     Forall2 (primaryEntryOf MassK0Short multiplicity) recorded
             (filter (centralPair MassK0Short) pairs))
    /\ (HigherMassResonances.selectTWOKsOnly config = true ->
        Forall2 (primaryEntryOf MassK0Short multiplicity) recorded
                (if (HigherMassResonancesLoops.sizeofv0indexes
                       config MassK0Short MassLambda0 tracks s collision V0s =? 2)%Z
                 then filter (centralPair MassK0Short) (firstn 1 (rev pairs))
                 else [])).
Proof.
  intros config MK ML tracks s collision V0s Hpolicy Hev Hrct multiplicity pairs recorded.
  split; intros Htwo.
  - exact (processSE_recorded_every_pair config MK ML tracks Hpolicy s collision V0s
                                         Hev Hrct Htwo).
  - exact (processSE_recorded_last_pair config MK ML tracks Hpolicy s collision V0s
                                        Hev Hrct Htwo).
Qed.

Lemma accepted_pair_recorded_iff_rapidity_witness :
  HigherMassResonances.activateTHnSparseCosThStarHelicity defaultConfig
  || HigherMassResonances.activateTHnSparseCosThStarProduction defaultConfig
  || HigherMassResonances.activateTHnSparseCosThStarBeam defaultConfig
  || HigherMassResonances.activateTHnSparseCosThStarRandom defaultConfig = true
  /\ HigherMassResonances.eventselection defaultConfig sampleCollision = true
  /\ HigherMassResonances.requireRCTFlagChecker defaultConfig
     && negb (HigherMassResonances.rctChecker sampleCollision) = false
  /\ (HigherMassResonances.selectTWOKsOnly defaultConfig = true ->
      Forall2 (primaryEntryOf 0.497611 10)
              (filter HigherMassResonances.isDS
                      (fst (HigherMassResonances.processSE
                              defaultConfig 0.497611 1.115683 chargedTracks initialMembers
                              sampleCollision [sampleV0 0 2 3; sampleV0 1 4 5])))
              (if (HigherMassResonancesLoops.sizeofv0indexes
                     defaultConfig 0.497611 1.115683 chargedTracks initialMembers
                     sampleCollision [sampleV0 0 2 3; sampleV0 1 4 5] =? 2)%Z
               then filter (centralPair 0.497611)
                           (firstn 1 (rev (HigherMassResonances.sePairs
                                             defaultConfig 0.497611 1.115683 chargedTracks
                                             sampleCollision
                                             [sampleV0 0 2 3; sampleV0 1 4 5])))
               else [])).
Proof.
  split; [reflexivity|]. split; [reflexivity|]. split; [reflexivity|].
  exact (proj2 (accepted_pair_recorded_iff_rapidity
                  defaultConfig 0.497611 1.115683 chargedTracks initialMembers
                  sampleCollision [sampleV0 0 2 3; sampleV0 1 4 5]
                  eq_refl eq_refl eq_refl)).
Defined.

Lemma threeKsEvent_indices : NoDup (map HigherMassResonances.globalIndex threeKsEvent).
Proof.
  cbn. repeat constructor; cbn; intuition discriminate.
Qed.

Lemma threeKsEvent_accepted :
  List.length
    (filter (HigherMassResonances.candidateAccepted
               defaultConfig 0.497611 1.115683 chargedTracks sampleCollision)
            threeKsEvent) = 3%nat.
Proof.
  unfold threeKsEvent. cbn [filter].
  rewrite !sample_candidate_accepted by reflexivity. reflexivity.
Qed.

Lemma threeKsEvent_pair :
  In (sampleV0 0 2 3, sampleV0 1 4 5)
     (HigherMassResonances.sePairs
        defaultConfig 0.497611 1.115683 chargedTracks sampleCollision threeKsEvent).
Proof.
  unfold HigherMassResonances.sePairs, HigherMassResonances.combinations.
  apply filter_In. split.
  - apply in_prod; cbn; auto.
  - cbn [fst snd]. rewrite sample_gate by (try discriminate; reflexivity). reflexivity.
Qed.

(** C7, as stated, fails: under the default configuration (beam axis
    active, [selectTWOKsOnly] on) the event with three accepted
    candidates has the accepted pair (0, 1) with a composite at rapidity
    0, and records nothing. *)
Lemma accepted_pair_not_recorded_among_three :
  ~ (forall (config : HigherMassResonances.Config) (MassK0Short MassLambda0 : R)
            (tracks : Z -> HigherMassResonances.Track) (s : HigherMassResonances.Members)
            (collision : HigherMassResonances.Collision)
            (V0s : list HigherMassResonances.V0)
            (pair : HigherMassResonances.V0 * HigherMassResonances.V0),
        HigherMassResonances.activateTHnSparseCosThStarHelicity config
        || HigherMassResonances.activateTHnSparseCosThStarProduction config
        || HigherMassResonances.activateTHnSparseCosThStarBeam config
        || HigherMassResonances.activateTHnSparseCosThStarRandom config = true ->
        HigherMassResonances.eventselection config collision = true ->
        HigherMassResonances.requireRCTFlagChecker config
        && negb (HigherMassResonances.rctChecker collision) = false ->
        In pair (HigherMassResonances.sePairs
                   config MassK0Short MassLambda0 tracks collision V0s) ->
        ((exists f,
             In f (filter HigherMassResonances.isDS
                          (fst (HigherMassResonances.processSE
                                  config MassK0Short MassLambda0 tracks s collision V0s)))
             /\ primaryEntryOf MassK0Short
                               (if HigherMassResonances.cfgMultFOTM config
                                then HigherMassResonances.centFT0M collision
                                else HigherMassResonances.centFT0C collision)
                               f pair)
         <-> Rabs (GenVector.Rapidity (pairMother MassK0Short pair)) < 0.5)).
Proof.
  intros H.
  destruct (H defaultConfig 0.497611 1.115683 chargedTracks initialMembers sampleCollision
              threeKsEvent (sampleV0 0 2 3, sampleV0 1 4 5)
              eq_refl eq_refl eq_refl threeKsEvent_pair) as [_ Hback].
  destruct Hback as [f [Hin _]].
  - unfold pairMother. cbn [fst snd]. rewrite sample_mother.
    rewrite Rapidity_transverse by lra. rewrite Rabs_R0. lra.
  - rewrite (processSE_two_only_other_count
               defaultConfig 0.497611 1.115683 chargedTracks initialMembers sampleCollision
               threeKsEvent eq_refl threeKsEvent_indices) in Hin.
    + contradiction.
    + rewrite threeKsEvent_accepted. discriminate.
Qed.
